(** * sensor-gen: the reading synthesizer and the paced emission loop

    A shallow embedding of [main.go]: the profile registry, [generateReading],
    the batch/interval computation and the select loop of [main], and
    [printFinalStats]; followed by the properties of the specification that
    are settled on it. *)

From Stdlib Require Import ZArith QArith Qround Qabs Qpower Qreduction.
From Stdlib Require Import Lqa Lia Bool List String Ascii DecimalString.
From Stdlib Require Import SpecFloat Sorted DecimalN.
Import ListNotations.

(** ** float64

    Go's [float64] is IEEE 754 binary64.  A finite value is kept as the
    rational it denotes; every arithmetic operation computes the exact
    rational result and rounds it to the nearest binary64 value, ties to
    even, as the format prescribes.  The rounding is written out below:
    53 bits of precision, least exponent -1074 (subnormals), overflow to
    infinity at 2^1024.  Each operation rounds on its own, as the compiler
    for amd64 has it.  The sign of zero is not kept: this program never
    observes it. *)

Module F64.

Local Open Scope Q_scope.

Definition pow2 (e : Z) : Q := Qpower 2 e.

(** floor (log2 x), for 0 < x *)
Definition Qlog2 (x : Q) : Z :=
  let k := (Z.log2 (Qnum x) - Z.log2 (Zpos (Qden x)))%Z in
  if Qle_bool (pow2 k) x then k else (k - 1)%Z.

(** nearest integer, ties to even *)
Definition rne (x : Q) : Z :=
  let f := Qfloor x in
  match Qcompare (x - inject_Z f) (1 # 2) with
  | Lt => f
  | Gt => (f + 1)%Z
  | Eq => if Z.even f then f else (f + 1)%Z
  end.

(** exponent of the last place of the binade of x (0 < x) *)
Definition fexp (x : Q) : Z := Z.max (Qlog2 x - 52) (-1074).

Definition round_pos (x : Q) : Q :=
  let e := fexp x in inject_Z (rne (x / pow2 e)) * pow2 e.

(** rounding to binary64 with an unbounded exponent range above *)
Definition round64 (x : Q) : Q :=
  match Qcompare x 0 with
  | Eq => 0
  | Gt => Qred (round_pos x)
  | Lt => Qred (- round_pos (- x))
  end.

Inductive float64 : Type :=
| NaN : float64
| Inf (neg : bool) : float64
| Fin (q : Q) : float64.

(** the rounded result of an operation whose exact value is x *)
Definition fround (x : Q) : float64 :=
  let r := round64 x in
  if Qle_bool (pow2 1024) (Qabs r) then Inf (Qle_bool r 0) else Fin r.

(** a decimal literal of the source, converted to float64 by the compiler *)
Definition lit (x : Q) : float64 := fround x.

Definition fadd (a b : float64) : float64 :=
  match a, b with
  | NaN, _ | _, NaN => NaN
  | Inf s, Inf t => if Bool.eqb s t then Inf s else NaN
  | Inf s, Fin _ | Fin _, Inf s => Inf s
  | Fin x, Fin y => fround (x + y)
  end.

Definition fneg (a : float64) : float64 :=
  match a with
  | NaN => NaN
  | Inf s => Inf (negb s)
  | Fin x => Fin (Qred (- x))
  end.

Definition fsub (a b : float64) : float64 := fadd a (fneg b).

Definition Qneg (x : Q) : bool := negb (Qle_bool 0 x).

Definition fmul (a b : float64) : float64 :=
  match a, b with
  | NaN, _ | _, NaN => NaN
  | Inf s, Inf t => Inf (xorb s t)
  | Inf s, Fin y | Fin y, Inf s =>
      if Qeq_bool y 0 then NaN else Inf (xorb s (Qneg y))
  | Fin x, Fin y => fround (x * y)
  end.

Definition fdiv (a b : float64) : float64 :=
  match a, b with
  | NaN, _ | _, NaN => NaN
  | Inf _, Inf _ => NaN
  | Inf s, Fin y => Inf (xorb s (Qneg y))
  | Fin _, Inf _ => Fin 0
  | Fin x, Fin y =>
      if Qeq_bool y 0
      then (if Qeq_bool x 0 then NaN else Inf (Qneg x))
      else fround (x / y)
  end.

(** [a < b] and [a <= b] of the language: false when an operand is NaN *)
Definition flt (a b : float64) : bool :=
  match a, b with
  | NaN, _ | _, NaN => false
  | Inf s, Inf t => s && negb t
  | Inf s, Fin _ => s
  | Fin _, Inf t => negb t
  | Fin x, Fin y => negb (Qle_bool y x)
  end.

Definition fle (a b : float64) : bool :=
  match a, b with
  | NaN, _ | _, NaN => false
  | Inf s, Inf t => s || negb t
  | Inf s, Fin _ => s
  | Fin _, Inf t => negb t
  | Fin x, Fin y => Qle_bool x y
  end.

(** [a == b] of the language: false when an operand is NaN *)
Definition feq (a b : float64) : bool :=
  match a, b with
  | Fin x, Fin y => Qeq_bool x y
  | Inf s, Inf t => Bool.eqb s t
  | _, _ => false
  end.

(** [float64(n)] for an integer n *)
Definition of_int (n : Z) : float64 := fround (inject_Z n).

(** truncation toward zero *)
Definition Qtrunc (x : Q) : Z :=
  if Qle_bool 0 x then Qfloor x else Qceiling x.

(** a value of the binary64 format *)
Definition is_f64 (x : Q) : Prop := round64 x == x.

(** the largest float64 below 1.0 *)
Definition pred_one : Q := 1 - pow2 (-53).

(** The Standard Library specifies the operations of binary64 on its own
    representation ([SpecFloat], sign, mantissa and exponent); its values
    are read here as values of [float64], to compare the two on the
    computations that matter below. *)
Definition of_spec (f : spec_float) : float64 :=
  match f with
  | S754_zero _ => Fin 0
  | S754_infinity s => Inf s
  | S754_nan => NaN
  | S754_finite s m e =>
      Fin (Qred ((if s then - inject_Z (Zpos m) else inject_Z (Zpos m))
                 * pow2 e))
  end.

End F64.

(** ** The platform: math/rand, time and strconv

    [generateReading] draws from a [*rand.Rand] and reads the wall clock;
    the loop reads the clock again.  Both are library objects outside the
    repository; they are taken through their interface, with a state [W]
    that the calls thread.  [FormatFloat] and [FormatTime] are the pure
    formatters that encoding/json and [Time.Format] call. *)

Class Platform (W : Type) : Type := {
  Intn : Z -> W -> Z * W;               (* rng.Intn(n) *)
  Float64 : W -> F64.float64 * W;       (* rng.Float64() *)
  Now : W -> Z * W;                     (* time.Now(), in nanoseconds *)
  FormatFloat : Q -> string;            (* the JSON text of a finite float64 *)
  FormatTime : Z -> string              (* t.UTC().Format(time.RFC3339Nano) *)
}.

Definition newline : ascii := ascii_of_nat 10.

Definition number_char (c : ascii) : bool :=
  let n := nat_of_ascii c in
  ((48 <=? n) && (n <=? 57) || (n =? 43) || (n =? 45) || (n =? 46)
   || (n =? 101))%nat%bool.

Fixpoint all_chars (p : ascii -> bool) (s : string) : bool :=
  match s with
  | EmptyString => true
  | String c s' => p c && all_chars p s'
  end.

(** a float64 of the interval [0.0, 1.0) *)
Definition unit_draw (u : Q) : Prop :=
  F64.is_f64 u /\ (0 <= u)%Q /\ (u < 1)%Q.

(** What the libraries document: [Intn n], for a positive n, is in [0, n);
    [Float64] is a float64 in [0.0, 1.0); a number is written with digits,
    sign, point and exponent mark. *)
Record PlatformLaws {W : Type} (P : Platform W) : Prop := {
  Intn_range : forall n w, (0 < n)%Z -> (0 <= fst (Intn n w) < n)%Z;
  Float64_range : forall w, exists u,
      fst (Float64 w) = F64.Fin u /\ unit_draw u;
  FormatFloat_chars : forall x, all_chars number_char (FormatFloat x) = true
}.

(** ** A monad for state and panics *)

Definition M (W A : Type) : Type := W -> option (A * W).

Definition ret {W A : Type} (a : A) : M W A := fun w => Some (a, w).

Definition bind {W A B : Type} (m : M W A) (f : A -> M W B) : M W B :=
  fun w => match m w with
           | Some (a, w') => f a w'
           | None => None
           end.

Definition panic {W A : Type} : M W A := fun _ => None.

Definition call {W A : Type} (f : W -> A * W) : M W A := fun w => Some (f w).

Notation "x <- m ;; k" := (bind m (fun x => k))
  (at level 61, m at next level, right associativity).

(** [l[i]]: an index out of range panics *)
Definition index {W A : Type} (l : list A) (i : Z) : M W A :=
  if (i <? 0)%Z then panic
  else match nth_error l (Z.to_nat i) with
       | Some a => ret a
       | None => panic
       end.

(** [s[:n]]: a bound beyond the length panics *)
Definition slice_to {W : Type} (s : string) (n : nat) : M W string :=
  if (n <=? String.length s)%nat then ret (substring 0 n s) else panic.

Definition len {A : Type} (l : list A) : Z := Z.of_nat (List.length l).

(** ** The data model

    The field [Type] of the source is [Type_] here, and the field
    [Location], which has the name of its type, is [Loc]. *)

Record Location : Type := {
  Lat : F64.float64;
  Lon : F64.float64;
  MilePost : F64.float64
}.

Record SensorReading : Type := {
  SensorID : string;
  Timestamp : string;
  Type_ : string;
  Value : F64.float64;
  Unit : string;
  Loc : Location;
  PipelineID : string;
  Status : string;
  Quality : F64.float64;
  AlertLevel : string
}.

(** an entry of [sensorTypes] *)
Record SensorType : Type := {
  stType : string;
  stUnit : string;
  stMin : F64.float64;
  stMax : F64.float64
}.

Definition sensorTypes : list SensorType :=
  [ {| stType := "pressure"; stUnit := "psi";
       stMin := F64.lit 200; stMax := F64.lit 1500 |};
    {| stType := "temperature"; stUnit := "fahrenheit";
       stMin := F64.lit (-20); stMax := F64.lit 180 |};
    {| stType := "flow_rate"; stUnit := "bbl/hr";
       stMin := F64.lit 0; stMax := F64.lit 50000 |};
    {| stType := "vibration"; stUnit := "mm/s";
       stMin := F64.lit 0; stMax := F64.lit 25 |};
    {| stType := "corrosion"; stUnit := "mpy";
       stMin := F64.lit 0; stMax := F64.lit 50 |};
    {| stType := "humidity"; stUnit := "percent";
       stMin := F64.lit 0; stMax := F64.lit 100 |};
    {| stType := "gas_detector"; stUnit := "ppm";
       stMin := F64.lit 0; stMax := F64.lit 1000 |};
    {| stType := "valve_position"; stUnit := "percent";
       stMin := F64.lit 0; stMax := F64.lit 100 |} ].

Definition pipelineIDs : list string :=
  [ "PIPE-TX-001"; "PIPE-TX-002"; "PIPE-OK-001"; "PIPE-LA-001";
    "PIPE-NM-001"; "PIPE-CO-001"; "PIPE-WY-001"; "PIPE-ND-001" ]%string.

Definition statuses : list string :=
  [ "normal"; "normal"; "normal"; "normal"; "warning"; "maintenance" ]%string.

Definition alertLevels : list string :=
  [ EmptyString; EmptyString; EmptyString; EmptyString; EmptyString;
    "low"; "medium"; "high" ]%string.

(** ** fmt.Sprintf("SNS-%s-%04d", s, n) *)

Definition decimal (n : Z) : string :=
  NilZero.string_of_uint (N.to_uint (Z.to_N n)).

Fixpoint zeros (k : nat) : string :=
  match k with
  | O => EmptyString
  | S k' => String "0" (zeros k')
  end.

Definition pad_zeros (width : nat) (s : string) : string :=
  (zeros (width - String.length s) ++ s)%string.

(** [%04d]: the sign, when there is one, counts in the width *)
Definition fmt04d (n : Z) : string :=
  if (n <? 0)%Z then ("-" ++ pad_zeros 3 (decimal (- n)))%string
  else pad_zeros 4 (decimal n).

Definition sensorID (prefix : string) (n : Z) : string :=
  ("SNS-" ++ prefix ++ "-" ++ fmt04d n)%string.

(** ** generateReading *)

Section Synthesizer.

Context {W : Type} {P : Platform W}.

(** [st.Min + rng.Float64()*(st.Max-st.Min)] *)
Definition baseValue (st : SensorType) (u : F64.float64) : F64.float64 :=
  F64.fadd (stMin st) (F64.fmul u (F64.fsub (stMax st) (stMin st))).

(** [st.Max + rng.Float64()*st.Max*0.2] *)
Definition anomalyValue (st : SensorType) (v : F64.float64) : F64.float64 :=
  F64.fadd (stMax st) (F64.fmul (F64.fmul v (stMax st)) (F64.lit (2 # 10))).

(** The [if rng.Float64() < 0.02 { ... }] statement, on the variables
    [value] and [alert] that it assigns. *)
Definition anomaly (st : SensorType) (value : F64.float64) (alert : string)
  : M W (F64.float64 * string) :=
  t <- call Float64 ;;
  if F64.flt t (F64.lit (2 # 100)) then
    v <- call Float64 ;;
    ret (anomalyValue st v,
         if (alert =? EmptyString)%string then "medium"%string else alert)
  else ret (value, alert).

Definition generateReading : M W SensorReading :=
  i <- call (Intn (len sensorTypes)) ;;
  st <- index sensorTypes i ;;
  j <- call (Intn (len pipelineIDs)) ;;
  pipeline <- index pipelineIDs j ;;
  k <- call (Intn (len statuses)) ;;
  status <- index statuses k ;;
  a <- call (Intn (len alertLevels)) ;;
  alert <- index alertLevels a ;;
  u <- call Float64 ;;
  va <- anomaly st (baseValue st u) alert ;;
  prefix <- slice_to (stType st) 3 ;;
  n <- call (Intn 10000) ;;
  now <- call Now ;;
  q <- call Float64 ;;
  lat <- call Float64 ;;
  lon <- call Float64 ;;
  mp <- call Float64 ;;
  ret {| SensorID := sensorID prefix n;
         Timestamp := FormatTime now;
         Type_ := stType st;
         Value := fst va;
         Unit := stUnit st;
         PipelineID := pipeline;
         Status := status;
         Quality := F64.fadd (F64.lit (85 # 100))
                             (F64.fmul q (F64.lit (15 # 100)));
         AlertLevel := snd va;
         Loc := {| Lat := F64.fadd (F64.lit 25) (F64.fmul lat (F64.lit 20));
                   Lon := F64.fadd (F64.lit (-105)) (F64.fmul lon (F64.lit 15));
                   MilePost := F64.fmul mp (F64.lit 500) |} |}.

End Synthesizer.

(** ** encoding/json on SensorReading

    [json.Marshal] follows the field tags of the struct: the members are
    written in field order under their tag names, [alert_level] is left out
    when the string is empty ([omitempty]), and a float that is NaN or
    infinite makes the call fail. *)

#[warnings="-register-all"] Inductive json : Type :=
| JString (s : string)
| JNumber (x : Q)
| JObject (members : list (string * json)).

Definition number (f : F64.float64) : option json :=
  match f with
  | F64.Fin x => Some (JNumber x)
  | _ => None
  end.

Definition optional_string (key s : string) : list (string * json) :=
  if (s =? EmptyString)%string then [] else [(key, JString s)].

Definition toJSON (r : SensorReading) : option json :=
  match number (Value r), number (Lat (Loc r)), number (Lon (Loc r)),
        number (MilePost (Loc r)), number (Quality r) with
  | Some value, Some lat, Some lon, Some mile_post, Some quality =>
      Some (JObject
              ([ ("sensor_id", JString (SensorID r));
                 ("timestamp", JString (Timestamp r));
                 ("type", JString (Type_ r));
                 ("value", value);
                 ("unit", JString (Unit r));
                 ("location", JObject [ ("lat", lat); ("lon", lon);
                                        ("mile_post", mile_post) ]);
                 ("pipeline_id", JString (PipelineID r));
                 ("status", JString (Status r));
                 ("quality_score", quality) ]%string
               ++ optional_string "alert_level" (AlertLevel r)))
  | _, _, _, _, _ => None
  end.

Definition hex_digit (n : nat) : ascii :=
  ascii_of_nat (if (n <? 10)%nat then 48 + n else 87 + n).

Definition quote_char : ascii := ascii_of_nat 34.
Definition backslash : ascii := ascii_of_nat 92.

(** The text of one ASCII byte inside a JSON string (Go 1.22 and later):
    quote and backslash take a backslash, the control characters with a
    short form take it, the other control characters and the HTML
    characters are written as \u00XX, the rest is copied. *)
Definition escape_char (c : ascii) : string :=
  let n := nat_of_ascii c in
  if (n =? 34)%nat then String backslash (String quote_char EmptyString)
  else if (n =? 92)%nat then String backslash (String backslash EmptyString)
  else if (n =? 8)%nat then String backslash "b"
  else if (n =? 12)%nat then String backslash "f"
  else if (n =? 10)%nat then String backslash "n"
  else if (n =? 13)%nat then String backslash "r"
  else if (n =? 9)%nat then String backslash "t"
  else if ((n <? 32) || (n =? 60) || (n =? 62) || (n =? 38))%nat%bool
       then String backslash
              (String "u" (String "0" (String "0"
                 (String (hex_digit (n / 16)) (String (hex_digit (n mod 16))
                    EmptyString)))))
  else String c EmptyString.

(** [utf8.DecodeRuneInString]: the length that the first byte of a
    sequence announces (0 when it cannot start one), and the range that it
    leaves to the second byte. *)
Definition utf8_size (c : ascii) : nat :=
  let n := nat_of_ascii c in
  if (n <? 194)%nat then 0%nat
  else if (n <? 224)%nat then 2%nat
  else if (n <? 240)%nat then 3%nat
  else if (n <? 245)%nat then 4%nat
  else 0%nat.

Definition second_range (c : ascii) : nat * nat :=
  let n := nat_of_ascii c in
  if (n =? 224)%nat then (160, 191)%nat
  else if (n =? 237)%nat then (128, 159)%nat
  else if (n =? 240)%nat then (144, 191)%nat
  else if (n =? 244)%nat then (128, 143)%nat
  else (128, 191)%nat.

Definition second_ok (c c2 : ascii) : bool :=
  let n := nat_of_ascii c2 in
  ((fst (second_range c) <=? n) && (n <=? snd (second_range c)))%nat.

Definition continuation (c : ascii) : bool :=
  let n := nat_of_ascii c in ((128 <=? n) && (n <=? 191))%nat.

(** the text written for a byte that is not part of valid UTF-8 *)
Definition replacement : string :=
  String backslash "ufffd".

(** a sequence of three bytes: U+2028 and U+2029 are escaped, any other
    character is copied *)
Definition three_bytes (c c2 c3 : ascii) : string :=
  if ((nat_of_ascii c =? 226) && (nat_of_ascii c2 =? 128))%nat%bool
  then
    if (nat_of_ascii c3 =? 168)%nat then String backslash "u2028"
    else if (nat_of_ascii c3 =? 169)%nat then String backslash "u2029"
    else String c (String c2 (String c3 EmptyString))
  else String c (String c2 (String c3 EmptyString)).

(** The text of a string between the quotes: ASCII bytes one by one, the
    others by UTF-8 sequences; a byte that starts no valid sequence is
    replaced, alone, by \ufffd. *)
Fixpoint escape (s : string) : string :=
  match s with
  | EmptyString => EmptyString
  | String c r1 =>
      if (nat_of_ascii c <? 128)%nat then (escape_char c ++ escape r1)%string
      else
        let bad := (replacement ++ escape r1)%string in
        match utf8_size c, r1 with
        | 2%nat, String c2 r2 =>
            if second_ok c c2 then String c (String c2 (escape r2)) else bad
        | 3%nat, String c2 (String c3 r3) =>
            if second_ok c c2 && continuation c3
            then (three_bytes c c2 c3 ++ escape r3)%string else bad
        | 4%nat, String c2 (String c3 (String c4 r4)) =>
            if second_ok c c2 && continuation c3 && continuation c4
            then String c (String c2 (String c3 (String c4 (escape r4))))
            else bad
        | _, _ => bad
        end
  end.

Definition quote (s : string) : string :=
  String quote_char (escape s ++ String quote_char EmptyString).

Section Encoder.

Context {W : Type} {P : Platform W}.

(** the compact encoding: no space and no line break between tokens *)
Fixpoint encode (j : json) : string :=
  match j with
  | JString s => quote s
  | JNumber x => FormatFloat x
  | JObject ms =>
      let fix members (first : bool) (ms : list (string * json)) : string :=
        match ms with
        | [] => EmptyString
        | (k, v) :: ms' =>
            ((if first then EmptyString else ",") ++ quote k ++ ":"
             ++ encode v ++ members false ms')%string
        end in
      ("{" ++ members true ms ++ "}")%string
  end.

(** [json.Marshal(reading)]: [None] stands for a non-nil error *)
Definition Marshal (r : SensorReading) : option string :=
  option_map encode (toJSON r).

End Encoder.

(** ** bufio.Writer over the output file

    [file] is what has reached the file, [buf] what is still buffered.
    The sink accepts every write: the errors of the file, which [main]
    discards, are not part of the model. *)

Record Writer : Type := {
  file : string;
  buf : string
}.

Definition bufSize : Z := 1024 * 1024.

Definition Buffered (b : Writer) : Z := Z.of_nat (String.length (buf b)).

Definition Available (b : Writer) : Z := bufSize - Buffered b.

Definition Flush (b : Writer) : Writer :=
  {| file := file b ++ buf b; buf := EmptyString |}.

(** [Write]: data that does not fit fills the buffer, which is flushed; data
    larger than an empty buffer goes to the file directly. *)
Definition Write (p : string) (b : Writer) : Writer :=
  let n := Z.of_nat (String.length p) in
  if (n <=? Available b)%Z then {| file := file b; buf := buf b ++ p |}
  else if (Buffered b =? 0)%Z then {| file := file b ++ p; buf := buf b |}
  else
    let k := Z.to_nat (Available b) in
    let p1 := substring 0 k p in
    let p2 := substring k (String.length p - k) p in
    let f := (file b ++ buf b ++ p1)%string in
    if (Z.of_nat (String.length p2) <=? bufSize)%Z
    then {| file := f; buf := p2 |}
    else {| file := f ++ p2; buf := EmptyString |}.

Definition WriteByte (c : ascii) (b : Writer) : Writer :=
  let b' := if (Available b <=? 0)%Z then Flush b else b in
  {| file := file b'; buf := buf b' ++ String c EmptyString |}.

(** everything written so far, in order *)
Definition written (b : Writer) : string := (file b ++ buf b)%string.

Fixpoint count_char (c : ascii) (s : string) : Z :=
  match s with
  | EmptyString => 0
  | String d s' => (if Ascii.eqb c d then 1 else 0) + count_char c s'
  end.

(** the number of line ends in a text *)
Definition lines (s : string) : Z := count_char newline s.

(** ** main: batch size and tick interval *)

Definition Second : Z := 1000000000.

Definition batchSizeOf (rate : Z) : Z :=
  let batchSize := 1000%Z in
  let batchSize := if (rate <? batchSize)%Z then rate else batchSize in
  if (batchSize <? 1)%Z then 1%Z else batchSize.

(** [time.Duration(f)]: the conversion of a float64 to int64 drops the
    fraction; the language leaves the result open when the value does not
    fit, which is [None] here. *)
Definition to_int64 (f : F64.float64) : option Z :=
  match f with
  | F64.Fin x =>
      let n := F64.Qtrunc x in
      if ((- 2 ^ 63 <=? n) && (n <? 2 ^ 63))%Z%bool then Some n else None
  | _ => None
  end.

(** the interval: [float64(time.Second) * float64(batchSize) / float64(rate)],
    converted to a [time.Duration] *)
Definition intervalOf (rate : Z) : option Z :=
  to_int64
    (F64.fdiv (F64.fmul (F64.of_int Second) (F64.of_int (batchSizeOf rate)))
              (F64.of_int rate)).

(** [d.Seconds()] *)
Definition Seconds (d : Z) : F64.float64 :=
  F64.fadd (F64.of_int (Z.quot d Second))
           (F64.fdiv (F64.of_int (Z.rem d Second)) (F64.lit 1000000000)).

(** ** main: the loop

    [stdout] keeps the statistics that the loop prints, the periodic ones
    and the final ones; the banner printed before the loop is left out. *)

Record Stats : Type := {
  statTotal : Z;              (* Total entries *)
  statElapsed : Z;            (* Duration *)
  statRate : F64.float64;     (* Average rate *)
  statSizeMB : F64.float64;   (* File size *)
  statAvgSize : F64.float64   (* Avg entry size *)
}.

Inductive Print : Type :=
| Progress (total : Z) (rate : F64.float64)
| FinalStats (s : Stats).

Record Config : Type := {
  rate : Z;
  duration : Z;
  verbose : bool
}.

Record State : Type := {
  writer : Writer;
  totalEntries : Z;
  lastReport : Z;
  stdout : list Print
}.

Inductive Outcome : Type :=
| Running (s : State)
| Stopped (s : State).

(** [totalEntries++] on an int64 *)
Definition incr64 (n : Z) : Z :=
  if (n + 1 <? 2 ^ 63)%Z then (n + 1)%Z else (- 2 ^ 63)%Z.

(** the two cases of the select statement *)
Inductive event : Type :=
| Signal     (* <-sigChan *)
| Tick.      (* <-ticker.C *)

Section Loop.

Context {W : Type} {P : Platform W}.

(** [printFinalStats]; the call of [os.Stat] on the file name is left to
    the caller and [fi] is its result: [None] is the nil FileInfo of a
    failed call, on which [fi.Size()] panics. *)
Definition printFinalStats (total start : Z) (fi : option Z) : M W Stats :=
  now <- call Now ;;
  let elapsed := (now - start)%Z in
  let rate := F64.fdiv (F64.of_int total) (Seconds elapsed) in
  size <- match fi with Some n => ret n | None => panic end ;;
  let sizeMB := F64.fdiv (F64.of_int size) (F64.lit (inject_Z (1024 * 1024))) in
  ret {| statTotal := total;
         statElapsed := elapsed;
         statRate := rate;
         statSizeMB := sizeMB;
         statAvgSize := F64.fdiv (F64.of_int size) (F64.of_int total) |}.

(** [writer.Flush(); printFinalStats(...); return] *)
Definition stop (start : Z) (s : State) : M W State :=
  let b := Flush (writer s) in
  st <- printFinalStats (totalEntries s) start
          (Some (Z.of_nat (String.length (file b)))) ;;
  ret {| writer := b;
         totalEntries := totalEntries s;
         lastReport := lastReport s;
         stdout := stdout s ++ [FinalStats st] |}.

(** What the body of [for range batchSize] does with the reading: the
    error of [json.Marshal] is discarded, and [data] is nil when there is
    one. *)
Definition data_of (reading : SensorReading) : string :=
  match Marshal reading with
  | Some d => d
  | None => EmptyString
  end.

Definition emit (reading : SensorReading) (s : State) : State :=
  let data := data_of reading in
  {| writer := WriteByte newline (Write data (writer s));
     totalEntries := incr64 (totalEntries s);
     lastReport := lastReport s;
     stdout := stdout s |}.

(** the body of [for range batchSize] *)
Definition writeRecord (s : State) : M W State :=
  reading <- generateReading ;;
  ret (emit reading s).

Fixpoint writeBatch (n : nat) (s : State) : M W State :=
  match n with
  | O => ret s
  | S n' => s' <- writeRecord s ;; writeBatch n' s'
  end.

Definition flushed (s : State) : State :=
  {| writer := Flush (writer s);
     totalEntries := totalEntries s;
     lastReport := lastReport s;
     stdout := stdout s |}.

(** [if *verbose && time.Since(lastReport) >= 5*time.Second { ... }] *)
Definition periodicStats (cfg : Config) (start : Z) (s : State) : M W State :=
  if verbose cfg then
    now <- call Now ;;
    if (5 * Second <=? now - lastReport s)%Z then
      now1 <- call Now ;;
      let elapsed := Seconds (now1 - start) in
      let r := F64.fdiv (F64.of_int (totalEntries s)) elapsed in
      now2 <- call Now ;;
      ret {| writer := writer s;
             totalEntries := totalEntries s;
             lastReport := now2;
             stdout := stdout s ++ [Progress (totalEntries s) r] |}
    else ret s
  else ret s.

(** [case <-sigChan] *)
Definition onSignal (start : Z) (s : State) : M W Outcome :=
  s' <- stop start s ;; ret (Stopped s').

(** [*duration > 0 && time.Now().After(endTime)] *)
Definition deadlinePassed (cfg : Config) (endTime : Z) : M W bool :=
  if (0 <? duration cfg)%Z
  then now <- call Now ;; ret (endTime <? now)%Z
  else ret false.

(** [case <-ticker.C] *)
Definition onTick (cfg : Config) (start endTime : Z) (s : State)
  : M W Outcome :=
  expired <- deadlinePassed cfg endTime ;;
  if (expired : bool) then s' <- stop start s ;; ret (Stopped s')
  else
    s1 <- writeBatch (Z.to_nat (batchSizeOf (rate cfg))) s ;;
    s2 <- periodicStats cfg start (flushed s1) ;;
    ret (Running s2).

Definition branch (cfg : Config) (start endTime : Z) (ev : event) (s : State)
  : M W Outcome :=
  match ev with
  | Signal => onSignal start s
  | Tick => onTick cfg start endTime s
  end.

(** The [for { select { ... } }] loop, along the cases that the successive
    select statements take; when they run out the loop is waiting. *)
Fixpoint mainLoop (cfg : Config) (start endTime : Z) (evs : list event)
    (s : State) : M W Outcome :=
  match evs with
  | [] => ret (Running s)
  | ev :: evs' =>
      o <- branch cfg start endTime ev s ;;
      match o with
      | Running s' => mainLoop cfg start endTime evs' s'
      | Stopped s' => ret (Stopped s')
      end
  end.

(** [main], from the opened file on: [content] is what the file holds
    (empty after [os.Create], the old content in append mode).
    [time.NewTicker] panics on an interval that is not positive; an
    interval that the conversion leaves open is treated alike. *)
Definition main (cfg : Config) (content : string) (evs : list event)
  : M W Outcome :=
  match intervalOf (rate cfg) with
  | None => panic
  | Some interval =>
      if (interval <=? 0)%Z then panic
      else
        endTime <- (if (0 <? duration cfg)%Z
                    then now <- call Now ;; ret (now + duration cfg)%Z
                    else ret 0%Z) ;;
        startTime <- call Now ;;
        _seed <- call Now ;;
        mainLoop cfg startTime endTime evs
          {| writer := {| file := content; buf := EmptyString |};
             totalEntries := 0;
             lastReport := startTime;
             stdout := [] |}
  end.

End Loop.

(** ** The channels of the select statement

    [sigChan] and [ticker.C] each buffer one value.  A select statement
    with several cases that can proceed takes one of them, chosen by the
    runtime; the order of the cases in the source gives no preference. *)

Record Chans : Type := {
  sigChan : bool;     (* a signal is waiting *)
  tickerC : bool      (* a tick is waiting *)
}.

(** the case can proceed *)
Definition ready (c : Chans) (ev : event) : bool :=
  match ev with
  | Signal => sigChan c
  | Tick => tickerC c
  end.

Definition receive (c : Chans) (ev : event) : Chans :=
  match ev with
  | Signal => {| sigChan := false; tickerC := tickerC c |}
  | Tick => {| sigChan := sigChan c; tickerC := false |}
  end.

Definition deliver (c : Chans) (ev : event) : Chans :=
  match ev with
  | Signal => {| sigChan := true; tickerC := tickerC c |}
  | Tick => {| sigChan := sigChan c; tickerC := true |}
  end.

(** what happens around the loop: a value arrives on a channel, or the
    select statement takes a case *)
Inductive action : Type :=
| Arrive (ev : event)
| Select (ev : event).

(** a schedule that the runtime allows: a case is taken only when ready *)
Fixpoint admissible (c : Chans) (acts : list action) : bool :=
  match acts with
  | [] => true
  | Arrive ev :: rest => admissible (deliver c ev) rest
  | Select ev :: rest => ready c ev && admissible (receive c ev) rest
  end.

Fixpoint selected (acts : list action) : list event :=
  match acts with
  | [] => []
  | Arrive _ :: rest => selected rest
  | Select ev :: rest => ev :: selected rest
  end.

(** the number of tick cases taken while a signal is waiting *)
Fixpoint ticks_past_signal (c : Chans) (acts : list action) : nat :=
  match acts with
  | [] => O
  | Arrive ev :: rest => ticks_past_signal (deliver c ev) rest
  | Select ev :: rest =>
      ((match ev with Tick => if sigChan c then 1 else 0 | Signal => 0 end)
       + ticks_past_signal (receive c ev) rest)%nat
  end.

(** ** A platform that replays a tape

    The generator returns the numbers of a tape, reduced to the range asked
    for; the clock advances by one at each reading.  It is the platform of
    the concrete runs below. *)

Record Replay : Type := {
  tape : list Z;
  clock : Z
}.

Definition next (w : Replay) : Z * Replay :=
  match tape w with
  | [] => (0%Z, w)
  | x :: rest => (x, {| tape := rest; clock := clock w |})
  end.

Definition replayIntn (n : Z) (w : Replay) : Z * Replay :=
  let (x, w') := next w in ((x mod n)%Z, w').

Definition replayFloat64 (w : Replay) : F64.float64 * Replay :=
  let (x, w') := next w in
  (F64.Fin (Qred (inject_Z (x mod 2 ^ 53) * F64.pow2 (-53))), w').

Definition replayNow (w : Replay) : Z * Replay :=
  (clock w, {| tape := tape w; clock := (clock w + 1)%Z |}).

#[export] Instance replay : Platform Replay := {|
  Intn := replayIntn;
  Float64 := replayFloat64;
  Now := replayNow;
  FormatFloat := fun x => decimal (Qfloor x);
  FormatTime := decimal
|}.

(** a tape whose float draws are all the largest float64 below 1.0, with
    the anomaly draw at one half *)
Definition top_draw : Z := (2 ^ 53 - 1)%Z.

Definition top_tape : Replay :=
  {| tape := [0; 0; 0; 0; 0; 2 ^ 52; 42; top_draw; top_draw; top_draw;
              top_draw]%Z;
     clock := 1700000000 |}.

(** a tape on which the anomaly branch is taken *)
Definition anomaly_tape : Replay :=
  {| tape := [1; 2; 5; 3; 7; 1; top_draw; 9999; 0; 0; 0; 0]%Z;
     clock := 1700000000 |}.

(** the reading that [generateReading] returns on [top_tape] *)
Definition top_reading : SensorReading :=
  {| SensorID := "SNS-pre-0042";
     Timestamp := "1700000000";
     Type_ := "pressure";
     Value := F64.Fin 200;
     Unit := "psi";
     Loc := {| Lat := F64.Fin 45;
               Lon := F64.Fin (-90);
               MilePost := F64.Fin (8796093022207999 # 17592186044416) |};
     PipelineID := "PIPE-TX-001";
     Status := "normal";
     Quality := F64.Fin 1;
     AlertLevel := EmptyString |}.

(** the reading that [generateReading] returns on [anomaly_tape] *)
Definition anomaly_reading : SensorReading :=
  {| SensorID := "SNS-tem-9999";
     Timestamp := "1700000000";
     Type_ := "temperature";
     Value := F64.Fin 216;
     Unit := "fahrenheit";
     Loc := {| Lat := F64.Fin 25;
               Lon := F64.Fin (-105);
               MilePost := F64.Fin 0 |};
     PipelineID := "PIPE-OK-001";
     Status := "maintenance";
     Quality := F64.Fin (7656119366529843 # 9007199254740992);
     AlertLevel := "medium" |}.

(** the constants of [generateReading] and the largest draw, as the
    Standard Library writes binary64 values *)
Definition sf (negative : bool) (m : positive) (e : Z) : spec_float :=
  S754_finite negative m e.

Definition sf_add : spec_float -> spec_float -> spec_float := SFadd 53 1024.
Definition sf_mul : spec_float -> spec_float -> spec_float := SFmul 53 1024.
Definition sf_top : spec_float := sf false 9007199254740991 (-53).

(** a reading whose value is not a number: [json.Marshal] refuses it *)
Definition nan_reading : SensorReading :=
  {| SensorID := "SNS-pre-0000";
     Timestamp := "1700000000";
     Type_ := "pressure";
     Value := F64.NaN;
     Unit := "psi";
     Loc := {| Lat := F64.Fin 25; Lon := F64.Fin (-105);
               MilePost := F64.Fin 0 |};
     PipelineID := "PIPE-TX-001";
     Status := "normal";
     Quality := F64.Fin 1;
     AlertLevel := EmptyString |}.

(** the state of the loop when it starts on a file holding [content] *)
Definition initial (content : string) (startTime : Z) : State :=
  {| writer := {| file := content; buf := EmptyString |};
     totalEntries := 0;
     lastReport := startTime;
     stdout := [] |}.

(** the state of a run that starts on an empty file at time 0 *)
Definition fresh : State := initial EmptyString 0.

Definition state_of (o : Outcome) : State :=
  match o with
  | Running s => s
  | Stopped s => s
  end.

(** the statistics printed last, if any *)
Fixpoint final_stats (prints : list Print) : option Stats :=
  match prints with
  | [] => None
  | [FinalStats st] => Some st
  | _ :: rest => final_stats rest
  end.

Definition line_end : string := String newline EmptyString.

(** a text made of n lines, each ended by a line break and holding no
    other *)
Inductive whole_lines : nat -> string -> Prop :=
| whole_lines_nil : whole_lines O EmptyString
| whole_lines_cons n d t :
    lines d = 0%Z -> whole_lines n t ->
    whole_lines (S n) (d ++ line_end ++ t).

(** the member names of a JSON object *)
Definition keys (j : json) : list string :=
  match j with
  | JObject ms => map fst ms
  | _ => []
  end.

Definition required_keys : list string :=
  [ "sensor_id"; "timestamp"; "type"; "value"; "unit"; "location";
    "pipeline_id"; "status"; "quality_score" ]%string.

(** [s'] is [s] after [writer.Flush()] and [printFinalStats] *)
Definition stopped_from (s s' : State) : Prop :=
  writer s' = Flush (writer s) /\
  totalEntries s' = totalEntries s /\
  exists st, stdout s' = stdout s ++ [FinalStats st] /\
             statTotal st = totalEntries s.

(** a run in which a signal waits while two tick cases are taken *)
Definition late_stop : list action :=
  [ Arrive Signal; Arrive Tick; Select Tick; Arrive Tick; Select Tick;
    Select Signal ].

Definition no_event : Chans := {| sigChan := false; tickerC := false |}.

Definition both_ready : Chans := {| sigChan := true; tickerC := true |}.

Definition two_per_second : Config :=
  {| rate := 2; duration := 0; verbose := false |}.

Definition blank_tape : Replay := {| tape := []; clock := 5 |}.

(** ** Notions for the further properties *)

(** the number that a decimal text denotes *)
Definition read_decimal (s : string) : option Z :=
  option_map (fun d => Z.of_N (N.of_uint d)) (NilZero.uint_of_string s).

Definition digit_char (c : ascii) : bool :=
  let n := nat_of_ascii c in ((48 <=? n) && (n <=? 57))%nat.

(** [%04d] gives four digits that read back as the number *)
Definition four_digits (n : Z) : bool :=
  let s := fmt04d n in
  ((String.length s =? 4)%nat && all_chars digit_char s
   && match read_decimal s with
      | Some m => (m =? n)%Z
      | None => false
      end)%bool.

(** the three letters of a sensor type in a sensor id *)
Definition kind_code (st : SensorType) : string := substring 0 3 (stType st).

(** a text made of n lines, each the data [d] of a record with [Q d]
    followed by a line break *)
Inductive each_line (Q : string -> Prop) : nat -> string -> Prop :=
| each_line_nil : each_line Q O EmptyString
| each_line_cons n d t :
    Q d -> each_line Q n t -> each_line Q (S n) (d ++ line_end ++ t).

(** ** The text of a record

    What the claims about the output expect of a line, written out: the
    compact JSON object of the schema, member by member. *)

(** a byte that encoding/json copies as it is *)
Definition plain_char (c : ascii) : bool :=
  let n := nat_of_ascii c in
  ((32 <=? n) && (n <? 128) && negb (n =? 34) && negb (n =? 92)
   && negb (n =? 60) && negb (n =? 62) && negb (n =? 38))%nat%bool.

(** the characters of a time in RFC 3339: digits and - : . + T Z *)
Definition time_char (c : ascii) : bool :=
  let n := nat_of_ascii c in
  (digit_char c || (n =? 45) || (n =? 58) || (n =? 46) || (n =? 43)
   || (n =? 84) || (n =? 90))%nat%bool.

(** The grammar of a JSON number:
    an optional minus, 0 or a digit from 1 to 9 and digits, an optional
    point and digits, an optional exponent (e or E, an optional sign and
    digits). *)
Fixpoint skip_digits (s : string) : string :=
  match s with
  | String c r => if digit_char c then skip_digits r else s
  | EmptyString => s
  end.

Definition starts_digit (s : string) : bool :=
  match s with
  | String c _ => digit_char c
  | EmptyString => false
  end.

Definition json_exp (s : string) : bool :=
  match s with
  | EmptyString => true
  | String c r =>
      let n := nat_of_ascii c in
      if ((n =? 101) || (n =? 69))%nat%bool then
        let r' := match r with
                  | String d r2 =>
                      if ((nat_of_ascii d =? 43)
                          || (nat_of_ascii d =? 45))%nat%bool
                      then r2 else r
                  | EmptyString => r
                  end in
        starts_digit r' && (skip_digits r' =? EmptyString)%string
      else false
  end.

Definition json_frac (s : string) : bool :=
  match s with
  | String c r =>
      if (nat_of_ascii c =? 46)%nat
      then starts_digit r && json_exp (skip_digits r)
      else json_exp s
  | EmptyString => true
  end.

Definition json_int (s : string) : bool :=
  match s with
  | String c r =>
      if (nat_of_ascii c =? 48)%nat then json_frac r
      else digit_char c && json_frac (skip_digits r)
  | EmptyString => false
  end.

Definition json_number (s : string) : bool :=
  match s with
  | String c r => if (nat_of_ascii c =? 45)%nat then json_int r else json_int s
  | EmptyString => false
  end.

(** What the libraries document of the two formatters: a float is written
    as a JSON number, a time in the characters of RFC 3339. *)
Record TextLaws {W : Type} (P : Platform W) : Prop := {
  FormatFloat_number : forall x, json_number (FormatFloat x) = true;
  FormatTime_chars : forall t, all_chars time_char (FormatTime t) = true
}.

(** a string between quotes, its characters as they are *)
Definition str (s : string) : string :=
  String quote_char (s ++ String quote_char EmptyString).

(** a member of an object: the name between quotes, a colon, the value *)
Definition member (name value : string) : string :=
  (str name ++ ":" ++ value)%string.

(** The compact JSON object of a reading, given the texts of its five
    numbers: the nine members of the schema in the order of the fields,
    the location an object of its own, and [alert_level] last, left out
    when the alert level is empty. *)
Definition expected_text (r : SensorReading)
    (value lat lon mile_post quality : string) : string :=
  ("{" ++ member "sensor_id" (str (SensorID r))
   ++ "," ++ member "timestamp" (str (Timestamp r))
   ++ "," ++ member "type" (str (Type_ r))
   ++ "," ++ member "value" value
   ++ "," ++ member "unit" (str (Unit r))
   ++ "," ++ member "location"
               ("{" ++ member "lat" lat
                ++ "," ++ member "lon" lon
                ++ "," ++ member "mile_post" mile_post ++ "}")
   ++ "," ++ member "pipeline_id" (str (PipelineID r))
   ++ "," ++ member "status" (str (Status r))
   ++ "," ++ member "quality_score" quality
   ++ (if (AlertLevel r =? EmptyString)%string then EmptyString
       else "," ++ member "alert_level" (str (AlertLevel r)))
   ++ "}")%string.

(** the strings of a reading need no escape *)
Definition plain_strings (r : SensorReading) : Prop :=
  all_chars plain_char (SensorID r) = true /\
  all_chars plain_char (Timestamp r) = true /\
  all_chars plain_char (Type_ r) = true /\
  all_chars plain_char (Unit r) = true /\
  all_chars plain_char (PipelineID r) = true /\
  all_chars plain_char (Status r) = true /\
  all_chars plain_char (AlertLevel r) = true.

(** [d] is the line of a reading that [generateReading] returns: what
    [json.Marshal] gives for it, which is the compact JSON object of the
    schema with that reading's strings and numbers. *)
Definition object_text {W : Type} {P : Platform W} (d : string) : Prop :=
  exists (w0 w1 : W) r x la lo mp q,
    generateReading w0 = Some (r, w1) /\
    Value r = F64.Fin x /\ Lat (Loc r) = F64.Fin la /\
    Lon (Loc r) = F64.Fin lo /\ MilePost (Loc r) = F64.Fin mp /\
    Quality r = F64.Fin q /\
    Marshal r = Some d /\
    d = expected_text r (FormatFloat x) (FormatFloat la) (FormatFloat lo)
          (FormatFloat mp) (FormatFloat q) /\
    plain_strings r /\ lines d = 0%Z.

Fixpoint count_final (prints : list Print) : nat :=
  match prints with
  | [] => O
  | FinalStats _ :: rest => S (count_final rest)
  | Progress _ _ :: rest => count_final rest
  end.

Fixpoint count_progress (prints : list Print) : nat :=
  match prints with
  | [] => O
  | Progress _ _ :: rest => S (count_progress rest)
  | FinalStats _ :: rest => count_progress rest
  end.

(** a tape that draws the same sensor type and suffix as [top_tape] and
    other numbers *)
Definition twin_tape : Replay :=
  {| tape := [0; 3; 4; 6; 7; 2 ^ 52; 42; 1; 2; 3; 4]%Z;
     clock := 1700000123 |}.

Definition with_deadline : Config :=
  {| rate := 2; duration := 1000; verbose := false |}.

(** the totals of the progress lines, in the order printed *)
Fixpoint progress_totals (prints : list Print) : list Z :=
  match prints with
  | [] => []
  | Progress total _ :: rest => total :: progress_totals rest
  | FinalStats _ :: rest => progress_totals rest
  end.

Definition with_progress : Config :=
  {| rate := 2; duration := 0; verbose := true |}.

Definition negative_rate : Config :=
  {| rate := -5; duration := 0; verbose := false |}.

(** a text without a line break *)
Definition one_line (d : string) : Prop := lines d = 0%Z.

(** A platform like [replay] with a coarse clock: three seconds pass
    between one reading of the clock and the next. *)
Definition coarseNow (w : Replay) : Z * Replay :=
  (clock w, {| tape := tape w; clock := (clock w + 3 * Second)%Z |}).

Definition coarse : Platform Replay := {|
  Intn := replayIntn;
  Float64 := replayFloat64;
  Now := coarseNow;
  FormatFloat := fun x => decimal (Qfloor x);
  FormatTime := decimal
|}.

(** ** The law of a draw

    [rng.Float64()] of math/rand takes the 63-bit number n that
    [rng.Int63()] returns and computes [float64(n) / (1 << 63)]; when the
    result is 1 it draws again.  With the values of [rng.Int63()] equally
    likely, the chance of an event on the draw is the share of the values
    of n on which it holds, among those on which [Float64] returns. *)
Definition float64_of_int63 (n : Z) : F64.float64 :=
  F64.fdiv (F64.of_int n) (F64.lit (inject_Z (2 ^ 63))).

(** [f == 1]: the draw is made again *)
Definition redrawn (n : Z) : bool :=
  F64.feq (float64_of_int63 n) (F64.lit 1).

(** the values of [rng.Int63()] on which [Float64] returns: all but the
    512 largest *)
Definition draws : Z := 2 ^ 63 - 512.

(** those of them on which the anomaly branch is taken *)
Definition override_draws : Z := 184467440737095505.

(** the number that [float64_of_int63 n] is: both conversions and the
    division rounded *)
Definition draw_value (n : Z) : Q :=
  F64.round64 (F64.round64 (inject_Z n)
               / F64.round64 (inject_Z (2 ^ 63))).
(** ** Facts about the rounding *)

Module F64Facts.
Import F64.
Local Open Scope Q_scope.

Lemma pow2_pos e : 0 < pow2 e.
Proof. apply Qpower_0_lt. reflexivity. Qed.

Lemma pow2_add a b : pow2 (a + b) == pow2 a * pow2 b.
Proof. apply Qpower_plus. discriminate. Qed.

Lemma pow2_le a b : (a <= b)%Z -> pow2 a <= pow2 b.
Proof. intros H. apply Qpower_le_compat_l; [exact H | discriminate]. Qed.

Lemma pow2_lt a b : (a < b)%Z -> pow2 a < pow2 b.
Proof. intros H. apply Qpower_lt_compat_l; [exact H | reflexivity]. Qed.

Lemma pow2_lt_inv a b : pow2 a < pow2 b -> (a < b)%Z.
Proof. intros H. apply (Qpower_lt_compat_l_inv 2); [exact H | reflexivity]. Qed.

Lemma pow2_Z n : (0 <= n)%Z -> pow2 n == inject_Z (2 ^ n).
Proof.
  intros H. unfold pow2. rewrite Zpower_Qpower by exact H. reflexivity.
Qed.

Lemma pow2_succ a : pow2 (a + 1) == 2 * pow2 a.
Proof. rewrite pow2_add. change (pow2 1) with 2. ring. Qed.

Lemma pow2_div x e : x / pow2 e == x * pow2 (- e).
Proof.
  unfold Qdiv. apply Qmult_comp; [reflexivity|].
  unfold pow2. rewrite Qpower_opp. reflexivity.
Qed.

Lemma pow2_cancel x e : x / pow2 e * pow2 e == x.
Proof.
  pose proof (pow2_pos e) as H. field. intros E. rewrite E in H. discriminate.
Qed.

(** *** The binary logarithm *)

Lemma Qlog2_spec x : 0 < x -> pow2 (Qlog2 x) <= x < pow2 (Qlog2 x + 1).
Proof.
  intros Hx. destruct x as [n d].
  assert (Hn : (0 < n)%Z).
  { unfold Qlt in Hx. simpl in Hx. lia. }
  pose proof (Z.log2_spec n Hn) as [Hn1 Hn2].
  pose proof (Z.log2_spec (Zpos d) (eq_refl _)) as [Hd1 Hd2].
  pose proof (Z.log2_nonneg n) as Hna.
  pose proof (Z.log2_nonneg (Zpos d)) as Hda.
  set (a := Z.log2 n) in *. set (b := Z.log2 (Zpos d)) in *.
  assert (Ea : pow2 a == pow2 (a - b) * pow2 b).
  { rewrite <- pow2_add. replace (a - b + b)%Z with a by ring. reflexivity. }
  assert (Hx' : (n # d) * inject_Z (Zpos d) == inject_Z n).
  { rewrite (Qmake_Qdiv n d). field. discriminate. }
  assert (Hdpos : 0 < inject_Z (Zpos d)) by reflexivity.
  rewrite Zle_Qle, <- pow2_Z in Hn1, Hd1 by assumption.
  replace (Z.succ a) with (a + 1)%Z in Hn2 by lia.
  replace (Z.succ b) with (b + 1)%Z in Hd2 by lia.
  rewrite Zlt_Qlt, <- pow2_Z, pow2_succ in Hn2, Hd2 by lia.
  pose proof (pow2_pos (a - b)) as Hk. pose proof (pow2_pos b) as Hb.
  assert (Hup : (n # d) < 2 * pow2 (a - b)).
  { apply (Qmult_lt_r _ _ (inject_Z (Zpos d))); [exact Hdpos|].
    rewrite Hx'. apply (Qlt_le_trans _ (2 * pow2 a)); [exact Hn2|].
    rewrite Ea. rewrite <- Qmult_assoc.
    apply Qmult_le_l; [reflexivity|]. apply Qmult_le_l; assumption. }
  assert (Hlo : pow2 (a - b - 1) <= (n # d)).
  { apply (Qmult_le_r _ _ (inject_Z (Zpos d))); [exact Hdpos|].
    rewrite Hx'. apply (Qle_trans _ (pow2 a)); [|exact Hn1].
    assert (E1 : pow2 (a - b) == 2 * pow2 (a - b - 1)).
    { rewrite <- pow2_succ. replace (a - b - 1 + 1)%Z with (a - b)%Z by ring.
      reflexivity. }
    rewrite Ea, E1.
    apply (Qle_trans _ (pow2 (a - b - 1) * (2 * pow2 b))).
    - apply Qmult_le_l; [apply pow2_pos|]. apply Qlt_le_weak. exact Hd2.
    - apply Qle_lteq. right. ring. }
  unfold Qlog2. cbn [Qnum Qden]. fold a b.
  destruct (Qle_bool (pow2 (a - b)) (n # d)) eqn:E.
  - apply Qle_bool_iff in E. rewrite pow2_succ. split; assumption.
  - split; [exact Hlo|].
    replace (a - b - 1 + 1)%Z with (a - b)%Z by ring.
    apply Qnot_le_lt. intros C. apply Qle_bool_iff in C. congruence.
Qed.

Lemma Qlog2_unique x k : pow2 k <= x < pow2 (k + 1) -> Qlog2 x = k.
Proof.
  intros [H1 H2].
  assert (Hx : 0 < x) by (eapply Qlt_le_trans; [apply pow2_pos | exact H1]).
  destruct (Qlog2_spec x Hx) as [L1 L2].
  assert (Qlog2 x < k + 1)%Z.
  { apply pow2_lt_inv. eapply Qle_lt_trans; eassumption. }
  assert (k < Qlog2 x + 1)%Z.
  { apply pow2_lt_inv. eapply Qle_lt_trans; eassumption. }
  lia.
Qed.

Lemma Qlog2_mono x y : 0 < x -> x <= y -> (Qlog2 x <= Qlog2 y)%Z.
Proof.
  intros Hx Hxy.
  assert (Hy : 0 < y) by (eapply Qlt_le_trans; eassumption).
  destruct (Qlog2_spec x Hx) as [L1 _]. destruct (Qlog2_spec y Hy) as [_ L2].
  assert (Qlog2 x < Qlog2 y + 1)%Z; [|lia].
  apply pow2_lt_inv. eapply Qle_lt_trans; [exact L1|].
  eapply Qle_lt_trans; eassumption.
Qed.

Lemma Qlog2_comp x y : 0 < x -> x == y -> Qlog2 x = Qlog2 y.
Proof.
  intros Hx E. symmetry. apply Qlog2_unique. rewrite <- E.
  apply Qlog2_spec. exact Hx.
Qed.


(** *** Rounding to the nearest integer *)

Lemma rne_bounds x : (Qfloor x <= rne x <= Qfloor x + 1)%Z.
Proof.
  unfold rne. destruct (Qcompare _ _); try destruct (Z.even _); lia.
Qed.

Lemma rne_Z n : rne (inject_Z n) = n.
Proof.
  unfold rne. rewrite Qfloor_Z.
  destruct (Qcompare_spec (inject_Z n - inject_Z n) (1 # 2)) as [E | E | E];
    [exfalso; lra | reflexivity | exfalso; lra].
Qed.

Lemma rne_comp x y : x == y -> rne x = rne y.
Proof.
  intros E. unfold rne. rewrite (Qfloor_comp x y E).
  assert (E' : x - inject_Z (Qfloor y) == y - inject_Z (Qfloor y))
    by (rewrite E; reflexivity).
  rewrite (Qcompare_comp _ _ E' (1 # 2) (1 # 2) (Qeq_refl _)). reflexivity.
Qed.

Lemma rne_mono x y : x <= y -> (rne x <= rne y)%Z.
Proof.
  intros H. pose proof (Qfloor_resp_le x y H) as Hf.
  pose proof (rne_bounds x) as Bx. pose proof (rne_bounds y) as By.
  destruct (Z.eq_dec (Qfloor x) (Qfloor y)) as [E | N]; [|lia].
  unfold rne in *. rewrite E in *.
  destruct (Qcompare_spec (x - inject_Z (Qfloor y)) (1 # 2)) as [X | X | X];
    destruct (Qcompare_spec (y - inject_Z (Qfloor y)) (1 # 2)) as [Y | Y | Y];
    try destruct (Z.even (Qfloor y)); try lia; exfalso; lra.
Qed.

Lemma rne_err x : Qabs (inject_Z (rne x) - x) <= 1 # 2.
Proof.
  pose proof (Qfloor_le x) as L. pose proof (Qlt_floor x) as U.
  rewrite inject_Z_plus in U. change (inject_Z 1) with 1 in U.
  apply Qabs_Qle_condition. unfold rne.
  destruct (Qcompare_spec (x - inject_Z (Qfloor x)) (1 # 2)) as [X | X | X];
    try destruct (Z.even (Qfloor x));
    rewrite ?inject_Z_plus; change (inject_Z 1) with 1; split; lra.
Qed.

Lemma rne_ge n x : inject_Z n <= x -> (n <= rne x)%Z.
Proof. intros H. rewrite <- (rne_Z n). apply rne_mono. exact H. Qed.

Lemma rne_le n x : x <= inject_Z n -> (rne x <= n)%Z.
Proof. intros H. rewrite <- (rne_Z n). apply rne_mono. exact H. Qed.

(** *** Rounding a positive number to the format *)

Lemma fexp_mono x y : 0 < x -> x <= y -> (fexp x <= fexp y)%Z.
Proof.
  intros Hx H. unfold fexp. pose proof (Qlog2_mono x y Hx H). lia.
Qed.

Lemma fexp_comp x y : 0 < x -> x == y -> fexp x = fexp y.
Proof.
  intros Hx E. unfold fexp. rewrite (Qlog2_comp x y Hx E). reflexivity.
Qed.

Lemma round_pos_comp x y : 0 < x -> x == y -> round_pos x == round_pos y.
Proof.
  intros Hx E. unfold round_pos. rewrite (fexp_comp x y Hx E).
  rewrite (rne_comp (x / pow2 (fexp y)) (y / pow2 (fexp y))).
  - reflexivity.
  - rewrite E. reflexivity.
Qed.

Lemma scaled_lt x : 0 < x -> x / pow2 (fexp x) < inject_Z (2 ^ 53).
Proof.
  intros Hx. destruct (Qlog2_spec x Hx) as [_ U].
  apply Qlt_shift_div_r; [apply pow2_pos|].
  rewrite <- pow2_Z, <- pow2_add by lia.
  eapply Qlt_le_trans; [exact U|]. apply pow2_le. unfold fexp. lia.
Qed.

Lemma scaled_ge x :
  0 < x -> (-1074 < fexp x)%Z -> inject_Z (2 ^ 52) <= x / pow2 (fexp x).
Proof.
  intros Hx He. destruct (Qlog2_spec x Hx) as [L _].
  apply Qle_shift_div_l; [apply pow2_pos|].
  rewrite <- pow2_Z, <- pow2_add by lia.
  eapply Qle_trans; [|exact L]. apply pow2_le. unfold fexp in *. lia.
Qed.

Lemma round_pos_nonneg x : 0 < x -> 0 <= round_pos x.
Proof.
  intros Hx. unfold round_pos.
  apply Qmult_le_0_compat; [|apply Qlt_le_weak, pow2_pos].
  change 0 with (inject_Z 0). rewrite <- Zle_Qle. apply rne_ge.
  apply Qle_shift_div_l; [apply pow2_pos|].
  change (inject_Z 0) with 0. lra.
Qed.

Lemma round_pos_upper x : 0 < x -> round_pos x <= pow2 (fexp x + 53).
Proof.
  intros Hx. unfold round_pos. rewrite Z.add_comm, pow2_add.
  apply Qmult_le_compat_r; [|apply Qlt_le_weak, pow2_pos].
  rewrite (pow2_Z 53) by lia. rewrite <- Zle_Qle. apply rne_le.
  apply Qlt_le_weak, scaled_lt. exact Hx.
Qed.

Lemma round_pos_lower x :
  0 < x -> (-1074 < fexp x)%Z -> pow2 (fexp x + 52) <= round_pos x.
Proof.
  intros Hx He. unfold round_pos. rewrite Z.add_comm, pow2_add.
  apply Qmult_le_compat_r; [|apply Qlt_le_weak, pow2_pos].
  rewrite (pow2_Z 52) by lia. rewrite <- Zle_Qle. apply rne_ge.
  apply scaled_ge; assumption.
Qed.

Lemma round_pos_mono x y : 0 < x -> x <= y -> round_pos x <= round_pos y.
Proof.
  intros Hx H.
  assert (Hy : 0 < y) by (eapply Qlt_le_trans; eassumption).
  pose proof (fexp_mono x y Hx H) as He.
  destruct (Z.eq_dec (fexp x) (fexp y)) as [E | N].
  - unfold round_pos. rewrite E.
    apply Qmult_le_compat_r; [|apply Qlt_le_weak, pow2_pos].
    rewrite <- Zle_Qle. apply rne_mono.
    apply Qmult_le_compat_r; [exact H|].
    apply Qlt_le_weak, Qinv_lt_0_compat, pow2_pos.
  - eapply Qle_trans; [apply round_pos_upper; exact Hx|].
    eapply Qle_trans; [|apply round_pos_lower; [exact Hy|]].
    + apply pow2_le. lia.
    + unfold fexp in *. lia.
Qed.

(** *** round64 *)

Lemma round64_pos x : 0 < x -> round64 x == round_pos x.
Proof.
  intros Hx. unfold round64.
  destruct (Qcompare_spec x 0) as [E | E | E]; [exfalso; lra ..|].
  apply Qred_correct.
Qed.

Lemma round64_neg x : x < 0 -> round64 x == - round_pos (- x).
Proof.
  intros Hx. unfold round64.
  destruct (Qcompare_spec x 0) as [E | E | E]; [exfalso; lra | | exfalso; lra].
  apply Qred_correct.
Qed.

Lemma round64_zero x : x == 0 -> round64 x = 0.
Proof.
  intros Hx. unfold round64.
  destruct (Qcompare_spec x 0) as [E | E | E];
    [reflexivity | exfalso; lra | exfalso; lra].
Qed.

Lemma round64_comp x y : x == y -> round64 x == round64 y.
Proof.
  intros E. destruct (Qcompare_spec x 0) as [Z | N | P].
  - rewrite (round64_zero x Z). rewrite E in Z. rewrite (round64_zero y Z).
    reflexivity.
  - rewrite (round64_neg x N). rewrite E in N. rewrite (round64_neg y N).
    apply Qopp_comp. apply round_pos_comp; [lra|]. rewrite E. reflexivity.
  - rewrite (round64_pos x P). rewrite E in P. rewrite (round64_pos y P).
    apply round_pos_comp; [lra | exact E].
Qed.

Lemma round64_Proper : Proper (Qeq ==> Qeq) round64.
Proof. intros x y E. apply round64_comp. exact E. Qed.

#[export] Existing Instance round64_Proper.

Lemma round64_opp x : round64 (- x) == - round64 x.
Proof.
  destruct (Qcompare_spec x 0) as [Z | N | P].
  - rewrite (round64_zero x Z). rewrite round64_zero by lra. reflexivity.
  - rewrite (round64_neg x N). rewrite round64_pos by lra. ring.
  - rewrite (round64_pos x P). rewrite round64_neg by lra.
    apply Qopp_comp. apply round_pos_comp; [lra | ring].
Qed.

Lemma round64_nonneg x : 0 <= x -> 0 <= round64 x.
Proof.
  intros H. destruct (Qcompare_spec x 0) as [Z | N | P].
  - rewrite (round64_zero x Z). lra.
  - lra.
  - rewrite (round64_pos x P). apply round_pos_nonneg. exact P.
Qed.

Lemma round64_nonpos x : x <= 0 -> round64 x <= 0.
Proof.
  intros H. assert (H' : 0 <= - x) by lra.
  pose proof (round64_nonneg _ H') as R. rewrite round64_opp in R. lra.
Qed.

(** Rounding is monotone: the fact that carries every bound below. *)
Lemma round64_mono x y : x <= y -> round64 x <= round64 y.
Proof.
  intros H.
  destruct (Qlt_le_dec 0 x) as [Px | Nx].
  - assert (Py : 0 < y) by lra.
    rewrite (round64_pos x Px), (round64_pos y Py).
    apply round_pos_mono; assumption.
  - destruct (Qlt_le_dec y 0) as [Ny | Py].
    + assert (Nx' : x < 0) by lra.
      rewrite (round64_neg x Nx'), (round64_neg y Ny).
      apply Qopp_le_compat. apply round_pos_mono; lra.
    + pose proof (round64_nonpos x Nx). pose proof (round64_nonneg y Py). lra.
Qed.


(** The values of the format are fixed by the rounding: m * 2^e with fewer
    than 54 bits of m and e no less than the least exponent. *)
Lemma round_pos_dyadic m e :
  (0 < m < 2 ^ 53)%Z -> (-1074 <= e)%Z ->
  round_pos (inject_Z m * pow2 e) == inject_Z m * pow2 e.
Proof.
  intros [Hm0 Hm] He. set (x := inject_Z m * pow2 e).
  assert (Hx : 0 < x).
  { unfold x. apply Qmult_lt_0_compat; [|apply pow2_pos].
    change 0 with (inject_Z 0). rewrite <- Zlt_Qlt. exact Hm0. }
  assert (HE : (fexp x <= e)%Z).
  { destruct (Qlog2_spec x Hx) as [L _].
    assert (Qlog2 x < 53 + e)%Z; [|unfold fexp; lia].
    apply pow2_lt_inv. eapply Qle_lt_trans; [exact L|].
    unfold x. rewrite pow2_add.
    apply Qmult_lt_compat_r; [apply pow2_pos|].
    rewrite (pow2_Z 53) by lia. rewrite <- Zlt_Qlt. exact Hm. }
  assert (Es : x / pow2 (fexp x) == inject_Z (m * 2 ^ (e - fexp x))).
  { rewrite inject_Z_mult, <- pow2_Z by lia.
    unfold x. rewrite pow2_div, <- Qmult_assoc, <- pow2_add.
    replace (e + - fexp x)%Z with (e - fexp x)%Z by ring. reflexivity. }
  unfold round_pos. rewrite (rne_comp _ _ Es), rne_Z, <- Es.
  apply pow2_cancel.
Qed.

Lemma round64_dyadic m e :
  (Z.abs m < 2 ^ 53)%Z -> (-1074 <= e)%Z -> is_f64 (inject_Z m * pow2 e).
Proof.
  intros Hm He. unfold is_f64.
  destruct (Z.lt_trichotomy m 0) as [N | [Z | P]].
  - assert (E : inject_Z m * pow2 e == - (inject_Z (- m) * pow2 e))
      by (rewrite inject_Z_opp; ring).
    rewrite E, round64_opp. apply Qopp_comp.
    assert (Hx : 0 < inject_Z (- m) * pow2 e).
    { apply Qmult_lt_0_compat; [|apply pow2_pos].
      change 0 with (inject_Z 0). rewrite <- Zlt_Qlt. lia. }
    rewrite (round64_pos _ Hx). apply round_pos_dyadic; lia.
  - subst m. rewrite round64_zero; ring.
  - assert (Hx : 0 < inject_Z m * pow2 e).
    { apply Qmult_lt_0_compat; [|apply pow2_pos].
      change 0 with (inject_Z 0). rewrite <- Zlt_Qlt. lia. }
    rewrite (round64_pos _ Hx). apply round_pos_dyadic; lia.
Qed.

Lemma round64_int n :
  (Z.abs n < 2 ^ 53)%Z -> round64 (inject_Z n) == inject_Z n.
Proof.
  intros H. pose proof (round64_dyadic n 0 H ltac:(lia)) as E.
  unfold is_f64 in E. change (pow2 0) with 1 in E.
  rewrite Qmult_1_r in E. exact E.
Qed.

Lemma round64_pow2 e : (-1074 <= e)%Z -> round64 (pow2 e) == pow2 e.
Proof.
  intros H. pose proof (round64_dyadic 1 e ltac:(reflexivity) H) as E.
  unfold is_f64 in E. change (inject_Z 1) with 1 in E.
  rewrite Qmult_1_l in E. exact E.
Qed.

(** A float64 below 1.0 is at most the predecessor of 1.0. *)
Lemma below_one u : is_f64 u -> u < 1 -> u <= pred_one.
Proof.
  intros F H. unfold pred_one.
  destruct (Qlt_le_dec (1 # 2) u) as [Big | Small].
  - assert (L : Qlog2 u = (-1)%Z) by (apply Qlog2_unique; split; [|exact H];
      change (pow2 (-1)) with (1 # 2); lra).
    assert (E : fexp u = (-53)%Z) by (unfold fexp; rewrite L; reflexivity).
    assert (Hu : 0 < u) by lra.
    unfold is_f64 in F. rewrite (round64_pos u Hu) in F.
    unfold round_pos in F. rewrite E in F.
    set (n := rne (u / pow2 (-53))) in *.
    assert (Hn : (n < 2 ^ 53)%Z).
    { rewrite Zlt_Qlt.
      apply (Qmult_lt_r _ _ (pow2 (-53))); [apply pow2_pos|].
      rewrite F. rewrite <- (pow2_Z 53), <- pow2_add by lia.
      exact H. }
    assert (Hn' : (n <= 2 ^ 53 - 1)%Z) by lia.
    rewrite Zle_Qle in Hn'. rewrite <- F.
    apply (Qmult_le_compat_r _ _ (pow2 (-53))) in Hn';
      [|apply Qlt_le_weak, pow2_pos].
    eapply Qle_trans; [exact Hn'|].
    apply Qle_lteq. right. vm_compute. reflexivity.
  - eapply Qle_trans; [exact Small|]. vm_compute. discriminate.
Qed.

(** Relative error of the rounding in the normal range. *)
Lemma round64_err x :
  pow2 (-1022) <= x -> Qabs (round64 x - x) <= x * pow2 (-53).
Proof.
  intros H.
  assert (Hx : 0 < x) by (eapply Qlt_le_trans; [apply pow2_pos | exact H]).
  rewrite (round64_pos x Hx).
  destruct (Qlog2_spec x Hx) as [L U].
  assert (HL : (-1022 <= Qlog2 x)%Z).
  { assert (-1022 < Qlog2 x + 1)%Z; [|lia].
    apply pow2_lt_inv. eapply Qle_lt_trans; eassumption. }
  assert (E : fexp x = (Qlog2 x - 52)%Z) by (unfold fexp; lia).
  pose proof (rne_err (x / pow2 (fexp x))) as R.
  assert (Hp : (1 # 2) * pow2 (fexp x) <= x * pow2 (-53)).
  { apply (Qle_trans _ (pow2 (Qlog2 x) * pow2 (-53))).
    - rewrite <- pow2_add, E. change (1 # 2) with (pow2 (-1)).
      rewrite <- pow2_add. apply pow2_le. lia.
    - apply Qmult_le_compat_r; [exact L | apply Qlt_le_weak, pow2_pos]. }
  pose proof (pow2_cancel x (fexp x)) as Ex.
  pose proof (pow2_pos (fexp x)) as Pp.
  unfold round_pos.
  set (p := pow2 (fexp x)) in *. set (s := x / p) in *. clearbody s p.
  assert (Ed : inject_Z (rne s) * p - x == (inject_Z (rne s) - s) * p).
  { rewrite <- Ex. ring. }
  rewrite Ed, Qabs_Qmult, (Qabs_pos p) by lra.
  apply (Qle_trans _ ((1 # 2) * p)); [|exact Hp].
  apply Qmult_le_compat_r; [exact R | lra].
Qed.

(** *** Operations that stay finite *)

Lemma fround_fin x : Qabs x <= pow2 1023 -> fround x = Fin (round64 x).
Proof.
  intros H. apply Qabs_Qle_condition in H. destruct H as [L U].
  apply round64_mono in L, U.
  rewrite round64_opp in L. rewrite (round64_pow2 1023) in L, U by lia.
  unfold fround. cbv zeta.
  destruct (Qle_bool (pow2 1024) (Qabs (round64 x))) eqn:E; [|reflexivity].
  exfalso. apply Qle_bool_iff in E.
  assert (A : Qabs (round64 x) <= pow2 1023)
    by (apply Qabs_Qle_condition; split; assumption).
  pose proof (pow2_lt 1023 1024 ltac:(lia)). lra.
Qed.


Lemma fadd_fin x y :
  Qabs (x + y) <= pow2 1023 -> fadd (Fin x) (Fin y) = Fin (round64 (x + y)).
Proof. intros H. unfold fadd. apply fround_fin. exact H. Qed.

Lemma fmul_fin x y :
  Qabs (x * y) <= pow2 1023 -> fmul (Fin x) (Fin y) = Fin (round64 (x * y)).
Proof. intros H. unfold fmul. apply fround_fin. exact H. Qed.

Lemma pow2_1023_big : 1000000000000000000000000000000 <= pow2 1023.
Proof.
  apply (Qle_trans _ (pow2 100)); [vm_compute; discriminate|].
  apply pow2_le. lia.
Qed.

Lemma small_abs x b :
  - b <= x -> x <= b -> b <= 1000000000000000000000000000000 ->
  Qabs x <= pow2 1023.
Proof.
  intros L U B. pose proof pow2_1023_big.
  apply Qabs_Qle_condition. split; lra.
Qed.

(** [a + u*c] for a draw u of [0.0, 1.0): the result is finite and lies
    between the values at the two ends of the range of u. *)
Lemma scale_shift a c u :
  - 1000000000000 <= a <= 1000000000000 -> 0 <= c <= 1000000000000 ->
  0 <= u <= pred_one ->
  exists v, fadd (Fin a) (fmul (Fin u) (Fin c)) = Fin v /\
            round64 a <= v <= round64 (a + round64 (pred_one * c)).
Proof.
  intros [A1 A2] [C1 C2] [U1 U2].
  assert (P1 : pred_one < 1) by (vm_compute; reflexivity).
  assert (M1 : 0 <= u * c) by (apply Qmult_le_0_compat; assumption).
  assert (M2 : u * c <= pred_one * c)
    by (apply Qmult_le_compat_r; assumption).
  assert (M3 : pred_one * c <= 1 * c)
    by (apply Qmult_le_compat_r; [lra | assumption]).
  assert (R0 : 0 <= round64 (u * c)) by (apply round64_nonneg; exact M1).
  pose proof (round64_mono _ _ M2) as R1.
  assert (R2 : round64 (pred_one * c) <= 1000000000000).
  { rewrite <- (round64_int 1000000000000) by (vm_compute; reflexivity).
    apply round64_mono. change (inject_Z 1000000000000) with 1000000000000.
    lra. }
  exists (round64 (a + round64 (u * c))). split.
  - rewrite fmul_fin by (apply (small_abs _ 1000000000000); lra).
    apply fadd_fin. apply (small_abs _ 2000000000000); lra.
  - split; apply round64_mono; lra.
Qed.

(** [(u*c)*k] for a draw u of [0.0, 1.0) and k, c not negative *)
Lemma scale_twice c k u :
  0 <= c <= 1000000000000 -> 0 <= k <= 1 -> 0 <= u <= pred_one ->
  exists v, fmul (fmul (Fin u) (Fin c)) (Fin k) = Fin v /\
            0 <= v <= round64 (round64 (pred_one * c) * k) /\
            v <= 1000000000000.
Proof.
  intros [C1 C2] [K1 K2] [U1 U2].
  assert (P1 : pred_one < 1) by (vm_compute; reflexivity).
  assert (M1 : 0 <= u * c) by (apply Qmult_le_0_compat; assumption).
  assert (M2 : u * c <= pred_one * c)
    by (apply Qmult_le_compat_r; assumption).
  assert (M3 : pred_one * c <= 1 * c)
    by (apply Qmult_le_compat_r; [lra | assumption]).
  assert (R0 : 0 <= round64 (u * c)) by (apply round64_nonneg; exact M1).
  pose proof (round64_mono _ _ M2) as R1.
  assert (R2 : round64 (pred_one * c) <= 1000000000000).
  { rewrite <- (round64_int 1000000000000) by (vm_compute; reflexivity).
    apply round64_mono. change (inject_Z 1000000000000) with 1000000000000.
    lra. }
  assert (N1 : 0 <= round64 (u * c) * k)
    by (apply Qmult_le_0_compat; assumption).
  assert (N2 : round64 (u * c) * k <= round64 (pred_one * c) * k)
    by (apply Qmult_le_compat_r; assumption).
  assert (N3 : round64 (pred_one * c) * k <= round64 (pred_one * c) * 1).
  { rewrite (Qmult_comm _ k), (Qmult_comm _ 1).
    apply Qmult_le_compat_r; [assumption | lra]. }
  exists (round64 (round64 (u * c) * k)). split.
  - rewrite fmul_fin by (apply (small_abs _ 1000000000000); lra).
    apply fmul_fin. apply (small_abs _ 1000000000000); lra.
  - split; [split|].
    + apply round64_nonneg; exact N1.
    + apply round64_mono; exact N2.
    + rewrite <- (round64_int 1000000000000) by (vm_compute; reflexivity).
      apply round64_mono. change (inject_Z 1000000000000) with 1000000000000.
      lra.
Qed.

End F64Facts.

(** ** Facts about the synthesizer *)

Section SynthesizerFacts.

Import F64 F64Facts.

Context {W : Type} {P : Platform W} (L : PlatformLaws P).

Lemma unit_draw_range u : unit_draw u -> (0 <= u <= pred_one)%Q.
Proof.
  intros (F & Lo & Hi). split; [exact Lo|]. apply below_one; assumption.
Qed.

Lemma Float64_draw w :
  exists u w', Float64 w = (Fin u, w') /\ unit_draw u.
Proof.
  destruct (Float64_range P L w) as (u & E & U).
  exists u, (snd (Float64 w)). split; [|exact U].
  rewrite <- E. apply surjective_pairing.
Qed.

Lemma index_ok {A : Type} (l : list A) i (w : W) :
  (0 <= i < len l)%Z -> exists a, In a l /\ index l i w = Some (a, w).
Proof.
  intros [Lo Hi]. unfold index, len in *.
  destruct (Z.ltb_spec i 0) as [C | _]; [lia|].
  destruct (nth_error l (Z.to_nat i)) as [a |] eqn:E.
  - exists a. split; [eapply nth_error_In; exact E | reflexivity].
  - exfalso. apply nth_error_None in E. lia.
Qed.

(** [l[rng.Intn(len(l))]] on a list that is not empty *)
Lemma pick_ok {A : Type} (l : list A) (w : W) :
  (0 < len l)%Z ->
  exists i a w', Intn (len l) w = (i, w') /\ In a l /\
                 index l i w' = Some (a, w').
Proof.
  intros Hl. pose proof (Intn_range P L (len l) w Hl) as R.
  destruct (Intn (len l) w) as [i w'] eqn:E. cbn [fst] in R.
  destruct (index_ok l i w' R) as (a & I & X).
  exists i, a, w'. repeat split; assumption.
Qed.

Lemma anomaly_spec st value alert (w : W) :
  exists t w1, Float64 w = (Fin t, w1) /\ unit_draw t /\
    ((flt (Fin t) (lit (2 # 100)) = true /\
      exists v w2, Float64 w1 = (Fin v, w2) /\ unit_draw v /\
        anomaly st value alert w =
          Some ((anomalyValue st (Fin v),
                 if (alert =? EmptyString)%string then "medium"%string
                 else alert), w2))
     \/
     (flt (Fin t) (lit (2 # 100)) = false /\
      anomaly st value alert w = Some ((value, alert), w1))).
Proof.
  destruct (Float64_draw w) as (t & w1 & Et & Ut).
  exists t, w1. split; [exact Et|]. split; [exact Ut|].
  unfold anomaly, bind, call, ret. rewrite Et.
  destruct (flt (Fin t) (lit (2 # 100))) eqn:C.
  - left. split; [reflexivity|].
    destruct (Float64_draw w1) as (v & w2 & Ev & Uv).
    exists v, w2. split; [exact Ev|]. split; [exact Uv|].
    rewrite Ev. reflexivity.
  - right. split; reflexivity.
Qed.

Lemma anomaly_total st value alert (w : W) :
  exists va w', anomaly st value alert w = Some (va, w').
Proof.
  destruct (anomaly_spec st value alert w)
    as (t & w1 & _ & _ & [(_ & v & w2 & _ & _ & E) | (_ & E)]);
    rewrite E; eauto.
Qed.

Lemma prefix_ok st (w : W) :
  In st sensorTypes ->
  slice_to (stType st) 3 w = Some (substring 0 3 (stType st), w).
Proof.
  intros I. unfold sensorTypes in I. cbn [In] in I.
  repeat (destruct I as [I | I]; [subst st; reflexivity|]).
  contradiction.
Qed.

(** The reading that [generateReading] builds, along the draws it makes. *)
Lemma generateReading_spec (w : W) :
  exists st pipeline status alert u w1 va w2 n now q lat lon mp w',
    In st sensorTypes /\ In pipeline pipelineIDs /\ In status statuses /\
    In alert alertLevels /\ unit_draw u /\
    anomaly st (baseValue st (Fin u)) alert w1 = Some (va, w2) /\
    (0 <= n < 10000)%Z /\
    unit_draw q /\ unit_draw lat /\ unit_draw lon /\ unit_draw mp /\
    generateReading w =
      Some ({| SensorID := sensorID (substring 0 3 (stType st)) n;
               Timestamp := FormatTime now;
               Type_ := stType st;
               Value := fst va;
               Unit := stUnit st;
               PipelineID := pipeline;
               Status := status;
               Quality := fadd (lit (85 # 100)) (fmul (Fin q) (lit (15 # 100)));
               AlertLevel := snd va;
               Loc := {| Lat := fadd (lit 25) (fmul (Fin lat) (lit 20));
                         Lon := fadd (lit (-105)) (fmul (Fin lon) (lit 15));
                         MilePost := fmul (Fin mp) (lit 500) |} |}, w').
Proof.
  destruct (pick_ok sensorTypes w ltac:(reflexivity))
    as (i & st & wa & E1 & I1 & X1).
  destruct (pick_ok pipelineIDs wa ltac:(reflexivity))
    as (j & pipeline & wb & E2 & I2 & X2).
  destruct (pick_ok statuses wb ltac:(reflexivity))
    as (k & status & wc & E3 & I3 & X3).
  destruct (pick_ok alertLevels wc ltac:(reflexivity))
    as (a & alert & wd & E4 & I4 & X4).
  destruct (Float64_draw wd) as (u & w1 & E5 & U5).
  destruct (anomaly_total st (baseValue st (Fin u)) alert w1)
    as (va & w2 & E6).
  pose proof (Intn_range P L 10000 w2 ltac:(reflexivity)) as R7.
  destruct (Intn 10000 w2) as [n we] eqn:E7. cbn [fst] in R7.
  destruct (Now we) as [now wf] eqn:E8.
  destruct (Float64_draw wf) as (q & wg & E9 & U9).
  destruct (Float64_draw wg) as (lat & wh & E10 & U10).
  destruct (Float64_draw wh) as (lon & wi & E11 & U11).
  destruct (Float64_draw wi) as (mp & w' & E12 & U12).
  exists st, pipeline, status, alert, u, w1, va, w2, n, now, q, lat, lon, mp.
  exists w'.
  repeat (split; [assumption|]).
  unfold generateReading, bind, call, ret.
  rewrite E1, X1, E2, X2, E3, X3, E4, X4, E5, E6, (prefix_ok st w2 I1).
  rewrite E7, E8, E9, E10, E11, E12. reflexivity.
Qed.


End SynthesizerFacts.

(** ** The ranges of the profiles of the registry *)

Section ProfileRanges.

Import F64 F64Facts.

Local Open Scope Q_scope.

(** the float64 of the literal 0.2 *)
Lemma lit_fifth : lit (2 # 10) = Fin (round64 (2 # 10)).
Proof. vm_compute. reflexivity. Qed.

(** What the bounds need of a profile, checked on each of the eight: the
    ends are values of the format, and the computation at the largest draw
    stays within the range. *)
Lemma profile_facts st :
  In st sensorTypes ->
  exists lo hi rng top,
    stMin st = Fin lo /\ stMax st = Fin hi /\
    fsub (stMax st) (stMin st) = Fin rng /\
    fmul (stMax st) (lit (12 # 10)) = Fin top /\
    (- 1000000000000 <= lo <= 1000000000000) /\
    (0 <= rng <= 1000000000000) /\ (0 < hi <= 1000000000000) /\
    lo <= round64 lo /\
    round64 (lo + round64 (pred_one * rng)) <= hi /\
    hi <= round64 hi /\
    round64 (hi + round64 (round64 (pred_one * hi) * round64 (2 # 10)))
      <= hi * (12 # 10) /\
    hi * (12 # 10) <= top.
Proof.
  intros I. unfold sensorTypes in I. cbn [In] in I.
  destruct I as [I | [I | [I | [I | [I | [I | [I | [I | []]]]]]]]]; subst st;
    cbn [stMin stMax].
  - exists 200, 1500, 1300, 1800.
    repeat split; try (vm_compute; reflexivity); vm_compute; discriminate.
  - exists (-20), 180, 200, 216.
    repeat split; try (vm_compute; reflexivity); vm_compute; discriminate.
  - exists 0, 50000, 50000, 60000.
    repeat split; try (vm_compute; reflexivity); vm_compute; discriminate.
  - exists 0, 25, 25, 30.
    repeat split; try (vm_compute; reflexivity); vm_compute; discriminate.
  - exists 0, 50, 50, 60.
    repeat split; try (vm_compute; reflexivity); vm_compute; discriminate.
  - exists 0, 100, 100, 120.
    repeat split; try (vm_compute; reflexivity); vm_compute; discriminate.
  - exists 0, 1000, 1000, 1200.
    repeat split; try (vm_compute; reflexivity); vm_compute; discriminate.
  - exists 0, 100, 100, 120.
    repeat split; try (vm_compute; reflexivity); vm_compute; discriminate.
Qed.

(** The base value lies within the range of the profile. *)
Lemma base_bounds st u :
  In st sensorTypes -> unit_draw u ->
  exists lo hi v, stMin st = Fin lo /\ stMax st = Fin hi /\
    baseValue st (Fin u) = Fin v /\ lo <= v <= hi.
Proof.
  intros I U. apply unit_draw_range in U.
  destruct (profile_facts st I)
    as (lo & hi & rng & top & E1 & E2 & E3 & _ & B1 & B2 & B3 & F1 & F2 & _).
  destruct (scale_shift lo rng u B1 B2 U) as (v & E & V1 & V2).
  exists lo, hi, v. unfold baseValue. rewrite E3, E1, E.
  repeat split; try assumption; lra.
Qed.

(** The value of an anomaly lies between the maximum of the profile and
    1.2 times that maximum, be the product taken exactly or in float64. *)
Lemma anomaly_bounds st v :
  In st sensorTypes -> unit_draw v ->
  exists hi x, stMax st = Fin hi /\ anomalyValue st (Fin v) = Fin x /\
    hi <= x <= hi * (12 # 10) /\
    fle (Fin x) (fmul (stMax st) (lit (12 # 10))) = true.
Proof.
  intros I U. apply unit_draw_range in U.
  destruct (profile_facts st I)
    as (lo & hi & rng & top & _ & E2 & _ & E4 & _ & _ & B3 & _ & _ & F3 & F4
        & F5).
  assert (K : 0 <= round64 (2 # 10) <= 1)
    by (split; vm_compute; discriminate).
  destruct (scale_twice hi (round64 (2 # 10)) v ltac:(lra) K U)
    as (y & E & [Y1 Y2] & Y3).
  exists hi, (round64 (hi + y)). unfold anomalyValue.
  rewrite E2, lit_fifth, E.
  rewrite fadd_fin by (apply (small_abs _ 2000000000000); lra).
  assert (X1 : hi <= round64 (hi + y))
    by (eapply Qle_trans; [exact F3|]; apply round64_mono; lra).
  assert (X2 : round64 (hi + y) <= hi * (12 # 10))
    by (eapply Qle_trans; [|exact F4]; apply round64_mono; lra).
  split; [reflexivity|]. split; [reflexivity|].
  split; [split; assumption|].
  rewrite <- E2, E4. unfold fle. apply Qle_bool_iff. lra.
Qed.

End ProfileRanges.

(** ** The replay platform keeps the laws *)

Section ReplayFacts.

Import F64 F64Facts.

Lemma digits_chars d :
  all_chars number_char (NilEmpty.string_of_uint d) = true.
Proof. induction d; cbn [NilEmpty.string_of_uint all_chars]; auto. Qed.

Lemma decimal_chars n : all_chars number_char (decimal n) = true.
Proof.
  unfold decimal, NilZero.string_of_uint.
  destruct (N.to_uint (Z.to_N n)); try apply digits_chars. reflexivity.
Qed.

Lemma replay_unit x :
  unit_draw (Qred (inject_Z (x mod 2 ^ 53) * pow2 (-53))).
Proof.
  pose proof (Z.mod_pos_bound x (2 ^ 53) ltac:(reflexivity)) as [Lo Hi].
  set (m := (x mod 2 ^ 53)%Z) in *.
  assert (E : (Qred (inject_Z m * pow2 (-53)) == inject_Z m * pow2 (-53))%Q)
    by apply Qred_correct.
  pose proof (pow2_pos (-53)) as Pp.
  unfold unit_draw, is_f64. rewrite E. split; [|split].
  - apply round64_dyadic; lia.
  - apply Qmult_le_0_compat; [|apply Qlt_le_weak; exact Pp].
    change 0%Q with (inject_Z 0). rewrite <- Zle_Qle. exact Lo.
  - apply (Qlt_le_trans _ (inject_Z (2 ^ 53) * pow2 (-53))).
    + apply Qmult_lt_compat_r; [exact Pp|]. rewrite <- Zlt_Qlt. exact Hi.
    + vm_compute. discriminate.
Qed.

Lemma replay_laws : PlatformLaws replay.
Proof.
  split.
  - intros n w Hn. cbn [Intn replay]. unfold replayIntn.
    destruct (next w) as [x w']. cbn [fst]. apply Z.mod_pos_bound. exact Hn.
  - intros w. cbn [Float64 replay]. unfold replayFloat64.
    destruct (next w) as [x w']. cbn [fst].
    eexists. split; [reflexivity | apply replay_unit].
  - intros x. cbn [FormatFloat replay]. apply decimal_chars.
Qed.

End ReplayFacts.

(** ** The properties of the synthesizer *)

Section SynthesizerProperties.

Import F64 F64Facts.

Context {W : Type} {P : Platform W}.

(** C2.  For every reading that [generateReading] returns, with st the
    profile selected from the registry and t the draw of the anomaly
    statement: when the anomaly branch is not taken the value lies within
    [st.Min, st.Max]; when it is taken the value lies within
    [st.Max, st.Max * 1.2], the product being the exact one or the float64
    one. *)
Theorem value_within_range (L : PlatformLaws P) (w : W) :
  exists r w' st alert u w1 w2 t w1' lo hi x,
    generateReading w = Some (r, w') /\
    In st sensorTypes /\ Type_ r = stType st /\ unit_draw u /\
    anomaly st (baseValue st (Fin u)) alert w1
      = Some ((Value r, AlertLevel r), w2) /\
    Float64 w1 = (Fin t, w1') /\
    stMin st = Fin lo /\ stMax st = Fin hi /\ Value r = Fin x /\
    (flt (Fin t) (lit (2 # 100)) = false -> (lo <= x <= hi)%Q) /\
    (flt (Fin t) (lit (2 # 100)) = true ->
       (hi <= x <= hi * (12 # 10))%Q /\
       fle (Value r) (fmul (stMax st) (lit (12 # 10))) = true).
Proof.
  destruct (generateReading_spec L w)
    as (st & pipeline & status & alert & u & w1 & va & w2 & n & now & q
        & lat & lon & mp & w' & I1 & _ & _ & I4 & Uu & Ea & _ & _ & _ & _
        & _ & E).
  destruct (base_bounds st u I1 Uu) as (lo & hi & b & El & Eh & Eb & Bb).
  destruct (anomaly_spec L st (baseValue st (Fin u)) alert w1)
    as (t & w1' & Et & Ut & [(C & v & w3 & Ev & Uv & E') | (C & E')]);
    rewrite E' in Ea; injection Ea as Eva Ew; subst va w2.
  - destruct (anomaly_bounds st v I1 Uv) as (hi' & x & Eh' & Ex & Bx & Fx).
    rewrite Eh in Eh'. injection Eh' as Eh'. subst hi'.
    eexists _, w', st, alert, u, w1, w3, t, w1', lo, hi, x.
    split; [exact E|]. cbn [Value AlertLevel Type_ fst snd].
    repeat (split; [first [assumption | reflexivity]|]).
    split; [congruence | intros _; split; [exact Bx|]].
    rewrite Ex. exact Fx.
  - eexists _, w', st, alert, u, w1, w1', t, w1', lo, hi, b.
    split; [exact E|]. cbn [Value AlertLevel Type_ fst snd].
    repeat (split; [first [assumption | reflexivity]|]).
    split; [intros _; exact Bb | congruence].
Qed.

(** C7 as amended.  For every reading that [generateReading] returns, the
    quality score is a float64 that is at least 0.85 and at most 1.0. *)
Theorem quality_within_closed_range (L : PlatformLaws P) (w : W) :
  exists r w' q,
    generateReading w = Some (r, w') /\ Quality r = Fin q /\
    fle (lit (85 # 100)) (Quality r) = true /\
    fle (Quality r) (lit 1) = true.
Proof.
  destruct (generateReading_spec L w)
    as (st & pipeline & status & alert & u & w1 & va & w2 & n & now & q
        & lat & lon & mp & w' & _ & _ & _ & _ & _ & _ & _ & Uq & _ & _
        & _ & E).
  apply unit_draw_range in Uq.
  assert (E1 : lit (85 # 100) = Fin (round64 (85 # 100)))
    by (vm_compute; reflexivity).
  assert (E2 : lit (15 # 100) = Fin (round64 (15 # 100)))
    by (vm_compute; reflexivity).
  assert (E3 : lit 1 = Fin 1) by (vm_compute; reflexivity).
  destruct (scale_shift (round64 (85 # 100)) (round64 (15 # 100)) q)
    as (v & Ev & V1 & V2);
    [split; vm_compute; discriminate | split; vm_compute; discriminate
     | exact Uq |].
  eexists _, w', v. split; [exact E|]. cbn [Quality].
  rewrite E1, E2, E3, Ev. split; [reflexivity|].
  unfold fle. split; apply Qle_bool_iff.
  - eapply Qle_trans; [|exact V1]. vm_compute. discriminate.
  - eapply Qle_trans; [exact V2|]. vm_compute. discriminate.
Qed.

(** C10 as amended.  For every reading that [generateReading] returns, the
    latitude is a float64 within [25.0, 45.0], the longitude within
    [-105.0, -90.0], both ends included, and the mile post within
    [0, 500), 500 excluded. *)
Theorem location_within_range (L : PlatformLaws P) (w : W) :
  exists r w' la lo mp,
    generateReading w = Some (r, w') /\
    Lat (Loc r) = Fin la /\ Lon (Loc r) = Fin lo /\
    MilePost (Loc r) = Fin mp /\
    (25 <= la <= 45)%Q /\ (- 105 <= lo <= - 90)%Q /\
    (0 <= mp)%Q /\ (mp < 500)%Q.
Proof.
  destruct (generateReading_spec L w)
    as (st & pipeline & status & alert & u & w1 & va & w2 & n & now & q
        & lat & lon & mp & w' & _ & _ & _ & _ & _ & _ & _ & _ & Ula & Ulo
        & Ump & E).
  apply unit_draw_range in Ula, Ulo, Ump.
  assert (E1 : lit 25 = Fin 25) by (vm_compute; reflexivity).
  assert (E2 : lit 20 = Fin 20) by (vm_compute; reflexivity).
  assert (E3 : lit (-105) = Fin (-105)) by (vm_compute; reflexivity).
  assert (E4 : lit 15 = Fin 15) by (vm_compute; reflexivity).
  assert (E5 : lit 500 = Fin 500) by (vm_compute; reflexivity).
  destruct (scale_shift 25 20 lat) as (a & Ea & A1 & A2);
    [split; discriminate | split; discriminate | exact Ula |].
  destruct (scale_shift (-105) 15 lon) as (b & Eb & B1 & B2);
    [split; discriminate | split; discriminate | exact Ulo |].
  destruct (scale_shift 0 500 mp) as (c & Ec & C1 & C2);
    [split; discriminate | split; discriminate | exact Ump |].
  eexists _, w', a, b, (round64 (mp * 500)).
  split; [exact E|]. cbn [Loc Lat Lon MilePost].
  rewrite E1, E2, E3, E4, E5, Ea, Eb.
  destruct Ump as [M1 M2].
  assert (N1 : (0 <= mp * 500)%Q)
    by (apply Qmult_le_0_compat; [exact M1 | discriminate]).
  assert (N2 : (mp * 500 <= pred_one * 500)%Q)
    by (apply Qmult_le_compat_r; [exact M2 | discriminate]).
  assert (N3 : (pred_one * 500 <= 500)%Q) by (vm_compute; discriminate).
  rewrite fmul_fin by (apply (small_abs _ 500); lra).
  repeat (split; [reflexivity|]).
  split; [|split; [|split]].
  - split.
    + eapply Qle_trans; [|exact A1]. vm_compute. discriminate.
    + eapply Qle_trans; [exact A2|]. vm_compute. discriminate.
  - split.
    + eapply Qle_trans; [|exact B1]. vm_compute. discriminate.
    + eapply Qle_trans; [exact B2|]. vm_compute. discriminate.
  - apply round64_nonneg. exact N1.
  - eapply Qle_lt_trans; [apply round64_mono; exact N2|].
    vm_compute. reflexivity.
Qed.

End SynthesizerProperties.

(** ** Concrete runs of the synthesizer *)

Section SynthesizerRuns.

Import F64 F64Facts.

Lemma top_tape_run :
  generateReading top_tape
  = Some (top_reading, {| tape := []; clock := 1700000001 |}).
Proof. vm_compute. reflexivity. Qed.

Lemma anomaly_tape_run :
  generateReading anomaly_tape
  = Some (anomaly_reading, {| tape := []; clock := 1700000001 |}).
Proof. vm_compute. reflexivity. Qed.

(** The same computations in the Standard Library's specification of
    binary64: 0.85 + u*0.15, 25.0 + u*20 and -105.0 + u*15 at the largest
    u below 1.0 are 1.0, 45.0 and -90.0 there too. *)
Lemma spec_float_agrees :
  of_spec (sf false 7656119366529843 (-53)) = lit (85 # 100) /\
  of_spec (sf false 5404319552844595 (-55)) = lit (15 # 100) /\
  of_spec sf_top = Fin (Qred pred_one) /\
  of_spec (sf_add (sf false 7656119366529843 (-53))
             (sf_mul sf_top (sf false 5404319552844595 (-55)))) = Fin 1 /\
  of_spec (sf_add (sf false 25 0) (sf_mul sf_top (sf false 20 0))) = Fin 45 /\
  of_spec (sf_add (sf true 105 0) (sf_mul sf_top (sf false 15 0)))
    = Fin (-90) /\
  of_spec (sf_mul sf_top (sf false 500 0)) = MilePost (Loc top_reading).
Proof. repeat split; vm_compute; reflexivity. Qed.

(** The upper ends are reached as well when the multiplication and the
    addition are fused into one rounding, which the language allows. *)
Lemma fused_agrees :
  (round64 (round64 (85 # 100) + pred_one * round64 (15 # 100)) == 1)%Q /\
  (round64 (25 + pred_one * 20) == 45)%Q /\
  (round64 (- 105 + pred_one * 15) == - 90)%Q.
Proof. repeat split; vm_compute; reflexivity. Qed.

Lemma value_within_range_witness :
  PlatformLaws replay /\
  exists r w' st alert u w1 w2 t w1' lo hi x,
    generateReading anomaly_tape = Some (r, w') /\
    In st sensorTypes /\ Type_ r = stType st /\ unit_draw u /\
    anomaly st (baseValue st (Fin u)) alert w1
      = Some ((Value r, AlertLevel r), w2) /\
    Float64 w1 = (Fin t, w1') /\
    stMin st = Fin lo /\ stMax st = Fin hi /\ Value r = Fin x /\
    (flt (Fin t) (lit (2 # 100)) = false -> (lo <= x <= hi)%Q) /\
    (flt (Fin t) (lit (2 # 100)) = true ->
       (hi <= x <= hi * (12 # 10))%Q /\
       fle (Value r) (fmul (stMax st) (lit (12 # 10))) = true).
Proof.
  split; [exact replay_laws|].
  exact (value_within_range replay_laws anomaly_tape).
Defined.

(** C7, the counterexample.  When the quality draw is the largest float64
    below 1.0, the quality score is 1.0: 0.85 + u*0.15 rounds up to it.
    The score is then not strictly less than 1.0. *)
Lemma quality_reaches_one :
  PlatformLaws replay /\
  exists r w',
    generateReading top_tape = Some (r, w') /\
    Quality r = Fin 1 /\ flt (Quality r) (lit 1) = false.
Proof.
  split; [exact replay_laws|].
  eexists. eexists. split; [exact top_tape_run|].
  split; vm_compute; reflexivity.
Qed.

Lemma quality_within_closed_range_witness :
  PlatformLaws replay /\
  exists r w' q,
    generateReading top_tape = Some (r, w') /\ Quality r = Fin q /\
    fle (lit (85 # 100)) (Quality r) = true /\
    fle (Quality r) (lit 1) = true.
Proof.
  split; [exact replay_laws|].
  exact (quality_within_closed_range replay_laws top_tape).
Defined.

(** C10, the counterexample.  When the draws of the location are the
    largest float64 below 1.0, the latitude is 45.0 and the longitude is
    -90.0: the upper ends of the two ranges are reached. *)
Lemma location_reaches_upper_ends :
  PlatformLaws replay /\
  exists r w',
    generateReading top_tape = Some (r, w') /\
    Lat (Loc r) = Fin 45 /\ flt (Lat (Loc r)) (lit 45) = false /\
    Lon (Loc r) = Fin (-90) /\ flt (Lon (Loc r)) (lit (-90)) = false.
Proof.
  split; [exact replay_laws|].
  eexists. eexists. split; [exact top_tape_run|].
  repeat split; vm_compute; reflexivity.
Qed.

Lemma location_within_range_witness :
  PlatformLaws replay /\
  exists r w' la lo mp,
    generateReading top_tape = Some (r, w') /\
    Lat (Loc r) = Fin la /\ Lon (Loc r) = Fin lo /\
    MilePost (Loc r) = Fin mp /\
    (25 <= la <= 45)%Q /\ (- 105 <= lo <= - 90)%Q /\
    (0 <= mp)%Q /\ (mp < 500)%Q.
Proof.
  split; [exact replay_laws|].
  exact (location_within_range replay_laws top_tape).
Defined.

End SynthesizerRuns.

(** ** The batch size and the tick interval *)

Section Pacing.

Import F64 F64Facts.

Local Open Scope Q_scope.

Lemma Qfloor_eq v k :
  inject_Z k <= v -> v < inject_Z (k + 1) -> Qfloor v = k.
Proof.
  intros Lo Hi. pose proof (Qfloor_le v) as F1. pose proof (Qlt_floor v) as F2.
  assert (A : (Qfloor v < k + 1)%Z) by (rewrite Zlt_Qlt; lra).
  assert (B : (k < Qfloor v + 1)%Z) by (rewrite Zlt_Qlt; lra).
  lia.
Qed.

Lemma to_int64_fin x :
  0 <= x -> x < inject_Z (2 ^ 63) -> to_int64 (Fin x) = Some (Qfloor x).
Proof.
  intros Lo Hi. unfold to_int64, Qtrunc.
  assert (E : Qle_bool 0 x = true) by (apply Qle_bool_iff; exact Lo).
  rewrite E.
  assert (A : (0 <= Qfloor x)%Z).
  { change 0%Z with (Qfloor 0). apply Qfloor_resp_le. exact Lo. }
  assert (B : (Qfloor x < 2 ^ 63)%Z).
  { rewrite Zlt_Qlt. pose proof (Qfloor_le x). lra. }
  destruct (Z.leb_spec (- 2 ^ 63) (Qfloor x)); [|lia].
  destruct (Z.ltb_spec (Qfloor x) (2 ^ 63)); [reflexivity | lia].
Qed.

Lemma of_int_fin n :
  (Z.abs n <= 2 ^ 64)%Z -> of_int n = Fin (round64 (inject_Z n)).
Proof.
  intros H. unfold of_int. apply fround_fin.
  apply (small_abs _ (inject_Z (2 ^ 64))); [| |vm_compute; discriminate].
  - rewrite <- inject_Z_opp, <- Zle_Qle. lia.
  - rewrite <- Zle_Qle. lia.
Qed.

Lemma fdiv_fin x y :
  0 < y -> Qabs (x / y) <= pow2 1023 ->
  fdiv (Fin x) (Fin y) = Fin (round64 (x / y)).
Proof.
  intros Hy H. unfold fdiv.
  destruct (Qeq_bool y 0) eqn:E.
  - apply Qeq_bool_iff in E. exfalso. lra.
  - apply fround_fin. exact H.
Qed.

(** The float64 quotient of a count of nanoseconds by a rate below 2^53
    has the integer quotient as its whole part: the rounding of the
    division never reaches the next integer. *)
Lemma round_quotient_floor (N D : Z) :
  (0 <= N <= 10 ^ 12)%Z -> (0 < D < 2 ^ 53)%Z ->
  Qfloor (round64 (inject_Z N / inject_Z D)) = (N / D)%Z.
Proof.
  intros [N0 N1] [D0 D1].
  assert (HD : 0 < inject_Z D)
    by (change 0 with (inject_Z 0); rewrite <- Zlt_Qlt; exact D0).
  pose proof (Z.mul_div_le N D D0) as K1.
  pose proof (Z.mul_succ_div_gt N D D0) as K2.
  assert (K0 : (0 <= N / D)%Z) by (apply Z.div_pos; lia).
  assert (K3 : (N / D <= N)%Z) by (apply Z.div_le_upper_bound; nia).
  set (k := (N / D)%Z) in *.
  set (r := / inject_Z D).
  assert (Hr : 0 < r) by (apply Qinv_lt_0_compat; exact HD).
  assert (Er : inject_Z D * r == 1)
    by (unfold r; apply Qmult_inv_r; intros C; rewrite C in HD; discriminate).
  set (q := inject_Z N / inject_Z D).
  assert (Eq_ : q == inject_Z N * r) by reflexivity.
  assert (Q1 : inject_Z k <= q).
  { rewrite Eq_. rewrite Zle_Qle, inject_Z_mult in K1.
    apply (Qmult_le_compat_r _ _ r) in K1; [|lra].
    assert (X : inject_Z D * inject_Z k * r == inject_Z k * (inject_Z D * r))
      by ring.
    rewrite X, Er, Qmult_1_r in K1. exact K1. }
  assert (Q2 : q + r <= inject_Z (k + 1)).
  { assert (K2' : (N + 1 <= D * (k + 1))%Z) by lia.
    rewrite Zle_Qle, inject_Z_mult, inject_Z_plus in K2'.
    apply (Qmult_le_compat_r _ _ r) in K2'; [|lra].
    change (inject_Z 1) with 1 in K2'.
    assert (X : inject_Z D * inject_Z (k + 1) * r
                == inject_Z (k + 1) * (inject_Z D * r)) by ring.
    assert (Y : (inject_Z N + 1) * r == inject_Z N * r + r) by ring.
    rewrite X, Er, Qmult_1_r, Y in K2'.
    rewrite Eq_. exact K2'. }
  apply Qfloor_eq.
  - rewrite <- (round64_int k) by lia. apply round64_mono. exact Q1.
  - destruct (Z.eq_dec N 0) as [Z | NZ].
    + assert (q == 0) by (rewrite Eq_, Z; ring).
      rewrite round64_zero by assumption.
      change 0 with (inject_Z 0). rewrite <- Zlt_Qlt. lia.
    + assert (Big : pow2 (-1022) <= q).
      { apply (Qle_trans _ (pow2 (-53))); [apply pow2_le; lia|].
        rewrite Eq_.
        assert (1 <= inject_Z N)
          by (change 1 with (inject_Z 1); rewrite <- Zle_Qle; lia).
        assert (Dq : inject_Z D <= inject_Z (2 ^ 53))
          by (rewrite <- Zle_Qle; lia).
        assert (pow2 (-53) <= r).
        { apply (Qmult_le_compat_r _ _ (r * pow2 (-53))) in Dq;
            [|apply Qlt_le_weak, Qmult_lt_0_compat; [exact Hr|apply pow2_pos]].
          rewrite Qmult_assoc, Er, Qmult_1_l in Dq.
          assert (E53 : inject_Z (2 ^ 53) * (r * pow2 (-53)) == r).
          { rewrite <- (pow2_Z 53) by lia.
            rewrite (Qmult_comm r), Qmult_assoc, <- pow2_add.
            change (pow2 (53 + -53)) with 1. ring. }
          rewrite E53 in Dq. exact Dq. }
        apply (Qle_trans _ (1 * r)); [lra|].
        apply Qmult_le_compat_r; [assumption | lra]. }
      pose proof (round64_err q Big) as Err.
      apply Qabs_Qle_condition in Err. destruct Err as [_ Err].
      assert (Small : q * pow2 (-53) < r).
      { rewrite Eq_.
        assert (S1 : inject_Z N * pow2 (-53) < 1).
        { apply (Qle_lt_trans _ (inject_Z (10 ^ 12) * pow2 (-53))).
          - apply Qmult_le_compat_r; [|apply Qlt_le_weak, pow2_pos].
            rewrite <- Zle_Qle. exact N1.
          - vm_compute. reflexivity. }
        apply (Qmult_lt_compat_r _ _ r Hr) in S1.
        rewrite Qmult_1_l in S1.
        eapply Qle_lt_trans; [|exact S1]. apply Qle_lteq. right. ring. }
      lra.
Qed.

(** Against a divisor of 2^53 or more the quotient is below one. *)
Lemma round_quotient_zero (N : Z) (d : Q) :
  (0 <= N <= 10 ^ 12)%Z -> inject_Z (2 ^ 53) <= d ->
  Qfloor (round64 (inject_Z N / d)) = 0%Z.
Proof.
  intros [N0 N1] Hd.
  assert (Pd : 0 < d).
  { eapply Qlt_le_trans; [|exact Hd]. reflexivity. }
  assert (N0' : 0 <= inject_Z N)
    by (change 0 with (inject_Z 0); rewrite <- Zle_Qle; exact N0).
  assert (N1' : inject_Z N <= inject_Z (10 ^ 12))
    by (rewrite <- Zle_Qle; exact N1).
  assert (Q0 : 0 <= inject_Z N / d).
  { apply Qle_shift_div_l; [exact Pd | lra]. }
  assert (Q1 : inject_Z N / d <= pow2 (-13)).
  { apply Qle_shift_div_r; [exact Pd|].
    apply (Qle_trans _ (pow2 (-13) * inject_Z (2 ^ 53))).
    - eapply Qle_trans; [exact N1'|]. vm_compute. discriminate.
    - apply Qmult_le_l; [apply pow2_pos | exact Hd]. }
  apply Qfloor_eq.
  - change (inject_Z 0) with 0. apply round64_nonneg. exact Q0.
  - apply (Qle_lt_trans _ (round64 (pow2 (-13)))).
    + apply round64_mono. exact Q1.
    + rewrite round64_pow2 by lia. vm_compute. reflexivity.
Qed.

Lemma batchSizeOf_spec R : batchSizeOf R = Z.max 1 (Z.min 1000 R).
Proof.
  unfold batchSizeOf. cbv zeta.
  destruct (Z.ltb_spec R 1000);
    [destruct (Z.ltb_spec R 1) | destruct (Z.ltb_spec 1000 1)]; lia.
Qed.

(** The interval, in nanoseconds, is the whole part of 10^9 * batchSize / R. *)
Lemma intervalOf_floor R :
  (0 < R < 2 ^ 63)%Z ->
  intervalOf R = Some (Second * batchSizeOf R / R)%Z.
Proof.
  intros [R0 R1].
  pose proof (batchSizeOf_spec R) as Eb.
  set (b := batchSizeOf R) in *.
  assert (B : (1 <= b <= 1000)%Z) by lia.
  assert (Pr : 1 <= round64 (inject_Z R)).
  { rewrite <- (round64_int 1) by reflexivity. apply round64_mono.
    rewrite <- Zle_Qle. lia. }
  assert (Ur : round64 (inject_Z R) <= inject_Z (2 ^ 63)).
  { rewrite <- (pow2_Z 63) by lia. rewrite <- (round64_pow2 63) by lia.
    apply round64_mono. rewrite (pow2_Z 63) by lia. rewrite <- Zle_Qle. lia. }
  assert (EN : round64 (round64 (inject_Z Second) * round64 (inject_Z b))
               == inject_Z (Second * b)).
  { rewrite (round64_int Second) by reflexivity.
    rewrite (round64_int b) by lia.
    rewrite <- inject_Z_mult. apply round64_int. unfold Second. lia. }
  assert (NB : (0 <= Second * b <= 10 ^ 12)%Z) by (unfold Second; lia).
  assert (N0 : 0 <= inject_Z (Second * b))
    by (change 0 with (inject_Z 0); rewrite <- Zle_Qle; lia).
  assert (N1 : inject_Z (Second * b) <= 1000000000000)
    by (change 1000000000000 with (inject_Z (10 ^ 12)); rewrite <- Zle_Qle;
        lia).
  set (d := round64 (inject_Z R)) in *.
  assert (Qd : 0 <= inject_Z (Second * b) / d <= 1000000000000).
  { split.
    - apply Qle_shift_div_l; lra.
    - apply Qle_shift_div_r; [lra|].
      apply (Qle_trans _ (1000000000000 * 1)); [lra|].
      apply Qmult_le_l; [reflexivity | exact Pr]. }
  unfold intervalOf. fold b.
  rewrite (of_int_fin Second) by (vm_compute; discriminate).
  rewrite (of_int_fin b) by lia.
  rewrite (of_int_fin R) by lia. fold d.
  rewrite fmul_fin.
  2:{ rewrite (round64_int Second) by reflexivity.
      rewrite (round64_int b) by lia. rewrite <- inject_Z_mult.
      apply (small_abs _ 1000000000000); [lra | lra | discriminate]. }
  rewrite fdiv_fin; [|lra|].
  2:{ rewrite EN.
      apply (small_abs _ 1000000000000); [lra | lra | discriminate]. }
  assert (V : 0 <= round64 (inject_Z (Second * b) / d) <= 1000000000000).
  { split.
    - apply round64_nonneg. lra.
    - rewrite <- (round64_int (10 ^ 12)) by reflexivity.
      apply round64_mono. change (inject_Z (10 ^ 12)) with 1000000000000. lra. }
  rewrite to_int64_fin.
  - f_equal. rewrite EN.
    destruct (Z.lt_ge_cases R (2 ^ 53)) as [Small | Big].
    + unfold d. rewrite (round64_int R) by lia.
      apply round_quotient_floor; lia.
    + rewrite round_quotient_zero.
      * symmetry. apply Z.div_small. lia.
      * exact NB.
      * unfold d. rewrite <- (pow2_Z 53) by lia.
        rewrite <- (round64_pow2 53) by lia. apply round64_mono.
        rewrite (pow2_Z 53) by lia. rewrite <- Zle_Qle. exact Big.
  - rewrite EN. lra.
  - rewrite EN. eapply Qle_lt_trans; [apply V|]. reflexivity.
Qed.

(** C3.  For every positive target rate R (an int): the batch size is
    min(1000, R), at least 1; the tick interval is
    1 second * batchSize / R, the float64 division losing nothing: in the
    nanoseconds of a [time.Duration] it is the whole part of the real
    quotient, exact when R divides 10^9 * batchSize; and R = 50000 gives a
    batch of 1000 and an interval of 20ms. *)
Theorem pacing (R : Z) :
  (0 < R < 2 ^ 63)%Z ->
  batchSizeOf R = Z.max 1 (Z.min 1000 R) /\
  (exists i, intervalOf R = Some i /\
     inject_Z i <= inject_Z (Second * batchSizeOf R) / inject_Z R
       < inject_Z i + 1 /\
     ((R | Second * batchSizeOf R)%Z ->
        inject_Z i == inject_Z (Second * batchSizeOf R) / inject_Z R)) /\
  (R = 50000%Z ->
     batchSizeOf R = 1000%Z /\ intervalOf R = Some (20 * 1000000)%Z).
Proof.
  intros HR. split; [apply batchSizeOf_spec|]. split.
  - exists (Second * batchSizeOf R / R)%Z.
    split; [apply intervalOf_floor; exact HR|].
    rewrite Zdiv_Qdiv. split; [split|].
    + apply Qfloor_le.
    + pose proof (Qlt_floor (inject_Z (Second * batchSizeOf R) / inject_Z R))
        as F.
      rewrite inject_Z_plus in F. exact F.
    + intros [c Ec]. rewrite Ec.
      assert (HR' : ~ inject_Z R == 0).
      { intros C. change 0 with (inject_Z 0) in C.
        apply -> inject_Z_injective in C. lia. }
      rewrite inject_Z_mult.
      assert (E : inject_Z c * inject_Z R / inject_Z R == inject_Z c)
        by (field; exact HR').
      rewrite (Qfloor_comp _ _ E), Qfloor_Z, E. reflexivity.
  - intros ->. split; [reflexivity|].
    rewrite intervalOf_floor by lia. reflexivity.
Qed.

Lemma pacing_witness :
  (0 < 50000 < 2 ^ 63)%Z /\
  batchSizeOf 50000 = 1000%Z /\ intervalOf 50000 = Some (20 * 1000000)%Z.
Proof.
  split; [lia|].
  exact (proj2 (proj2 (pacing 50000 ltac:(lia))) eq_refl).
Defined.

End Pacing.

(** ** The draw of the anomaly statement *)

Section Draws.

Import F64 F64Facts.

Lemma top_exact : round64 (inject_Z (2 ^ 63)) == inject_Z (2 ^ 63).
Proof.
  rewrite <- (pow2_Z 63) by lia. apply round64_pow2. lia.
Qed.

Lemma draw_value_mono n m :
  (n <= m)%Z -> draw_value n <= draw_value m.
Proof.
  intros H. unfold draw_value. apply round64_mono.
  pose proof top_exact as D.
  set (d := round64 (inject_Z (2 ^ 63))) in *. clearbody d.
  assert (Pd : 0 < d) by (rewrite D; reflexivity).
  unfold Qdiv. apply Qmult_le_compat_r.
  - apply round64_mono. rewrite <- Zle_Qle. exact H.
  - apply Qinv_le_0_compat. lra.
Qed.

(** The value of the draw at the numbers where the two tests turn. *)
Lemma draw_points :
  draw_value 0 == 0 /\
  draw_value (override_draws - 1) < round64 (2 # 100) /\
  round64 (2 # 100) <= draw_value override_draws /\
  draw_value (draws - 1) < 1 /\
  draw_value draws == 1 /\
  draw_value (2 ^ 63) == 1.
Proof.
  split; [vm_compute; reflexivity|].
  split; [vm_compute; reflexivity|].
  split; [vm_compute; discriminate|].
  split; [vm_compute; reflexivity|].
  split; vm_compute; reflexivity.
Qed.

Lemma draw_value_range n :
  (0 <= n <= 2 ^ 63)%Z -> 0 <= draw_value n <= 1.
Proof.
  intros [Lo Hi]. destruct draw_points as (Z0 & _ & _ & _ & _ & T1).
  pose proof (draw_value_mono 0 n Lo) as A.
  pose proof (draw_value_mono n (2 ^ 63) Hi) as B.
  rewrite Z0 in A. rewrite T1 in B. split; assumption.
Qed.

Lemma draw_value_eq n :
  (0 <= n <= 2 ^ 63)%Z -> float64_of_int63 n = Fin (draw_value n).
Proof.
  intros [Lo Hi]. unfold float64_of_int63, draw_value.
  rewrite (of_int_fin n) by lia.
  assert (El : lit (inject_Z (2 ^ 63)) = Fin (round64 (inject_Z (2 ^ 63)))).
  { unfold lit. apply fround_fin.
    apply (small_abs _ (inject_Z (2 ^ 63))); vm_compute; discriminate. }
  rewrite El. pose proof top_exact as D.
  assert (X0 : 0 <= round64 (inject_Z n)).
  { apply round64_nonneg. change 0 with (inject_Z 0).
    rewrite <- Zle_Qle. exact Lo. }
  assert (X1 : round64 (inject_Z n) <= inject_Z (2 ^ 63)).
  { rewrite <- D. apply round64_mono. rewrite <- Zle_Qle. exact Hi. }
  set (x := round64 (inject_Z n)) in *.
  set (d := round64 (inject_Z (2 ^ 63))) in *. clearbody x d.
  assert (Pd : 0 < d) by (rewrite D; reflexivity).
  apply fdiv_fin; [exact Pd|].
  apply (small_abs _ 1); [| |discriminate].
  - apply (Qle_trans _ 0); [discriminate|].
    apply Qle_shift_div_l; [exact Pd | lra].
  - apply Qle_shift_div_r; [exact Pd | lra].
Qed.

(** The test of the anomaly statement on a float64 t is the test
    t < 0.02 on the numbers: no float64 lies between 0.02 and its float64. *)
Lemma threshold_exact t :
  is_f64 t -> (flt (Fin t) (lit (2 # 100)) = true <-> t < 2 # 100).
Proof.
  intros Ft.
  assert (E : lit (2 # 100) = Fin (round64 (2 # 100)))
    by (vm_compute; reflexivity).
  rewrite E. unfold flt.
  assert (C0 : 2 # 100 <= round64 (2 # 100)) by (vm_compute; discriminate).
  pose proof (round64_mono (2 # 100) t) as M. unfold is_f64 in Ft.
  set (c := round64 (2 # 100)) in *. clearbody c. split.
  - intros H. apply Qnot_le_lt. intros G.
    specialize (M G). rewrite Ft in M. apply Qle_bool_iff in M.
    rewrite M in H. discriminate H.
  - intros H. destruct (Qle_bool c t) eqn:G; [|reflexivity].
    apply Qle_bool_iff in G. exfalso. lra.
Qed.

(** The law of the draw: on which values of [rng.Int63()] the draw is made
    again, and on which the anomaly branch is taken. *)
Lemma draw_law n :
  (0 <= n < 2 ^ 63)%Z ->
  exists t, float64_of_int63 n = Fin t /\ 0 <= t <= 1 /\
    (redrawn n = true <-> (draws <= n)%Z) /\
    (flt (Fin t) (lit (2 # 100)) = true <-> (n < override_draws)%Z).
Proof.
  intros [Lo Hi]. exists (draw_value n).
  assert (Ev : float64_of_int63 n = Fin (draw_value n))
    by (apply draw_value_eq; lia).
  split; [exact Ev|]. split; [apply draw_value_range; lia|].
  destruct draw_points as (_ & P1 & P2 & P3 & P4 & P5).
  assert (E1 : lit 1 = Fin 1) by (vm_compute; reflexivity).
  assert (E2 : lit (2 # 100) = Fin (round64 (2 # 100)))
    by (vm_compute; reflexivity).
  unfold redrawn. rewrite Ev, E1, E2. unfold feq, flt.
  set (c := round64 (2 # 100)) in *. clearbody c. split; split.
  - intros H. apply Qeq_bool_iff in H.
    destruct (Z.le_gt_cases draws n) as [G | G]; [exact G|].
    pose proof (draw_value_mono n (draws - 1) ltac:(lia)) as M. lra.
  - intros G. apply Qeq_bool_iff.
    pose proof (draw_value_mono draws n G) as M1.
    pose proof (draw_value_mono n (2 ^ 63) ltac:(lia)) as M2. lra.
  - intros H. destruct (Z.lt_ge_cases n override_draws) as [G | G];
      [exact G|].
    pose proof (draw_value_mono override_draws n G) as M.
    assert (Q : Qle_bool c (draw_value n) = true)
      by (apply Qle_bool_iff; lra).
    rewrite Q in H. discriminate H.
  - intros G.
    pose proof (draw_value_mono n (override_draws - 1) ltac:(lia)) as M.
    destruct (Qle_bool c (draw_value n)) eqn:Q; [|reflexivity].
    apply Qle_bool_iff in Q. exfalso. lra.
Qed.

End Draws.

Section AnomalyOverride.

Import F64 F64Facts.

Context {W : Type} {P : Platform W}.


End AnomalyOverride.


(** ** Facts about strings, the encoder and the writer *)

Section TextFacts.

Lemma append_nil_r s : (s ++ EmptyString)%string = s.
Proof.
  induction s as [| c s IH]; cbn; [reflexivity | rewrite IH; reflexivity].
Qed.

Lemma append_assoc s1 s2 s3 :
  ((s1 ++ s2) ++ s3)%string = (s1 ++ s2 ++ s3)%string.
Proof.
  induction s1 as [| c s1 IH]; cbn; [reflexivity | rewrite IH; reflexivity].
Qed.

Lemma length_zero s : String.length s = O -> s = EmptyString.
Proof. destruct s; [reflexivity | discriminate]. Qed.

Lemma substring_split k s :
  (k <= String.length s)%nat ->
  (substring 0 k s ++ substring k (String.length s - k) s)%string = s.
Proof.
  revert s. induction k as [| k IH]; intros s H.
  - cbn [substring]. destruct s; cbn [substring String.length append].
    + reflexivity.
    + rewrite Nat.sub_0_r. f_equal.
      clear H.
      induction s as [| c s IHs]; cbn; [reflexivity | f_equal; exact IHs].
  - destruct s as [| c s]; cbn [String.length] in *; [lia|].
    cbn [substring append Nat.sub]. f_equal. apply IH. lia.
Qed.

Lemma lines_app s1 s2 : lines (s1 ++ s2) = (lines s1 + lines s2)%Z.
Proof.
  unfold lines. induction s1 as [| c s1 IH]; cbn [append count_char].
  - reflexivity.
  - rewrite IH. lia.
Qed.

Lemma lines_line_end : lines line_end = 1%Z.
Proof. reflexivity. Qed.

Lemma escape_char_one_line c : lines (escape_char c) = 0%Z.
Proof.
  destruct c as [[] [] [] [] [] [] [] []]; vm_compute; reflexivity.
Qed.

Lemma lines_cons c s :
  lines (String c s) = ((if Ascii.eqb newline c then 1 else 0) + lines s)%Z.
Proof. reflexivity. Qed.

Lemma high_byte_no_line c s :
  (128 <= nat_of_ascii c)%nat -> lines (String c s) = lines s.
Proof.
  intros H. rewrite lines_cons.
  destruct (Ascii.eqb_spec newline c) as [<- | _]; [|reflexivity].
  exfalso. vm_compute in H. lia.
Qed.

Lemma second_ok_high c c2 :
  second_ok c c2 = true -> (128 <= nat_of_ascii c2)%nat.
Proof.
  unfold second_ok, second_range. cbv zeta. intros H.
  apply andb_prop in H. destruct H as [H _]. apply Nat.leb_le in H.
  repeat match type of H with
         | context [if ?b then _ else _] => destruct b
         end; cbn [fst] in H; lia.
Qed.

Lemma continuation_high c :
  continuation c = true -> (128 <= nat_of_ascii c)%nat.
Proof.
  unfold continuation. cbv zeta. intros H.
  apply andb_prop in H. destruct H as [H _]. apply Nat.leb_le in H. exact H.
Qed.

Lemma three_bytes_one_line c c2 c3 :
  (128 <= nat_of_ascii c)%nat -> (128 <= nat_of_ascii c2)%nat ->
  (128 <= nat_of_ascii c3)%nat -> lines (three_bytes c c2 c3) = 0%Z.
Proof.
  intros H1 H2 H3. unfold three_bytes.
  assert (E : lines (String c (String c2 (String c3 EmptyString))) = 0%Z)
    by (rewrite !high_byte_no_line by assumption; reflexivity).
  destruct (_ && _)%bool; [|exact E].
  destruct (_ =? 168)%nat; [reflexivity|].
  destruct (_ =? 169)%nat; [reflexivity | exact E].
Qed.

Lemma escape_one_line s : lines (escape s) = 0%Z.
Proof.
  assert (H : forall n s, (String.length s <= n)%nat ->
                          lines (escape s) = 0%Z).
  { clear s. induction n as [| n IH]; intros s Hs.
    - destruct s; [reflexivity | cbn in Hs; lia].
    - destruct s as [| c r1]; [reflexivity|].
      cbn [String.length] in Hs. cbn [escape].
      destruct (Nat.ltb_spec (nat_of_ascii c) 128) as [Low | High].
      + rewrite lines_app, escape_char_one_line, IH by lia. reflexivity.
      + assert (Bad : lines (replacement ++ escape r1) = 0%Z)
          by (rewrite lines_app, IH by lia; reflexivity).
        cbv zeta.
        destruct (utf8_size c) as [| [| [| [| [| k]]]]]; try exact Bad.
        * destruct r1 as [| c2 r2]; [exact Bad|].
          cbn [String.length] in Hs.
          destruct (second_ok c c2) eqn:S2; [|exact Bad].
          apply second_ok_high in S2.
          rewrite !high_byte_no_line by assumption. apply IH. lia.
        * destruct r1 as [| c2 [| c3 r3]]; try exact Bad.
          cbn [String.length] in Hs.
          destruct (second_ok c c2) eqn:S2; [|exact Bad].
          destruct (continuation c3) eqn:S3; [|exact Bad].
          cbn [andb]. apply second_ok_high in S2.
          apply continuation_high in S3.
          rewrite lines_app, three_bytes_one_line, IH by (assumption || lia).
          reflexivity.
        * destruct r1 as [| c2 [| c3 [| c4 r4]]]; try exact Bad.
          cbn [String.length] in Hs.
          destruct (second_ok c c2) eqn:S2; [|exact Bad].
          destruct (continuation c3) eqn:S3; [|exact Bad].
          destruct (continuation c4) eqn:S4; [|exact Bad].
          cbn [andb]. apply second_ok_high in S2.
          apply continuation_high in S3, S4.
          rewrite !high_byte_no_line by assumption. apply IH. lia. }
  apply (H (String.length s)). lia.
Qed.

Lemma quote_one_line s : lines (quote s) = 0%Z.
Proof.
  unfold quote.
  change (lines (String quote_char (escape s ++ String quote_char EmptyString)))
    with ((if Ascii.eqb newline quote_char then 1 else 0)
          + lines (escape s ++ String quote_char EmptyString))%Z.
  rewrite lines_app, escape_one_line. reflexivity.
Qed.

Lemma number_one_line s : all_chars number_char s = true -> lines s = 0%Z.
Proof.
  unfold lines. induction s as [| c s IH]; cbn [all_chars count_char];
    [reflexivity|].
  intros H. apply andb_prop in H. destruct H as [Hc Hs].
  rewrite (IH Hs).
  destruct (Ascii.eqb_spec newline c) as [<- | _]; [discriminate | reflexivity].
Qed.

(** ** The writer keeps what it is given, in order *)

Lemma written_Flush b : written (Flush b) = written b.
Proof. unfold written, Flush. cbn. rewrite append_nil_r. reflexivity. Qed.

Lemma written_WriteByte c b :
  written (WriteByte c b) = (written b ++ String c EmptyString)%string.
Proof.
  unfold WriteByte, written.
  destruct (Available b <=? 0)%Z; cbn [file buf Flush append];
    rewrite <- ?append_assoc, ?append_nil_r; reflexivity.
Qed.

Lemma written_Write p b : written (Write p b) = (written b ++ p)%string.
Proof.
  unfold Write, written. cbv zeta.
  destruct (Z.leb_spec (Z.of_nat (String.length p)) (Available b))
    as [Fit | Over].
  - cbn [file buf]. rewrite append_assoc. reflexivity.
  - destruct (Z.eqb_spec (Buffered b) 0) as [Empty | Some_].
    + cbn [file buf]. unfold Buffered in Empty.
      rewrite (length_zero (buf b)) by lia. cbn.
      rewrite !append_nil_r. reflexivity.
    + set (k := Z.to_nat (Available b)).
      assert (Hk : (k <= String.length p)%nat) by (unfold k; lia).
      pose proof (substring_split k p Hk) as Sp.
      destruct (Z.of_nat (String.length (substring k (String.length p - k) p))
                <=? bufSize)%Z; cbn [file buf];
        rewrite ?append_nil_r, ?append_assoc, Sp; reflexivity.
Qed.

End TextFacts.

Section EncoderFacts.

Context {W : Type} {P : Platform W} (L : PlatformLaws P).

(** The encoding of a value holds no line break. *)
Lemma encode_one_line : forall j, lines (encode j) = 0%Z.
Proof.
  fix IH 1. intros [s | x | ms].
  - apply quote_one_line.
  - cbn [encode]. apply number_one_line. apply (FormatFloat_chars P L).
  - cbn [encode].
    set (members := fix members (first : bool) (ms : list (string * json))
                      : string :=
           match ms with
           | [] => EmptyString
           | (k, v) :: ms' =>
               ((if first then EmptyString else ",") ++ quote k ++ ":"
                ++ encode v ++ members false ms')%string
           end).
    assert (M : forall first, lines (members first ms) = 0%Z).
    { revert ms. fix IHms 1. intros [| [k v] ms'] first; cbn [members].
      - reflexivity.
      - rewrite !lines_app, quote_one_line, (IH v), (IHms ms' false).
        destruct first; reflexivity. }
    rewrite !lines_app, M. reflexivity.
Qed.

Lemma Marshal_one_line r text : Marshal r = Some text -> lines text = 0%Z.
Proof.
  unfold Marshal. destruct (toJSON r) as [j |]; cbn [option_map];
    [|discriminate].
  intros E. injection E as <-. apply encode_one_line.
Qed.

End EncoderFacts.

(** ** Strings that need no escape, and numbers *)

Section PlainText.

Lemma some_pair_eq {A B : Type} (a a' : A) (b b' : B) :
  Some (a, b) = Some (a', b') -> a = a' /\ b = b'.
Proof. intros H. injection H as -> ->. split; reflexivity. Qed.

(** Every number of [0, 10000) is written by [%04d] as four digits that
    read back as the number; checked on each of them. *)
Lemma four_digits_ok n : (0 <= n < 10000)%Z -> four_digits n = true.
Proof.
  intros H.
  assert (A : forallb four_digits
                (map Z.of_nat (seq 0 (Z.to_nat 10000))) = true)
    by (vm_compute; reflexivity).
  rewrite forallb_forall in A. apply A.
  apply in_map_iff. exists (Z.to_nat n). split; [lia|].
  apply in_seq. lia.
Qed.

Lemma all_chars_impl (p q : ascii -> bool) s :
  (forall c, p c = true -> q c = true) ->
  all_chars p s = true -> all_chars q s = true.
Proof.
  intros I. induction s as [| c s IH]; cbn [all_chars]; [reflexivity|].
  intros H. apply andb_prop in H. destruct H as [Hc Hs].
  rewrite (I c Hc), (IH Hs). reflexivity.
Qed.

Lemma all_chars_app p s1 s2 :
  all_chars p (s1 ++ s2) = (all_chars p s1 && all_chars p s2)%bool.
Proof.
  induction s1 as [| c s1 IH]; cbn [append all_chars]; [reflexivity|].
  rewrite IH, andb_assoc. reflexivity.
Qed.

Lemma digit_plain c : digit_char c = true -> plain_char c = true.
Proof.
  destruct c as [[] [] [] [] [] [] [] []]; intros H;
    first [reflexivity | discriminate H].
Qed.

Lemma time_plain c : time_char c = true -> plain_char c = true.
Proof.
  destruct c as [[] [] [] [] [] [] [] []]; intros H;
    first [reflexivity | discriminate H].
Qed.

Lemma escape_char_plain c :
  plain_char c = true ->
  (nat_of_ascii c <? 128)%nat = true /\
  escape_char c = String c EmptyString.
Proof.
  destruct c as [[] [] [] [] [] [] [] []]; intros H;
    first [discriminate H | split; reflexivity].
Qed.

(** A string of plain characters is copied as it is. *)
Lemma escape_plain s : all_chars plain_char s = true -> escape s = s.
Proof.
  induction s as [| c s IH]; cbn [all_chars escape]; [reflexivity|].
  intros H. apply andb_prop in H. destruct H as [Hc Hs].
  destruct (escape_char_plain c Hc) as [Lo E].
  rewrite Lo, E, (IH Hs). reflexivity.
Qed.

Lemma quote_plain s : all_chars plain_char s = true -> quote s = str s.
Proof.
  intros H. unfold quote, str. rewrite (escape_plain s H). reflexivity.
Qed.

(** The strings of the registries are plain. *)
Lemma registry_plain :
  (forall st, In st sensorTypes ->
     all_chars plain_char (stType st) = true /\
     all_chars plain_char (stUnit st) = true /\
     all_chars plain_char (substring 0 3 (stType st)) = true) /\
  (forall p, In p pipelineIDs -> all_chars plain_char p = true) /\
  (forall s, In s statuses -> all_chars plain_char s = true) /\
  (forall a, In a alertLevels -> all_chars plain_char a = true).
Proof.
  split; [|split; [|split]].
  - intros st I. unfold sensorTypes in I. cbn [In] in I.
    repeat (destruct I as [I | I];
            [subst st; repeat split; reflexivity|]).
    contradiction.
  - intros p I. unfold pipelineIDs in I. cbn [In] in I.
    repeat (destruct I as [I | I]; [subst p; reflexivity|]). contradiction.
  - intros s I. unfold statuses in I. cbn [In] in I.
    repeat (destruct I as [I | I]; [subst s; reflexivity|]). contradiction.
  - intros a I. unfold alertLevels in I. cbn [In] in I.
    repeat (destruct I as [I | I]; [subst a; reflexivity|]). contradiction.
Qed.

Lemma sensorID_plain st n :
  In st sensorTypes -> (0 <= n < 10000)%Z ->
  all_chars plain_char (sensorID (substring 0 3 (stType st)) n) = true.
Proof.
  intros I Hn. destruct registry_plain as (R & _).
  destruct (R st I) as (_ & _ & Hp).
  pose proof (four_digits_ok n Hn) as F. unfold four_digits in F.
  cbv zeta in F. apply andb_prop in F. destruct F as [F _].
  apply andb_prop in F. destruct F as [_ F].
  apply (all_chars_impl _ _ _ digit_plain) in F.
  unfold sensorID. rewrite !all_chars_app, Hp, F. reflexivity.
Qed.

(** The decimal text of a natural number is a JSON number. *)
Lemma skip_digits_uint d :
  skip_digits (NilEmpty.string_of_uint d) = EmptyString.
Proof. induction d; cbn [NilEmpty.string_of_uint skip_digits]; auto. Qed.

Lemma json_int_nzhead d :
  match Decimal.nzhead d with
  | Decimal.Nil => True
  | d' => json_int (NilEmpty.string_of_uint d') = true
  end.
Proof.
  induction d; cbn [Decimal.nzhead]; try exact I; try exact IHd;
    cbn [NilEmpty.string_of_uint json_int];
    rewrite skip_digits_uint; reflexivity.
Qed.

Lemma json_number_uint d :
  json_number (NilZero.string_of_uint (Decimal.unorm d)) = true.
Proof.
  unfold Decimal.unorm. pose proof (json_int_nzhead d) as H.
  destruct (Decimal.nzhead d); first [reflexivity | exact H].
Qed.

Lemma json_number_decimal n : json_number (decimal n) = true.
Proof.
  unfold decimal. set (m := Z.to_N n).
  assert (E : N.to_uint m = Decimal.unorm (N.to_uint m)).
  { rewrite <- DecimalN.Unsigned.to_of, DecimalN.Unsigned.of_to.
    reflexivity. }
  rewrite E. apply json_number_uint.
Qed.

Lemma decimal_time_chars n : all_chars time_char (decimal n) = true.
Proof.
  assert (D : forall d,
             all_chars time_char (NilEmpty.string_of_uint d) = true)
    by (induction d; cbn [NilEmpty.string_of_uint all_chars]; auto).
  unfold decimal, NilZero.string_of_uint.
  destruct (N.to_uint (Z.to_N n)); try apply D. reflexivity.
Qed.

(** The replay platform writes numbers and times as the libraries do. *)
Lemma replay_text_laws : TextLaws replay.
Proof.
  split.
  - intros x. cbn [FormatFloat replay]. apply json_number_decimal.
  - intros t. cbn [FormatTime replay]. apply decimal_time_chars.
Qed.

End PlainText.

(** ** The serialized record *)

Section RecordFacts.

Import F64 F64Facts.

Context {W : Type} {P : Platform W} (L : PlatformLaws P) (T : TextLaws P).

(** Every number of a generated reading is finite. *)
Lemma generateReading_finite (w : W) :
  exists r w' x q la lo mp,
    generateReading w = Some (r, w') /\
    Value r = Fin x /\ Quality r = Fin q /\ Lat (Loc r) = Fin la /\
    Lon (Loc r) = Fin lo /\ MilePost (Loc r) = Fin mp.
Proof.
  destruct (generateReading_spec L w)
    as (st & pipeline & status & alert & u & w1 & va & w2 & n & now & q
        & lat & lon & mp & w' & I1 & _ & _ & _ & Uu & Ea & _ & Uq & Ula
        & Ulo & Ump & E).
  assert (Hv : exists x, fst va = Fin x).
  { destruct (base_bounds st u I1 Uu) as (lo & hi & b & _ & _ & Eb & _).
    destruct (anomaly_spec L st (baseValue st (Fin u)) alert w1)
      as (t & w1' & _ & _ & [(_ & v & w3 & _ & Uv & E') | (_ & E')]);
      rewrite E' in Ea; injection Ea as <- _; cbn [fst].
    - destruct (anomaly_bounds st v I1 Uv) as (hi' & x & _ & Ex & _).
      exists x. exact Ex.
    - exists b. exact Eb. }
  destruct Hv as (x & Ex).
  apply unit_draw_range in Uq, Ula, Ulo, Ump.
  destruct (scale_shift (round64 (85 # 100)) (round64 (15 # 100)) q)
    as (vq & Eq_ & _);
    [split; vm_compute; discriminate | split; vm_compute; discriminate
     | exact Uq |].
  destruct (scale_shift 25 20 lat) as (a & Ea' & _);
    [split; discriminate | split; discriminate | exact Ula |].
  destruct (scale_shift (-105) 15 lon) as (b & Eb & _);
    [split; discriminate | split; discriminate | exact Ulo |].
  assert (E1 : lit (85 # 100) = Fin (round64 (85 # 100)))
    by (vm_compute; reflexivity).
  assert (E2 : lit (15 # 100) = Fin (round64 (15 # 100)))
    by (vm_compute; reflexivity).
  assert (E3 : lit 25 = Fin 25) by (vm_compute; reflexivity).
  assert (E4 : lit 20 = Fin 20) by (vm_compute; reflexivity).
  assert (E5 : lit (-105) = Fin (-105)) by (vm_compute; reflexivity).
  assert (E6 : lit 15 = Fin 15) by (vm_compute; reflexivity).
  assert (E7 : lit 500 = Fin 500) by (vm_compute; reflexivity).
  destruct Ump as [M1 M2].
  assert (N1 : (0 <= mp * 500)%Q)
    by (apply Qmult_le_0_compat; [exact M1 | discriminate]).
  assert (N2 : (mp * 500 <= pred_one * 500)%Q)
    by (apply Qmult_le_compat_r; [exact M2 | discriminate]).
  assert (N3 : (pred_one * 500 <= 500)%Q) by (vm_compute; discriminate).
  eexists _, w', x, vq, a, b, (round64 (mp * 500)).
  split; [exact E|]. cbn [Value Quality Loc Lat Lon MilePost].
  rewrite E1, E2, E3, E4, E5, E6, E7, Eq_, Ea', Eb.
  rewrite fmul_fin by (apply (small_abs _ 500); lra).
  repeat (split; [first [assumption | reflexivity]|]). reflexivity.
Qed.

Lemma keys_alert r x q la lo mp :
  Value r = Fin x -> Quality r = Fin q -> Lat (Loc r) = Fin la ->
  Lon (Loc r) = Fin lo -> MilePost (Loc r) = Fin mp ->
  exists j, toJSON r = Some j /\
    (exists ms, j = JObject ms) /\
    keys j = required_keys
             ++ (if (AlertLevel r =? EmptyString)%string then []
                 else ["alert_level"%string]) /\
    (In "alert_level"%string (keys j) <-> AlertLevel r <> EmptyString).
Proof.
  intros Ev Eq_ Ela Elo Emp. unfold toJSON.
  rewrite Ev, Eq_, Ela, Elo, Emp. cbn [number].
  eexists. split; [reflexivity|]. split; [eexists; reflexivity|].
  unfold optional_string.
  destruct (String.eqb_spec (AlertLevel r) EmptyString) as [Empty | Full];
    cbn [keys map fst app required_keys].
  - split; [reflexivity|]. split.
    + intros I. cbn [In] in I.
      repeat (destruct I as [I | I]; [discriminate I|]). contradiction.
    + intros N. contradiction.
  - split; [reflexivity|]. split.
    + intros _. exact Full.
    + intros _. cbn [In]. do 9 right. left. reflexivity.
Qed.

(** On strings that need no escape, [json.Marshal] gives the object of
    the schema written out. *)
Lemma Marshal_expected r x q la lo mp :
  Value r = Fin x -> Quality r = Fin q -> Lat (Loc r) = Fin la ->
  Lon (Loc r) = Fin lo -> MilePost (Loc r) = Fin mp ->
  plain_strings r ->
  Marshal r
  = Some (expected_text r (FormatFloat x) (FormatFloat la) (FormatFloat lo)
            (FormatFloat mp) (FormatFloat q)).
Proof.
  intros Ev Eq_ Ela Elo Emp (P1 & P2 & P3 & P4 & P5 & P6 & P7).
  unfold Marshal, toJSON. rewrite Ev, Eq_, Ela, Elo, Emp.
  cbn [number option_map]. f_equal.
  unfold expected_text, member, optional_string.
  destruct (String.eqb_spec (AlertLevel r) EmptyString) as [Empty | Full];
    cbn [app encode];
    rewrite ?(quote_plain _ P1), ?(quote_plain _ P2), ?(quote_plain _ P3),
      ?(quote_plain _ P4), ?(quote_plain _ P5), ?(quote_plain _ P6),
      ?(quote_plain _ P7);
    rewrite !(quote_plain "sensor_id"), !(quote_plain "timestamp"),
      !(quote_plain "type"), !(quote_plain "value"), !(quote_plain "unit"),
      !(quote_plain "location"), !(quote_plain "lat"), !(quote_plain "lon"),
      !(quote_plain "mile_post"), !(quote_plain "pipeline_id"),
      !(quote_plain "status"), !(quote_plain "quality_score"),
      ?(quote_plain "alert_level") by reflexivity;
    rewrite !append_assoc; cbn [append]; rewrite ?append_assoc;
    reflexivity.
Qed.

(** The strings of a generated reading need no escape. *)
Lemma generateReading_plain (w : W) r w' :
  generateReading w = Some (r, w') -> plain_strings r.
Proof.
  intros E0.
  destruct (generateReading_spec L w)
    as (st & pipeline & status & alert & u & w1 & va & w2 & n & now & q
        & lat & lon & mp & w'' & I1 & I2 & I3 & I4 & _ & Ea & Hn & _ & _
        & _ & _ & E).
  rewrite E in E0. apply some_pair_eq in E0. destruct E0 as [<- _].
  destruct registry_plain as (R1 & R2 & R3 & R4).
  destruct (R1 st I1) as (Pt & Pu & _).
  unfold plain_strings. cbn [SensorID Timestamp Type_ Unit PipelineID Status
                             AlertLevel].
  split; [apply sensorID_plain; assumption|].
  split; [apply (all_chars_impl _ _ _ time_plain), (FormatTime_chars P T)|].
  split; [exact Pt|]. split; [exact Pu|]. split; [exact (R2 _ I2)|].
  split; [exact (R3 _ I3)|].
  destruct (anomaly_spec L st (baseValue st (Fin u)) alert w1)
    as (t & w1' & _ & _ & [(_ & v & w3 & _ & _ & E') | (_ & E')]);
    rewrite E' in Ea; apply some_pair_eq in Ea; destruct Ea as [<- _];
    cbn [snd].
  - destruct (String.eqb_spec alert EmptyString); [reflexivity|].
    exact (R4 _ I4).
  - exact (R4 _ I4).
Qed.

(** C8.  The record that the loop serializes, a reading returned by
    [generateReading]: [json.Marshal] succeeds on it and gives, on one
    line, the compact text of a single JSON object, which is written out
    here: between braces the nine members sensor_id, timestamp, type,
    value, unit, location (an object of lat, lon and mile_post),
    pipeline_id, status and quality_score, in this order, each name and
    each string between quotes with its characters as they are (none
    needs an escape), each number as the JSON number of its float64; and
    after them the member alert_level if and only if the alert level is
    not the empty string. *)
Theorem record_is_one_json_object (w : W) :
  exists r w' j text x la lo mp q,
    generateReading w = Some (r, w') /\
    toJSON r = Some j /\ (exists ms, j = JObject ms) /\
    Marshal r = Some text /\ text = encode j /\
    Value r = Fin x /\ Lat (Loc r) = Fin la /\ Lon (Loc r) = Fin lo /\
    MilePost (Loc r) = Fin mp /\ Quality r = Fin q /\
    text = expected_text r (FormatFloat x) (FormatFloat la) (FormatFloat lo)
             (FormatFloat mp) (FormatFloat q) /\
    plain_strings r /\
    json_number (FormatFloat x) = true /\
    json_number (FormatFloat la) = true /\
    json_number (FormatFloat lo) = true /\
    json_number (FormatFloat mp) = true /\
    json_number (FormatFloat q) = true /\
    (exists body, text = ("{" ++ body ++ "}")%string) /\
    lines text = 0%Z /\
    keys j = required_keys
             ++ (if (AlertLevel r =? EmptyString)%string then []
                 else ["alert_level"%string]) /\
    (In "alert_level"%string (keys j) <-> AlertLevel r <> EmptyString).
Proof.
  destruct (generateReading_finite w)
    as (r & w' & x & q & la & lo & mp & E & Ev & Eq_ & Ela & Elo & Emp).
  destruct (keys_alert r x q la lo mp Ev Eq_ Ela Elo Emp)
    as (j & Ej & (ms & Eo) & Ek & Ia).
  pose proof (generateReading_plain w r w' E) as Pl.
  pose proof (Marshal_expected r x q la lo mp Ev Eq_ Ela Elo Emp Pl) as Em.
  assert (Em' : Marshal r = Some (encode j))
    by (unfold Marshal; rewrite Ej; reflexivity).
  exists r, w', j, (encode j), x, la, lo, mp, q.
  split; [exact E|]. split; [exact Ej|]. split; [exists ms; exact Eo|].
  split; [exact Em'|]. split; [reflexivity|].
  split; [exact Ev|]. split; [exact Ela|]. split; [exact Elo|].
  split; [exact Emp|]. split; [exact Eq_|].
  split; [congruence|]. split; [exact Pl|].
  do 5 (split; [apply (FormatFloat_number P T)|]).
  split; [subst j; cbn [encode]; eexists; reflexivity|].
  split; [apply (encode_one_line L)|]. split; assumption.
Qed.

End RecordFacts.

Lemma record_is_one_json_object_witness :
  PlatformLaws replay /\ TextLaws replay /\
  exists r w' text x la lo mp q,
    generateReading anomaly_tape = Some (r, w') /\
    Marshal r = Some text /\
    text = expected_text r (FormatFloat x) (FormatFloat la) (FormatFloat lo)
             (FormatFloat mp) (FormatFloat q) /\
    lines text = 0%Z.
Proof.
  split; [exact replay_laws|]. split; [exact replay_text_laws|].
  destruct (record_is_one_json_object replay_laws replay_text_laws
              anomaly_tape)
    as (r & w' & j & text & x & la & lo & mp & q & E & _ & _ & Em & _ & _
        & _ & _ & _ & _ & Et & _ & _ & _ & _ & _ & _ & _ & Ln & _).
  exists r, w', text, x, la, lo, mp, q.
  split; [exact E|]. split; [exact Em|]. split; [exact Et | exact Ln].
Defined.

(** ** The emission loop *)

Section LoopFacts.

Import F64 F64Facts.

Context {W : Type} {P : Platform W}.

Lemma whole_lines_app n m t1 t2 :
  whole_lines n t1 -> whole_lines m t2 -> whole_lines (n + m) (t1 ++ t2).
Proof.
  intros H1 H2. induction H1 as [| n d t Hd _ IH]; cbn [Nat.add append].
  - exact H2.
  - rewrite !append_assoc. apply whole_lines_cons; assumption.
Qed.

Lemma whole_lines_count n t : whole_lines n t -> lines t = Z.of_nat n.
Proof.
  intros H. induction H as [| n d t Hd _ IH]; [reflexivity|].
  rewrite !lines_app, Hd, IH, lines_line_end. lia.
Qed.

Lemma emit_written r s :
  written (writer (emit r s))
  = (written (writer s) ++ data_of r ++ line_end)%string.
Proof.
  unfold emit. cbn [writer].
  rewrite written_WriteByte, written_Write, append_assoc. reflexivity.
Qed.

Lemma final_stats_last prints st :
  final_stats (prints ++ [FinalStats st]) = Some st.
Proof.
  induction prints as [| p prints IH]; [reflexivity|].
  cbn [app final_stats]. rewrite IH.
  destruct p; destruct (prints ++ [FinalStats st]) eqn:E; try reflexivity;
    destruct prints; discriminate.
Qed.

Lemma printFinalStats_total total start size (w : W) :
  exists st w', printFinalStats total start (Some size) w = Some (st, w') /\
                statTotal st = total.
Proof.
  unfold printFinalStats, bind, call, ret.
  destruct (Now w) as [now w']. eexists. eexists.
  split; reflexivity.
Qed.

Lemma stop_spec start s (w : W) :
  exists s' w', stop start s w = Some (s', w') /\ stopped_from s s'.
Proof.
  unfold stop, bind, ret.
  destruct (printFinalStats_total (totalEntries s) start
              (Z.of_nat (String.length (file (Flush (writer s))))) w)
    as (st & w' & E & T).
  rewrite E. eexists. exists w'. split; [reflexivity|].
  unfold stopped_from. cbn [writer totalEntries stdout].
  split; [reflexivity|]. split; [reflexivity|].
  exists st. split; [reflexivity | exact T].
Qed.

Lemma periodicStats_spec cfg start s (w : W) :
  exists s' w', periodicStats cfg start s w = Some (s', w') /\
    writer s' = writer s /\ totalEntries s' = totalEntries s.
Proof.
  unfold periodicStats, bind, call, ret.
  destruct (verbose cfg); [|eauto].
  destruct (Now w) as [now wa].
  destruct (5 * Second <=? now - lastReport s)%Z; [|eauto].
  destruct (Now wa) as [now1 wb]. destruct (Now wb) as [now2 wc].
  eexists. eexists. split; [reflexivity|]. split; reflexivity.
Qed.

Context (L : PlatformLaws P).

Lemma data_one_line r : lines (data_of r) = 0%Z.
Proof.
  unfold data_of. destruct (Marshal r) as [d |] eqn:E; [|reflexivity].
  apply (Marshal_one_line L r d E).
Qed.

Lemma writeRecord_spec s (w : W) :
  exists r w', generateReading w = Some (r, w') /\
               writeRecord s w = Some (emit r s, w').
Proof.
  destruct (generateReading_spec L w)
    as (st & pipeline & status & alert & u & w1 & va & w2 & n & now & q
        & lat & lon & mp & w' & _ & _ & _ & _ & _ & _ & _ & _ & _ & _ & _
        & E).
  eexists. exists w'. split; [exact E|].
  unfold writeRecord, bind, ret. rewrite E. reflexivity.
Qed.

(** A batch of n records: n whole lines are written and the counter is
    incremented n times. *)
Lemma writeBatch_spec n s (w : W) :
  (0 <= totalEntries s)%Z -> (totalEntries s + Z.of_nat n < 2 ^ 63)%Z ->
  exists s' w' t, writeBatch n s w = Some (s', w') /\
    written (writer s') = (written (writer s) ++ t)%string /\
    whole_lines n t /\
    totalEntries s' = (totalEntries s + Z.of_nat n)%Z /\
    lastReport s' = lastReport s /\ stdout s' = stdout s.
Proof.
  revert s w. induction n as [| n IH]; intros s w T0 T1.
  - exists s, w, EmptyString. cbn [writeBatch]. unfold ret.
    rewrite append_nil_r. repeat split; try reflexivity.
    + constructor.
    + lia.
  - destruct (writeRecord_spec s w) as (r & wa & _ & E).
    assert (Ti : totalEntries (emit r s) = (totalEntries s + 1)%Z).
    { unfold emit, incr64. cbn [totalEntries].
      destruct (Z.ltb_spec (totalEntries s + 1) (2 ^ 63)); lia. }
    destruct (IH (emit r s) wa) as (s' & w' & t & E' & Wr & Wl & Tt & Lr & So);
      [lia | lia |].
    exists s', w', (data_of r ++ line_end ++ t)%string.
    cbn [writeBatch]. unfold bind. rewrite E. split; [exact E'|].
    split; [|split; [|split; [|split]]].
    + rewrite Wr, emit_written, !append_assoc. reflexivity.
    + apply whole_lines_cons; [apply data_one_line | exact Wl].
    + lia.
    + rewrite Lr. reflexivity.
    + rewrite So. reflexivity.
Qed.

Lemma batchSizeOf_pos R : (1 <= batchSizeOf R)%Z.
Proof. rewrite batchSizeOf_spec. lia. Qed.

(** The tick case: the loop stops on the deadline, or a whole batch is
    written and flushed before the case ends. *)
Lemma onTick_spec cfg start endTime s (w : W) :
  (0 <= totalEntries s)%Z ->
  (totalEntries s + batchSizeOf (rate cfg) < 2 ^ 63)%Z ->
  exists o w', onTick cfg start endTime s w = Some (o, w') /\
    match o with
    | Stopped s' => stopped_from s s'
    | Running s' =>
        exists t, file (writer s') = (written (writer s) ++ t)%string /\
          buf (writer s') = EmptyString /\
          whole_lines (Z.to_nat (batchSizeOf (rate cfg))) t /\
          totalEntries s' = (totalEntries s + batchSizeOf (rate cfg))%Z
    end.
Proof.
  intros T0 T1. pose proof (batchSizeOf_pos (rate cfg)) as B.
  unfold onTick, bind.
  assert (D : exists e wa, deadlinePassed cfg endTime w = Some (e, wa)).
  { unfold deadlinePassed, bind, call, ret.
    destruct (0 <? duration cfg)%Z; [|eauto].
    destruct (Now w) as [now wa]. eauto. }
  destruct D as (e & wa & D). rewrite D. destruct e.
  - destruct (stop_spec start s wa) as (s' & w' & E & St).
    rewrite E. exists (Stopped s'), w'. split; [reflexivity | exact St].
  - destruct (writeBatch_spec (Z.to_nat (batchSizeOf (rate cfg))) s wa T0)
      as (s1 & wb & t & E1 & Wr & Wl & Tt & _ & _); [lia|].
    rewrite E1.
    destruct (periodicStats_spec cfg start (flushed s1) wb)
      as (s2 & w' & E2 & Ew & Et).
    rewrite E2. exists (Running s2), w'. split; [reflexivity|].
    exists t. rewrite Ew, Et. cbn [flushed writer totalEntries Flush file buf].
    fold (written (writer s1)). rewrite Wr.
    repeat split; try assumption; lia.
Qed.

Lemma onSignal_spec start s (w : W) :
  exists s' w', onSignal start s w = Some (Stopped s', w') /\
                stopped_from s s'.
Proof.
  unfold onSignal, bind, ret.
  destruct (stop_spec start s w) as (s' & w' & E & St).
  rewrite E. exists s', w'. split; [reflexivity | exact St].
Qed.

End LoopFacts.

(** ** The properties of the loop *)

Section LoopProperties.

Import F64 F64Facts.

Context {W : Type} {P : Platform W} (L : PlatformLaws P).

Lemma stopped_file s s' :
  stopped_from s s' ->
  file (writer s') = written (writer s) /\ buf (writer s') = EmptyString /\
  written (writer s') = written (writer s).
Proof.
  intros (Ew & _). rewrite Ew.
  split; [reflexivity|]. split; [reflexivity | apply written_Flush].
Qed.

(** The loop along any sequence of cases: what is written after the old
    content is a whole number of lines, the counter is their number, and
    nothing is left in the buffer when a select statement is reached. *)
Lemma mainLoop_spec cfg start endTime content evs :
  forall s (w : W) n t,
    written (writer s) = (content ++ t)%string ->
    buf (writer s) = EmptyString ->
    whole_lines n t -> totalEntries s = Z.of_nat n ->
    (Z.of_nat n + Z.of_nat (List.length evs) * batchSizeOf (rate cfg)
       < 2 ^ 63)%Z ->
    exists o w' n' t',
      mainLoop cfg start endTime evs s w = Some (o, w') /\
      written (writer (state_of o)) = (content ++ t')%string /\
      buf (writer (state_of o)) = EmptyString /\
      whole_lines n' t' /\ totalEntries (state_of o) = Z.of_nat n' /\
      (forall s', o = Stopped s' ->
         exists st, final_stats (stdout s') = Some st /\
                    statTotal st = Z.of_nat n').
Proof.
  pose proof (batchSizeOf_pos (rate cfg)) as B.
  induction evs as [| ev evs IH]; intros s w n t Wr Bf Wl Tt Bound.
  - exists (Running s), w, n, t. cbn [mainLoop state_of]. unfold ret.
    repeat (split; [first [assumption | reflexivity]|]). discriminate.
  - cbn [List.length] in Bound. cbn [mainLoop]. unfold bind.
    assert (Stop : forall s' (w' : W), stopped_from s s' ->
              exists o w'' n' t',
                Some (Stopped s', w') = Some (o, w'') /\
                written (writer (state_of o)) = (content ++ t')%string /\
                buf (writer (state_of o)) = EmptyString /\
                whole_lines n' t' /\
                totalEntries (state_of o) = Z.of_nat n' /\
                (forall s'', o = Stopped s'' ->
                   exists st, final_stats (stdout s'') = Some st /\
                              statTotal st = Z.of_nat n')).
    { intros s' w' St. destruct (stopped_file s s' St) as (_ & Bf' & Wr').
      destruct St as (_ & Et & st & Es & Ts).
      exists (Stopped s'), w', n, t. cbn [state_of].
      split; [reflexivity|]. split; [rewrite Wr'; exact Wr|].
      split; [exact Bf'|]. split; [exact Wl|].
      split; [rewrite Et; exact Tt|].
      intros s'' E. injection E as <-. exists st. rewrite Es.
      split; [apply final_stats_last | rewrite Ts; exact Tt]. }
    destruct ev; cbn [branch].
    + destruct (onSignal_spec start s w) as (s' & w' & E & St).
      rewrite E. apply Stop. exact St.
    + destruct (onTick_spec L cfg start endTime s w) as (o & w' & E & Ho);
        [lia | nia |].
      rewrite E. destruct o as [s' | s'].
      * destruct Ho as (t1 & Ef & Bf' & Wl1 & Tt1).
        apply (IH s' w' (n + Z.to_nat (batchSizeOf (rate cfg)))%nat
                 (t ++ t1)%string).
        -- unfold written. rewrite Bf', append_nil_r, Ef, Wr, append_assoc.
           reflexivity.
        -- exact Bf'.
        -- apply whole_lines_app; assumption.
        -- rewrite Tt1, Tt. lia.
        -- nia.
      * apply Stop. exact Ho.
Qed.

(** C6.  Each record adds one to the cumulative counter and one line,
    ended by a line break and holding no other, to the output; so in any
    run of [main], along any sequence of select cases, the output is the
    old content of the file followed by whole lines, as many as the
    counter says, and when the run stops everything is flushed and the
    total of the final statistics is the number of lines written to the
    file.  (The sink takes every write, and the counter, an int64, is
    kept below 2^63.) *)
Theorem count_equals_lines cfg content evs i (w : W) :
  intervalOf (rate cfg) = Some i -> (0 < i)%Z ->
  (Z.of_nat (List.length evs) * batchSizeOf (rate cfg) < 2 ^ 63)%Z ->
  (forall r s,
     lines (data_of r) = 0%Z /\
     written (writer (emit r s))
       = (written (writer s) ++ data_of r ++ line_end)%string /\
     totalEntries (emit r s) = incr64 (totalEntries s)) /\
  exists o w' n t,
    main cfg content evs w = Some (o, w') /\
    written (writer (state_of o)) = (content ++ t)%string /\
    buf (writer (state_of o)) = EmptyString /\
    whole_lines n t /\ totalEntries (state_of o) = Z.of_nat n /\
    (forall s', o = Stopped s' ->
       exists st, final_stats (stdout s') = Some st /\
         statTotal st = Z.of_nat n /\
         statTotal st = (lines (file (writer s')) - lines content)%Z).
Proof.
  intros Ei Hi Bound. split.
  - intros r s. split; [apply (data_one_line L)|].
    split; [apply emit_written | reflexivity].
  - unfold main. rewrite Ei.
    destruct (Z.leb_spec i 0) as [C | _]; [lia|].
    unfold bind at 1.
    set (deadline := if (0 <? duration cfg)%Z then _ else _).
    assert (D : exists e wa, deadline w = Some (e, wa)).
    { unfold deadline, bind, call, ret.
      destruct (0 <? duration cfg)%Z; [|eauto].
      destruct (Now w) as [now wa]. eauto. }
    destruct D as (endTime & wa & D). rewrite D.
    unfold bind, call. destruct (Now wa) as [startTime wb].
    destruct (Now wb) as [seed wc].
    destruct (mainLoop_spec cfg startTime endTime content evs
                {| writer := {| file := content; buf := EmptyString |};
                   totalEntries := 0; lastReport := startTime;
                   stdout := [] |} wc O EmptyString)
      as (o & w' & n & t & E & Wr & Bf & Wl & Tt & Fin_);
      [reflexivity | reflexivity | constructor | reflexivity | lia |].
    exists o, w', n, t. split; [exact E|].
    repeat (split; [assumption|]).
    intros s' Eo. destruct (Fin_ s' Eo) as (st & Fs & Ts).
    exists st. split; [exact Fs|]. split; [exact Ts|].
    subst o. cbn [state_of] in Wr, Bf.
    unfold written in Wr. rewrite Bf, append_nil_r in Wr.
    rewrite Ts, Wr, lines_app, (whole_lines_count n t Wl). lia.
Qed.

(** C4 as amended.  When the serialization of a record fails, the loop
    discards the error: it writes an empty line for the record (the line
    break alone), counts the record, and goes on with the rest of the
    batch; the run is not aborted. *)
Theorem failed_record_is_an_empty_line r s :
  Marshal r = None ->
  written (writer (emit r s)) = (written (writer s) ++ line_end)%string /\
  lines (written (writer (emit r s))) = (lines (written (writer s)) + 1)%Z /\
  totalEntries (emit r s) = incr64 (totalEntries s) /\
  (forall n (w : W),
     (0 <= totalEntries (emit r s))%Z ->
     (totalEntries (emit r s) + Z.of_nat n < 2 ^ 63)%Z ->
     exists s' w' t,
       writeBatch n (emit r s) w = Some (s', w') /\
       written (writer s')
         = (written (writer s) ++ line_end ++ t)%string /\
       whole_lines n t).
Proof.
  intros E.
  assert (Ed : data_of r = EmptyString)
    by (unfold data_of; rewrite E; reflexivity).
  assert (Ew : written (writer (emit r s))
               = (written (writer s) ++ line_end)%string).
  { rewrite emit_written, Ed. reflexivity. }
  split; [exact Ew|].
  split; [rewrite Ew, lines_app, lines_line_end; reflexivity|].
  split; [reflexivity|].
  intros n w T0 T1.
  destruct (writeBatch_spec L n (emit r s) w T0 T1)
    as (s' & w' & t & Eb & Wr & Wl & _).
  exists s', w', t. split; [exact Eb|]. split; [|exact Wl].
  rewrite Wr, Ew, append_assoc. reflexivity.
Qed.

(** C9 as amended.  The select statement takes any case that is ready,
    with no priority for the stop signal: when the signal alone is ready
    the signal case is taken, when both are ready either may be.  The
    signal case flushes and stops without writing a record.  The tick case
    either stops on the deadline in the same way, or writes one whole
    batch of complete lines and flushes it before the loop comes back to
    the select statement: the output never holds a part of a batch. *)
Theorem select_takes_any_ready_case cfg start endTime s (w : W) :
  (0 <= totalEntries s)%Z ->
  (totalEntries s + batchSizeOf (rate cfg) < 2 ^ 63)%Z ->
  (forall c ev, ready c ev = true <->
     (ev = Signal /\ sigChan c = true) \/ (ev = Tick /\ tickerC c = true)) /\
  (forall c ev, sigChan c = true -> tickerC c = false ->
     ready c ev = true -> ev = Signal) /\
  (exists s' w',
     onSignal start s w = Some (Stopped s', w') /\
     file (writer s') = written (writer s) /\
     buf (writer s') = EmptyString /\
     totalEntries s' = totalEntries s) /\
  (exists o w',
     onTick cfg start endTime s w = Some (o, w') /\
     buf (writer (state_of o)) = EmptyString /\
     match o with
     | Stopped s' =>
         file (writer s') = written (writer s) /\
         totalEntries s' = totalEntries s
     | Running s' =>
         exists t,
           file (writer s') = (written (writer s) ++ t)%string /\
           whole_lines (Z.to_nat (batchSizeOf (rate cfg))) t /\
           totalEntries s' = (totalEntries s + batchSizeOf (rate cfg))%Z
     end).
Proof.
  intros T0 T1. split; [|split; [|split]].
  - intros c [|]; cbn [ready]; split.
    + intros H. left. split; [reflexivity | exact H].
    + intros [[_ H] | [C _]]; [exact H | discriminate].
    + intros H. right. split; [reflexivity | exact H].
    + intros [[C _] | [_ H]]; [discriminate | exact H].
  - intros c [|] Hs Ht R; [reflexivity|].
    cbn [ready] in R. congruence.
  - destruct (onSignal_spec start s w) as (s' & w' & E & St).
    destruct (stopped_file s s' St) as (Ef & Eb & _).
    destruct St as (_ & Et & _).
    exists s', w'. repeat split; assumption.
  - destruct (onTick_spec L cfg start endTime s w T0 T1) as (o & w' & E & Ho).
    exists o, w'. split; [exact E|]. destruct o as [s' | s']; cbn [state_of].
    + destruct Ho as (t & Ef & Eb & Wl & Tt). split; [exact Eb|].
      exists t. repeat split; assumption.
    + destruct (stopped_file s s' Ho) as (Ef & Eb & _).
      destruct Ho as (_ & Et & _). repeat split; assumption.
Qed.

End LoopProperties.

(** ** Concrete runs of the loop *)

Section LoopRuns.

Import F64 F64Facts.

Lemma count_equals_lines_witness :
  PlatformLaws replay /\
  intervalOf (rate two_per_second) = Some 1000000000%Z /\
  exists o w' n t,
    main two_per_second EmptyString (selected late_stop) blank_tape
      = Some (o, w') /\
    written (writer (state_of o)) = (EmptyString ++ t)%string /\
    buf (writer (state_of o)) = EmptyString /\
    whole_lines n t /\ totalEntries (state_of o) = Z.of_nat n /\
    (forall s', o = Stopped s' ->
       exists st, final_stats (stdout s') = Some st /\
         statTotal st = Z.of_nat n /\
         statTotal st = (lines (file (writer s')) - lines EmptyString)%Z).
Proof.
  split; [exact replay_laws|]. split; [vm_compute; reflexivity|].
  apply (count_equals_lines replay_laws two_per_second EmptyString
           (selected late_stop) 1000000000 blank_tape).
  - vm_compute. reflexivity.
  - reflexivity.
  - vm_compute. reflexivity.
Defined.

(** C4, the counterexample.  A reading whose value is NaN cannot be
    serialized; on it the body of the batch loop still writes a line break
    and still adds one to the counter: the record is neither left out of
    the output nor left out of the count. *)
Lemma failed_record_not_skipped :
  Marshal (P := replay) nan_reading = None /\
  written (writer (emit (P := replay) nan_reading fresh)) = line_end /\
  written (writer (emit (P := replay) nan_reading fresh))
    <> written (writer fresh) /\
  totalEntries (emit (P := replay) nan_reading fresh) = 1%Z /\
  totalEntries (emit (P := replay) nan_reading fresh)
    <> totalEntries fresh.
Proof.
  split; [vm_compute; reflexivity|].
  split; [vm_compute; reflexivity|].
  split; [vm_compute; discriminate|].
  split; [vm_compute; reflexivity | vm_compute; discriminate].
Qed.

Lemma failed_record_is_an_empty_line_witness :
  PlatformLaws replay /\
  Marshal (P := replay) nan_reading = None /\
  written (writer (emit (P := replay) nan_reading fresh))
    = (written (writer fresh) ++ line_end)%string /\
  totalEntries (emit (P := replay) nan_reading fresh)
    = incr64 (totalEntries fresh).
Proof.
  split; [exact replay_laws|].
  assert (E : Marshal (P := replay) nan_reading = None)
    by (vm_compute; reflexivity).
  split; [exact E|].
  pose proof (failed_record_is_an_empty_line replay_laws nan_reading
                fresh E) as (H1 & _ & H3 & _).
  split; [exact H1 | exact H3].
Defined.

(** C9, the counterexample.  With a signal and a tick both waiting, the
    tick case is one the select statement can take.  In the schedule
    [late_stop] the signal arrives first and two tick cases are taken
    while it waits; the run writes two batches, the four records of which
    are in the file, before the signal case stops it. *)
Lemma tick_taken_while_signal_waits :
  ready both_ready Signal = true /\ ready both_ready Tick = true /\
  admissible no_event late_stop = true /\
  ticks_past_signal no_event late_stop = 2%nat /\
  exists s' w',
    main two_per_second EmptyString (selected late_stop) blank_tape
      = Some (Stopped s', w') /\
    totalEntries s' = 4%Z /\ lines (file (writer s')) = 4%Z.
Proof.
  repeat (split; [reflexivity|]).
  eexists. eexists. split; [vm_compute; reflexivity|].
  split; vm_compute; reflexivity.
Qed.

Lemma select_takes_any_ready_case_witness :
  PlatformLaws replay /\
  (0 <= totalEntries fresh)%Z /\
  (totalEntries fresh + batchSizeOf (rate two_per_second)
     < 2 ^ 63)%Z /\
  (forall c ev, sigChan c = true -> tickerC c = false ->
     ready c ev = true -> ev = Signal) /\
  exists o w',
    onTick two_per_second 5 0 fresh blank_tape = Some (o, w') /\
    buf (writer (state_of o)) = EmptyString.
Proof.
  split; [exact replay_laws|].
  assert (H0 : (0 <= totalEntries fresh)%Z)
    by (vm_compute; discriminate).
  assert (H1 : (totalEntries fresh
                + batchSizeOf (rate two_per_second) < 2 ^ 63)%Z)
    by (vm_compute; reflexivity).
  split; [exact H0|]. split; [exact H1|].
  pose proof (select_takes_any_ready_case replay_laws two_per_second 5 0
                fresh blank_tape H0 H1)
    as (_ & Hp & _ & (o & w' & E & B & _)).
  split; [exact Hp|]. exists o, w'. split; [exact E | exact B].
Defined.

End LoopRuns.

(** ** The final statistics *)

Section FinalStats.

Import F64 F64Facts.

Context {W : Type} {P : Platform W}.

Lemma of_int_positive n :
  (0 < n < 2 ^ 63)%Z -> exists x, of_int n = Fin x /\ (0 < x)%Q.
Proof.
  intros [Lo Hi]. exists (round64 (inject_Z n)).
  split; [apply of_int_fin; lia|].
  apply (Qlt_le_trans _ (round64 (inject_Z 1))); [vm_compute; reflexivity|].
  apply round64_mono. rewrite <- Zle_Qle. lia.
Qed.

Lemma div_by_zero x : (0 < x)%Q -> fdiv (Fin x) (Fin 0) = Inf false.
Proof.
  intros H. unfold fdiv. cbn [Qeq_bool].
  change (Qeq_bool 0 0) with true. cbv iota.
  destruct (Qeq_bool x 0) eqn:E.
  - apply Qeq_bool_iff in E. exfalso. lra.
  - unfold Qneg.
    assert (Q : Qle_bool 0 x = true) by (apply Qle_bool_iff; lra).
    rewrite Q. reflexivity.
Qed.

(** C5 as amended.  For every record count, start time and file size (the
    call of [os.Stat] having succeeded), [printFinalStats] returns its
    report: it never panics.  The two averages are float64 divisions with
    no guard before them: when no time has elapsed the average rate is
    +Inf, or NaN if the count is zero as well; when the count is zero the
    average entry size is +Inf, or NaN if the file is empty as well. *)
Theorem final_stats_divisions total start size (w : W) :
  (0 <= total < 2 ^ 63)%Z -> (0 <= size < 2 ^ 63)%Z ->
  exists st w',
    printFinalStats total start (Some size) w = Some (st, w') /\
    statTotal st = total /\
    statElapsed st = (fst (Now w) - start)%Z /\
    statRate st = fdiv (of_int total) (Seconds (statElapsed st)) /\
    statAvgSize st = fdiv (of_int size) (of_int total) /\
    (statElapsed st = 0%Z ->
       statRate st = if (total =? 0)%Z then NaN else Inf false) /\
    (total = 0%Z ->
       statAvgSize st = if (size =? 0)%Z then NaN else Inf false).
Proof.
  intros Ht Hs. unfold printFinalStats, bind, call, ret.
  destruct (Now w) as [now w'] eqn:En. cbn [fst].
  eexists. exists w'. split; [reflexivity|].
  cbn [statTotal statElapsed statRate statAvgSize].
  repeat (split; [reflexivity|]). split.
  - intros ->. change (Seconds 0) with (Fin 0).
    destruct (Z.eqb_spec total 0) as [-> | N]; [reflexivity|].
    destruct (of_int_positive total ltac:(lia)) as (x & -> & Px).
    apply div_by_zero. exact Px.
  - intros ->. change (of_int 0) with (Fin 0).
    destruct (Z.eqb_spec size 0) as [-> | N]; [reflexivity|].
    destruct (of_int_positive size ltac:(lia)) as (x & -> & Px).
    apply div_by_zero. exact Px.
Qed.

End FinalStats.

(** C5, the counterexample.  With no record written, no time elapsed and
    an empty file, the report is printed with NaN for the average rate and
    NaN for the average entry size: both divisions were carried out on
    zero; neither was guarded. *)
Lemma final_stats_of_nothing :
  exists st w',
    printFinalStats (P := replay) 0 5 (Some 0%Z) blank_tape = Some (st, w') /\
    statElapsed st = 0%Z /\
    statRate st = F64.NaN /\ statAvgSize st = F64.NaN.
Proof.
  eexists. eexists. split; [vm_compute; reflexivity|].
  repeat split; reflexivity.
Qed.

Lemma final_stats_divisions_witness :
  (0 <= 7 < 2 ^ 63)%Z /\ (0 <= 10 < 2 ^ 63)%Z /\
  exists st w',
    printFinalStats (P := replay) 7 5 (Some 10%Z) blank_tape = Some (st, w') /\
    statTotal st = 7%Z /\ statRate st = F64.Inf false.
Proof.
  assert (H1 : (0 <= 7 < 2 ^ 63)%Z) by lia.
  assert (H2 : (0 <= 10 < 2 ^ 63)%Z) by lia.
  split; [exact H1|]. split; [exact H2|].
  pose proof (final_stats_divisions (P := replay) 7 5 10 blank_tape H1 H2)
    as (st & w' & E & Et & Ee & _ & _ & Hr & _).
  exists st, w'. split; [exact E|]. split; [exact Et|].
  apply Hr. rewrite Ee. reflexivity.
Defined.

(** ** Further properties of the synthesizer *)

Section SynthesizerMore.

Import F64 F64Facts.

Context {W : Type} {P : Platform W} (L : PlatformLaws P).

Lemma length_append s1 s2 :
  String.length (s1 ++ s2) = (String.length s1 + String.length s2)%nat.
Proof.
  induction s1 as [| c s1 IH]; cbn [append String.length Nat.add];
    [reflexivity | rewrite IH; reflexivity].
Qed.

Lemma append_inj_length a b x y :
  String.length a = String.length b ->
  (a ++ x)%string = (b ++ y)%string -> a = b.
Proof.
  revert b. induction a as [| c a IH]; intros [| d b] Hl E;
    cbn [String.length] in Hl; try discriminate Hl; [reflexivity|].
  cbn [append] in E. injection E as -> E. f_equal.
  apply IH; [lia | exact E].
Qed.

Lemma kind_code_length st :
  In st sensorTypes -> String.length (kind_code st) = 3%nat.
Proof.
  intros I. unfold sensorTypes in I. cbn [In] in I.
  repeat (destruct I as [I | I]; [subst st; reflexivity|]). contradiction.
Qed.

(** The three letters tell the sensor types of the registry apart. *)
Lemma kind_code_injective st1 st2 :
  In st1 sensorTypes -> In st2 sensorTypes ->
  kind_code st1 = kind_code st2 ->
  stType st1 = stType st2 /\ stUnit st1 = stUnit st2.
Proof.
  intros I1 I2. unfold sensorTypes in I1, I2. cbn [In] in I1, I2.
  repeat (destruct I1 as [I1 | I1]; [subst st1|]); try contradiction;
    repeat (destruct I2 as [I2 | I2]; [subst st2|]); try contradiction;
    cbn [stType stUnit]; intros E;
    first [split; reflexivity | vm_compute in E; discriminate E].
Qed.

(** X1.  Every reading takes its type and its unit from one profile of the
    registry, its pipeline from [pipelineIDs], its status from [statuses]
    and its alert level from [alertLevels]: the "medium" that an anomaly
    forces is one of the levels of the list. *)
Theorem reading_from_registry (w : W) :
  exists r w' st,
    generateReading w = Some (r, w') /\
    In st sensorTypes /\ Type_ r = stType st /\ Unit r = stUnit st /\
    In (PipelineID r) pipelineIDs /\ In (Status r) statuses /\
    In (AlertLevel r) alertLevels.
Proof.
  destruct (generateReading_spec L w)
    as (st & pipeline & status & alert & u & w1 & va & w2 & n & now & q
        & lat & lon & mp & w' & I1 & I2 & I3 & I4 & _ & Ea & _ & _ & _ & _
        & _ & E).
  eexists _, w', st. split; [exact E|].
  cbn [Type_ Unit PipelineID Status AlertLevel].
  repeat (split; [first [assumption | reflexivity]|]).
  destruct (anomaly_spec L st (baseValue st (Fin u)) alert w1)
    as (t & w1' & _ & _ & [(_ & v & w3 & _ & _ & E') | (_ & E')]);
    rewrite E' in Ea; injection Ea as <- _; cbn [snd]; [|exact I4].
  destruct (alert =? EmptyString)%string; [|exact I4].
  cbn [alertLevels In]. do 6 right. left. reflexivity.
Qed.

(** X2.  The sensor id of every reading is "SNS-", the first three letters
    of its type, "-" and a number of [0, 10000) written with exactly four
    digits, zeros in front, which read back as the number: twelve
    characters in all. *)
Theorem sensor_id_format (w : W) :
  exists r w' n,
    generateReading w = Some (r, w') /\ (0 <= n < 10000)%Z /\
    SensorID r
      = ("SNS-" ++ substring 0 3 (Type_ r) ++ "-" ++ fmt04d n)%string /\
    String.length (SensorID r) = 12%nat /\
    String.length (fmt04d n) = 4%nat /\
    all_chars digit_char (fmt04d n) = true /\
    read_decimal (fmt04d n) = Some n.
Proof.
  destruct (generateReading_spec L w)
    as (st & pipeline & status & alert & u & w1 & va & w2 & n & now & q
        & lat & lon & mp & w' & I1 & _ & _ & _ & _ & _ & Hn & _ & _ & _
        & _ & E).
  pose proof (four_digits_ok n Hn) as F. unfold four_digits in F.
  cbv zeta in F. apply andb_prop in F. destruct F as [F F3].
  apply andb_prop in F. destruct F as [F1 F2].
  apply Nat.eqb_eq in F1.
  destruct (read_decimal (fmt04d n)) as [m |] eqn:Er; [|discriminate F3].
  apply Z.eqb_eq in F3. subst m.
  eexists _, w', n. split; [exact E|]. cbn [SensorID Type_].
  split; [exact Hn|]. split; [reflexivity|].
  split; [|repeat split; assumption].
  unfold sensorID. rewrite !length_append, F1.
  fold (kind_code st). rewrite (kind_code_length st I1). reflexivity.
Qed.

(** X3.  The sensor id tells the type: two readings with the same sensor
    id have the same type and the same unit. *)
Theorem sensor_id_determines_type (w1 w2 : W) r1 r2 w1' w2' :
  generateReading w1 = Some (r1, w1') ->
  generateReading w2 = Some (r2, w2') ->
  SensorID r1 = SensorID r2 ->
  Type_ r1 = Type_ r2 /\ Unit r1 = Unit r2.
Proof.
  intros E1 E2.
  destruct (generateReading_spec L w1)
    as (st1 & p1 & s1 & a1 & u1 & wa1 & va1 & wb1 & n1 & now1 & q1 & la1
        & lo1 & mp1 & wc1 & I1 & _ & _ & _ & _ & _ & _ & _ & _ & _ & _ & G1).
  destruct (generateReading_spec L w2)
    as (st2 & p2 & s2 & a2 & u2 & wa2 & va2 & wb2 & n2 & now2 & q2 & la2
        & lo2 & mp2 & wc2 & I2 & _ & _ & _ & _ & _ & _ & _ & _ & _ & _ & G2).
  rewrite G1 in E1. apply some_pair_eq in E1. destruct E1 as [<- _].
  rewrite G2 in E2. apply some_pair_eq in E2. destruct E2 as [<- _].
  cbn [SensorID Type_ Unit]. unfold sensorID. intros E.
  cbn [append] in E. injection E as E.
  apply kind_code_injective; [exact I1 | exact I2|].
  apply (append_inj_length _ _ _ _
           ltac:(unfold kind_code in *;
                 rewrite (kind_code_length st1 I1), (kind_code_length st2 I2);
                 reflexivity) E).
Qed.

(** X4.  A value above the maximum of the profile never comes without an
    alert: for every reading, if the alert level is empty the value lies
    within the range of the profile, and if the value exceeds the maximum
    the alert level is not empty. *)
Theorem out_of_range_has_alert (w : W) :
  exists r w' st lo hi x,
    generateReading w = Some (r, w') /\
    In st sensorTypes /\ Type_ r = stType st /\
    stMin st = Fin lo /\ stMax st = Fin hi /\ Value r = Fin x /\
    (AlertLevel r = EmptyString -> (lo <= x <= hi)%Q) /\
    ((hi < x)%Q -> AlertLevel r <> EmptyString).
Proof.
  destruct (generateReading_spec L w)
    as (st & pipeline & status & alert & u & w1 & va & w2 & n & now & q
        & lat & lon & mp & w' & I1 & _ & _ & I4 & Uu & Ea & _ & _ & _ & _
        & _ & E).
  destruct (base_bounds st u I1 Uu) as (lo & hi & b & El & Eh & Eb & Bb).
  destruct (anomaly_spec L st (baseValue st (Fin u)) alert w1)
    as (t & w1' & _ & _ & [(_ & v & w3 & _ & Uv & E') | (_ & E')]);
    rewrite E' in Ea; injection Ea as <- _.
  - destruct (anomaly_bounds st v I1 Uv) as (hi' & x & Eh' & Ex & Bx & _).
    rewrite Eh in Eh'. injection Eh' as <-.
    assert (N : (if (alert =? EmptyString)%string then "medium"%string
                 else alert) <> EmptyString).
    { destruct (String.eqb_spec alert EmptyString) as [_ | N];
        [discriminate | exact N]. }
    eexists _, w', st, lo, hi, x. split; [exact E|].
    cbn [Type_ Value AlertLevel fst snd].
    repeat (split; [first [assumption | reflexivity]|]).
    split; [intros C; contradiction | intros _; exact N].
  - eexists _, w', st, lo, hi, b. split; [exact E|].
    cbn [Type_ Value AlertLevel fst snd].
    repeat (split; [first [assumption | reflexivity]|]).
    split; [intros _; exact Bb | intros C; exfalso; lra].
Qed.

End SynthesizerMore.

Lemma reading_from_registry_witness :
  PlatformLaws replay /\
  exists r w' st,
    generateReading anomaly_tape = Some (r, w') /\
    In st sensorTypes /\ Type_ r = stType st /\ Unit r = stUnit st /\
    In (PipelineID r) pipelineIDs /\ In (Status r) statuses /\
    In (AlertLevel r) alertLevels.
Proof.
  split; [exact replay_laws|].
  exact (reading_from_registry replay_laws anomaly_tape).
Defined.

Lemma sensor_id_format_witness :
  PlatformLaws replay /\
  exists r w' n,
    generateReading top_tape = Some (r, w') /\ (0 <= n < 10000)%Z /\
    SensorID r
      = ("SNS-" ++ substring 0 3 (Type_ r) ++ "-" ++ fmt04d n)%string /\
    String.length (SensorID r) = 12%nat /\
    String.length (fmt04d n) = 4%nat /\
    all_chars digit_char (fmt04d n) = true /\
    read_decimal (fmt04d n) = Some n.
Proof.
  split; [exact replay_laws|].
  exact (sensor_id_format replay_laws top_tape).
Defined.

Lemma sensor_id_determines_type_witness :
  PlatformLaws replay /\
  exists r1 r2 w1' w2',
    generateReading top_tape = Some (r1, w1') /\
    generateReading twin_tape = Some (r2, w2') /\
    SensorID r1 = SensorID r2 /\ Status r1 <> Status r2 /\
    Type_ r1 = Type_ r2 /\ Unit r1 = Unit r2.
Proof.
  split; [exact replay_laws|].
  assert (E1 : exists r w', generateReading top_tape = Some (r, w'))
    by (eexists; eexists; exact top_tape_run).
  destruct (generateReading twin_tape) as [[r2 w2'] |] eqn:E2;
    [|vm_compute in E2; discriminate E2].
  exists top_reading, r2, {| tape := []; clock := 1700000001 |}, w2'.
  split; [exact top_tape_run|]. split; [reflexivity|].
  assert (Es : SensorID top_reading = SensorID r2)
    by (vm_compute in E2; injection E2 as <- _; reflexivity).
  assert (Ed : Status top_reading <> Status r2)
    by (vm_compute in E2; injection E2 as <- _; vm_compute; discriminate).
  split; [exact Es|]. split; [exact Ed|].
  exact (sensor_id_determines_type replay_laws top_tape twin_tape
           top_reading r2 _ w2' top_tape_run E2 Es).
Defined.

Lemma out_of_range_has_alert_witness :
  PlatformLaws replay /\
  exists r w' st lo hi x,
    generateReading anomaly_tape = Some (r, w') /\
    In st sensorTypes /\ Type_ r = stType st /\
    stMin st = F64.Fin lo /\ stMax st = F64.Fin hi /\
    Value r = F64.Fin x /\
    (AlertLevel r = EmptyString -> (lo <= x <= hi)%Q) /\
    ((hi < x)%Q -> AlertLevel r <> EmptyString).
Proof.
  split; [exact replay_laws|].
  exact (out_of_range_has_alert replay_laws anomaly_tape).
Defined.

(** ** Further properties of the loop *)

Section LoopChain.

Import F64 F64Facts.

Context {W : Type} {P : Platform W}.

(** what is known of the data of each record that the loop writes *)
Variable Line : string -> Prop.

Hypothesis record_line : forall s (w : W),
  exists r w', writeRecord s w = Some (emit r s, w') /\ Line (data_of r).

Lemma count_final_app a b :
  count_final (a ++ b) = (count_final a + count_final b)%nat.
Proof.
  induction a as [| [] a IH]; cbn [app count_final Nat.add];
    [reflexivity | exact IH | rewrite IH; reflexivity].
Qed.

Lemma count_progress_app a b :
  count_progress (a ++ b) = (count_progress a + count_progress b)%nat.
Proof.
  induction a as [| [] a IH]; cbn [app count_progress Nat.add];
    [reflexivity | rewrite IH; reflexivity | exact IH].
Qed.

Lemma each_line_app Q n m t1 t2 :
  each_line Q n t1 -> each_line Q m t2 -> each_line Q (n + m) (t1 ++ t2).
Proof.
  intros H1 H2. induction H1 as [| n d t Hd _ IH]; cbn [Nat.add append].
  - exact H2.
  - rewrite !append_assoc. apply each_line_cons; assumption.
Qed.

Lemma each_line_count Q n t :
  (forall d, Q d -> lines d = 0%Z) ->
  each_line Q n t -> lines t = Z.of_nat n.
Proof.
  intros HQ H. induction H as [| n d t Hd _ IH]; [reflexivity|].
  rewrite !lines_app, (HQ d Hd), IH, lines_line_end. lia.
Qed.

Lemma deadlinePassed_eq cfg endTime (w : W) :
  deadlinePassed cfg endTime w
  = Some (((0 <? duration cfg) && (endTime <? fst (Now w)))%Z%bool,
          if (0 <? duration cfg)%Z then snd (Now w) else w).
Proof.
  unfold deadlinePassed, bind, call, ret.
  destruct (0 <? duration cfg)%Z; [|reflexivity].
  destruct (Now w) as [now w']. reflexivity.
Qed.

Lemma periodicStats_cases cfg start s (w : W) :
  exists s' w', periodicStats cfg start s w = Some (s', w') /\
    writer s' = writer s /\ totalEntries s' = totalEntries s /\
    (stdout s' = stdout s \/
     (verbose cfg = true /\
      exists r, stdout s' = stdout s ++ [Progress (totalEntries s) r])).
Proof.
  unfold periodicStats, bind, call, ret.
  destruct (verbose cfg); [|exists s, w; auto].
  destruct (Now w) as [now wa].
  destruct (5 * Second <=? now - lastReport s)%Z; [|exists s, wa; auto].
  destruct (Now wa) as [now1 wb]. destruct (Now wb) as [now2 wc].
  eexists. eexists. split; [reflexivity|]. cbn [writer totalEntries stdout].
  split; [reflexivity|]. split; [reflexivity|]. right.
  split; [reflexivity|]. eexists. reflexivity.
Qed.

Lemma writeBatch_objects n s (w : W) :
  (0 <= totalEntries s)%Z -> (totalEntries s + Z.of_nat n < 2 ^ 63)%Z ->
  exists s' w' t, writeBatch n s w = Some (s', w') /\
    written (writer s') = (written (writer s) ++ t)%string /\
    each_line Line n t /\
    totalEntries s' = (totalEntries s + Z.of_nat n)%Z /\
    lastReport s' = lastReport s /\ stdout s' = stdout s.
Proof.
  revert s w. induction n as [| n IH]; intros s w T0 T1.
  - exists s, w, EmptyString. cbn [writeBatch]. unfold ret.
    rewrite append_nil_r. repeat split; try reflexivity.
    + constructor.
    + lia.
  - destruct (record_line s w) as (r & wa & E & Ho).
    assert (Ti : totalEntries (emit r s) = (totalEntries s + 1)%Z).
    { unfold emit, incr64. cbn [totalEntries].
      destruct (Z.ltb_spec (totalEntries s + 1) (2 ^ 63)); lia. }
    destruct (IH (emit r s) wa) as (s' & w' & t & E' & Wr & Wl & Tt & Lr & So);
      [lia | lia |].
    exists s', w', (data_of r ++ line_end ++ t)%string.
    cbn [writeBatch]. unfold bind. rewrite E. split; [exact E'|].
    split; [|split; [|split; [|split]]].
    + rewrite Wr, emit_written, !append_assoc. reflexivity.
    + apply each_line_cons; [exact Ho | exact Wl].
    + lia.
    + rewrite Lr. reflexivity.
    + rewrite So. reflexivity.
Qed.

(** The tick case, in full: it stops exactly when a deadline is set and
    the clock has passed it; otherwise it writes a batch. *)
Lemma onTick_cases cfg start endTime s (w : W) :
  (0 <= totalEntries s)%Z ->
  (totalEntries s + batchSizeOf (rate cfg) < 2 ^ 63)%Z ->
  exists o w', onTick cfg start endTime s w = Some (o, w') /\
    if ((0 <? duration cfg) && (endTime <? fst (Now w)))%Z%bool
    then exists s', o = Stopped s' /\ stopped_from s s'
    else exists s' t, o = Running s' /\
      file (writer s') = (written (writer s) ++ t)%string /\
      buf (writer s') = EmptyString /\
      each_line Line (Z.to_nat (batchSizeOf (rate cfg))) t /\
      totalEntries s' = (totalEntries s + batchSizeOf (rate cfg))%Z /\
      (stdout s' = stdout s \/
       (verbose cfg = true /\
        exists r, stdout s' = stdout s ++ [Progress (totalEntries s') r])).
Proof.
  intros T0 T1. pose proof (batchSizeOf_pos (rate cfg)) as B.
  unfold onTick, bind. rewrite deadlinePassed_eq.
  set (wa := if (0 <? duration cfg)%Z then snd (Now w) else w).
  destruct ((0 <? duration cfg) && (endTime <? fst (Now w)))%Z%bool.
  - destruct (stop_spec start s wa) as (s' & w' & E & St).
    rewrite E. exists (Stopped s'), w'. split; [reflexivity|].
    exists s'. split; [reflexivity | exact St].
  - destruct (writeBatch_objects (Z.to_nat (batchSizeOf (rate cfg))) s wa T0)
      as (s1 & wb & t & E1 & Wr & Wl & Tt & _ & So); [lia|].
    rewrite E1.
    destruct (periodicStats_cases cfg start (flushed s1) wb)
      as (s2 & w' & E2 & Ew & Et & Eo).
    rewrite E2. exists (Running s2), w'. split; [reflexivity|].
    exists s2, t. rewrite Ew, Et.
    cbn [flushed writer totalEntries Flush file buf stdout] in *.
    fold (written (writer s1)). rewrite Wr, <- So.
    split; [reflexivity|]. split; [reflexivity|]. split; [reflexivity|].
    split; [exact Wl|]. split; [lia | exact Eo].
Qed.

(** The loop along any sequence of cases, in full. *)
Lemma mainLoop_full cfg start endTime evs :
  forall s (w : W),
    (0 <= totalEntries s)%Z ->
    (totalEntries s
       + Z.of_nat (List.length evs) * batchSizeOf (rate cfg) < 2 ^ 63)%Z ->
    buf (writer s) = EmptyString ->
    exists o w' n t,
      mainLoop cfg start endTime evs s w = Some (o, w') /\
      written (writer (state_of o)) = (written (writer s) ++ t)%string /\
      each_line Line n t /\
      totalEntries (state_of o) = (totalEntries s + Z.of_nat n)%Z /\
      count_final (stdout (state_of o))
        = (count_final (stdout s)
           + match o with Stopped _ => 1 | Running _ => 0 end)%nat /\
      (verbose cfg = false ->
         count_progress (stdout (state_of o)) = count_progress (stdout s)) /\
      (forall s', o = Stopped s' ->
         exists prints st, stdout s' = prints ++ [FinalStats st] /\
                           statTotal st = totalEntries s') /\
      (In Signal evs -> exists s', o = Stopped s').
Proof.
  pose proof (batchSizeOf_pos (rate cfg)) as B.
  induction evs as [| ev evs IH]; intros s w T0 Bound Bf.
  - exists (Running s), w, O, EmptyString. cbn [mainLoop state_of In].
    unfold ret. rewrite append_nil_r.
    split; [reflexivity|]. split; [reflexivity|]. split; [constructor|].
    split; [lia|]. split; [lia|]. split; [reflexivity|].
    split; [discriminate | contradiction].
  - cbn [List.length] in Bound. cbn [mainLoop]. unfold bind.
    assert (Stop : forall s' (w' : W), stopped_from s s' ->
              exists o w'' n t,
                Some (Stopped s', w') = Some (o, w'') /\
                written (writer (state_of o))
                  = (written (writer s) ++ t)%string /\
                each_line Line n t /\
                totalEntries (state_of o)
                  = (totalEntries s + Z.of_nat n)%Z /\
                count_final (stdout (state_of o))
                  = (count_final (stdout s)
                     + match o with Stopped _ => 1 | Running _ => 0 end)%nat /\
                (verbose cfg = false ->
                   count_progress (stdout (state_of o))
                     = count_progress (stdout s)) /\
                (forall s'', o = Stopped s'' ->
                   exists prints st, stdout s'' = prints ++ [FinalStats st] /\
                                     statTotal st = totalEntries s'') /\
                (In Signal (ev :: evs) -> exists s'', o = Stopped s'')).
    { intros s' w' St. destruct (stopped_file s s' St) as (_ & _ & Wr').
      destruct St as (_ & Et & st & Es & Ts).
      exists (Stopped s'), w', O, EmptyString. cbn [state_of].
      split; [reflexivity|]. split; [rewrite Wr', append_nil_r; reflexivity|].
      split; [constructor|]. split; [lia|].
      split; [rewrite Es, count_final_app; reflexivity|].
      split; [intros _; rewrite Es, count_progress_app; cbn; lia|].
      split; [|intros _; exists s'; reflexivity].
      intros s'' X. injection X as <-. exists (stdout s), st.
      split; [exact Es | congruence]. }
    destruct ev; cbn [branch].
    + destruct (onSignal_spec start s w) as (s' & w' & E & St).
      rewrite E. apply Stop. exact St.
    + destruct (onTick_cases cfg start endTime s w) as (o & w' & E & Ho);
        [lia | nia |].
      rewrite E.
      destruct ((0 <? duration cfg) && (endTime <? fst (Now w)))%Z%bool.
      * destruct Ho as (s' & -> & St). apply Stop. exact St.
      * destruct Ho as (s' & t1 & -> & Ef & Bf' & Wl1 & Tt1 & So).
        destruct (IH s' w') as (o & w'' & n & t & E' & Wr & Wl & Tt & Cf
                                & Cp & Fs & Sg); [lia | nia | exact Bf' |].
        exists o, w'', (Z.to_nat (batchSizeOf (rate cfg)) + n)%nat,
          (t1 ++ t)%string.
        split; [exact E'|].
        assert (Ws : written (writer s')
                     = (written (writer s) ++ t1)%string).
        { unfold written at 1. rewrite Bf', append_nil_r. exact Ef. }
        split; [rewrite Wr, Ws, append_assoc; reflexivity|].
        split; [apply each_line_app; assumption|].
        split; [rewrite Tt, Tt1; lia|].
        assert (Cf1 : count_final (stdout s') = count_final (stdout s)).
        { destruct So as [-> | (_ & r & ->)]; [reflexivity|].
          rewrite count_final_app. cbn. lia. }
        split; [rewrite Cf, Cf1; reflexivity|].
        split.
        { intros V. rewrite (Cp V).
          destruct So as [-> | (V' & _)]; [reflexivity | congruence]. }
        split; [exact Fs|].
        intros [C | I]; [discriminate C | exact (Sg I)].
Qed.

(** With a valid interval, [main] is the loop started on the file. *)
Lemma main_loop_eq cfg content evs i (w : W) :
  intervalOf (rate cfg) = Some i -> (0 < i)%Z ->
  exists startTime endTime wc,
    main cfg content evs w
    = mainLoop cfg startTime endTime evs (initial content startTime) wc.
Proof.
  intros Ei Hi. unfold main. rewrite Ei.
  destruct (Z.leb_spec i 0) as [C | _]; [lia|].
  unfold bind at 1.
  set (deadline := if (0 <? duration cfg)%Z then _ else _).
  assert (D : exists e wa, deadline w = Some (e, wa)).
  { unfold deadline, bind, call, ret.
    destruct (0 <? duration cfg)%Z; [|eauto].
    destruct (Now w) as [now wa]. eauto. }
  destruct D as (endTime & wa & D). rewrite D.
  unfold bind, call. destruct (Now wa) as [startTime wb].
  destruct (Now wb) as [seed wc].
  exists startTime, endTime, wc. reflexivity.
Qed.

End LoopChain.


(** ** Further properties of the loop *)

Section LoopMore.

Import F64 F64Facts.

Context {W : Type} {P : Platform W} (L : PlatformLaws P).

Lemma writeRecord_line s (w : W) :
  exists r w', writeRecord s w = Some (emit r s, w') /\ one_line (data_of r).
Proof.
  destruct (writeRecord_spec L s w) as (r & w' & _ & E).
  exists r, w'. split; [exact E | apply (data_one_line L)].
Qed.

(** X5.  The tick case looks at the deadline before it writes.  With a
    duration set and the clock past the end time, it flushes, prints the
    final statistics, which report the counter, and stops: no record is
    written and the counter is as it was.  With no duration, or the clock
    not past the end time (the end time itself included), it writes one
    batch, prints no final statistics, and the loop goes on. *)
Theorem tick_deadline cfg start endTime s (w : W) :
  (0 <= totalEntries s)%Z ->
  (totalEntries s + batchSizeOf (rate cfg) < 2 ^ 63)%Z ->
  ((0 < duration cfg)%Z -> (endTime < fst (Now w))%Z ->
     exists s' w', onTick cfg start endTime s w = Some (Stopped s', w') /\
       file (writer s') = written (writer s) /\
       totalEntries s' = totalEntries s /\
       writer s' = Flush (writer s) /\
       exists st, stdout s' = stdout s ++ [FinalStats st] /\
                  statTotal st = totalEntries s /\
                  final_stats (stdout s') = Some st) /\
  ((duration cfg <= 0)%Z \/ (fst (Now w) <= endTime)%Z ->
     exists s' w', onTick cfg start endTime s w = Some (Running s', w') /\
       totalEntries s' = (totalEntries s + batchSizeOf (rate cfg))%Z /\
       lines (file (writer s'))
         = (lines (written (writer s)) + batchSizeOf (rate cfg))%Z /\
       count_final (stdout s') = count_final (stdout s)).
Proof.
  intros T0 T1. pose proof (batchSizeOf_pos (rate cfg)) as B.
  destruct (onTick_cases one_line writeRecord_line cfg start endTime s w
              T0 T1) as (o & w' & E & H).
  split.
  - intros D C.
    assert (X : ((0 <? duration cfg) && (endTime <? fst (Now w)))%Z%bool
                = true).
    { apply andb_true_intro. split; apply Z.ltb_lt; assumption. }
    rewrite X in H. destruct H as (s' & -> & St).
    destruct (stopped_file s s' St) as (Ef & _ & _).
    destruct St as (Ew & Et & st & Es & Ts). exists s', w'.
    split; [exact E|]. split; [exact Ef|]. split; [exact Et|].
    split; [exact Ew|]. exists st. split; [exact Es|].
    split; [exact Ts|]. rewrite Es. apply final_stats_last.
  - intros D.
    assert (X : ((0 <? duration cfg) && (endTime <? fst (Now w)))%Z%bool
                = false).
    { apply andb_false_iff. destruct D as [D | D];
        [left | right]; apply Z.ltb_ge; exact D. }
    rewrite X in H. destruct H as (s' & t & -> & Ef & _ & Wl & Tt & So).
    exists s', w'. split; [exact E|]. split; [exact Tt|]. split.
    + rewrite Ef, lines_app, (each_line_count one_line _ _ (fun d H => H) Wl).
      lia.
    + destruct So as [-> | (_ & r & ->)]; [reflexivity|].
      rewrite count_final_app. cbn. lia.
Qed.

(** X6.  With no duration set, ticks alone never stop the run: after k
    tick cases the loop is still running, and k batches, that is
    k * batchSize records, have been written and counted. *)
Theorem ticks_without_deadline cfg start endTime k s (w : W) :
  (duration cfg <= 0)%Z -> (0 <= totalEntries s)%Z ->
  (totalEntries s + Z.of_nat k * batchSizeOf (rate cfg) < 2 ^ 63)%Z ->
  buf (writer s) = EmptyString ->
  exists s' w',
    mainLoop cfg start endTime (repeat Tick k) s w = Some (Running s', w') /\
    totalEntries s'
      = (totalEntries s + Z.of_nat k * batchSizeOf (rate cfg))%Z /\
    lines (file (writer s'))
      = (lines (file (writer s)) + Z.of_nat k * batchSizeOf (rate cfg))%Z /\
    buf (writer s') = EmptyString.
Proof.
  intros D. pose proof (batchSizeOf_pos (rate cfg)) as B.
  revert s w. induction k as [| k IH]; intros s w T0 Bound Bf.
  - exists s, w. cbn [repeat mainLoop]. unfold ret.
    split; [reflexivity|]. repeat split; try lia. exact Bf.
  - destruct (onTick_cases one_line writeRecord_line cfg start endTime s
                w) as (o & w1 & E & H);
      [lia | nia |].
    assert (X : ((0 <? duration cfg) && (endTime <? fst (Now w)))%Z%bool
                = false).
    { apply andb_false_iff. left. apply Z.ltb_ge. exact D. }
    rewrite X in H. destruct H as (s1 & t & -> & Ef & Bf1 & Wl & Tt & _).
    destruct (IH s1 w1) as (s' & w' & E' & Tt' & Ln & Bf');
      [lia | nia | exact Bf1 |].
    exists s', w'. cbn [repeat mainLoop branch]. unfold bind. rewrite E.
    split; [exact E'|]. split; [rewrite Tt', Tt; lia|].
    split; [|exact Bf'].
    rewrite Ln, Ef, lines_app,
      (each_line_count one_line _ _ (fun d H => H) Wl).
    unfold written. rewrite Bf, append_nil_r. lia.
Qed.

(** X8.  A run in which the select statement takes the signal case ends
    stopped, with the final statistics printed, whatever the other cases
    are. *)
Theorem signal_stops_the_run cfg content evs i (w : W) :
  intervalOf (rate cfg) = Some i -> (0 < i)%Z ->
  (Z.of_nat (List.length evs) * batchSizeOf (rate cfg) < 2 ^ 63)%Z ->
  In Signal evs ->
  exists s' w' st,
    main cfg content evs w = Some (Stopped s', w') /\
    final_stats (stdout s') = Some st /\
    statTotal st = totalEntries s' /\
    buf (writer s') = EmptyString.
Proof.
  intros Ei Hi Bound I.
  destruct (main_loop_eq cfg content evs i w Ei Hi)
    as (startTime & endTime & wc & ->).
  destruct (mainLoop_full one_line writeRecord_line cfg startTime endTime
              evs
              (initial content startTime) wc)
    as (o & w' & n & t & E & _ & _ & _ & _ & _ & Fs & Sg);
    [cbn; lia | cbn [initial totalEntries]; lia | reflexivity |].
  destruct (Sg I) as (s' & ->).
  destruct (Fs s' eq_refl) as (prints & st & Es & Ts).
  exists s', w', st. split; [exact E|].
  split; [rewrite Es; apply final_stats_last|]. split; [exact Ts|].
  destruct (mainLoop_spec L cfg startTime endTime content evs
              (initial content startTime) wc O EmptyString)
    as (o2 & w2 & n2 & t2 & E2 & _ & Bf & _);
    [cbn; rewrite append_nil_r; reflexivity | reflexivity | constructor
     | reflexivity | lia |].
  rewrite E in E2. apply some_pair_eq in E2. destruct E2 as [<- _].
  exact Bf.
Qed.

(** X9.  What a run prints: the final statistics once, as the last thing,
    when it has stopped, and not at all while it is running; and when
    [verbose] is off no progress line at all. *)
Theorem prints_of_a_run cfg content evs i (w : W) :
  intervalOf (rate cfg) = Some i -> (0 < i)%Z ->
  (Z.of_nat (List.length evs) * batchSizeOf (rate cfg) < 2 ^ 63)%Z ->
  exists o w',
    main cfg content evs w = Some (o, w') /\
    match o with
    | Running s' => count_final (stdout s') = O
    | Stopped s' =>
        count_final (stdout s') = 1%nat /\
        exists prints st, stdout s' = prints ++ [FinalStats st]
    end /\
    (verbose cfg = false -> count_progress (stdout (state_of o)) = O).
Proof.
  intros Ei Hi Bound.
  destruct (main_loop_eq cfg content evs i w Ei Hi)
    as (startTime & endTime & wc & ->).
  destruct (mainLoop_full one_line writeRecord_line cfg startTime endTime
              evs
              (initial content startTime) wc)
    as (o & w' & n & t & E & _ & _ & _ & Cf & Cp & Fs & _);
    [cbn; lia | cbn [initial totalEntries]; lia | reflexivity |].
  exists o, w'. split; [exact E|]. split; [|exact Cp].
  destruct o as [s' | s']; cbn [state_of initial stdout count_final] in Cf.
  - exact Cf.
  - split; [exact Cf|]. destruct (Fs s' eq_refl) as (prints & st & Es & _).
    exists prints, st. exact Es.
Qed.

Context (T : TextLaws P).

Lemma writeRecord_object s (w : W) :
  exists r w', writeRecord s w = Some (emit r s, w') /\
               object_text (data_of r).
Proof.
  destruct (generateReading_finite L w)
    as (r & w' & x & q & la & lo & mp & E & Ev & Eq_ & Ela & Elo & Emp).
  pose proof (generateReading_plain L T w r w' E) as Pl.
  pose proof (Marshal_expected r x q la lo mp Ev Eq_ Ela Elo Emp Pl) as Em.
  exists r, w'. split.
  - unfold writeRecord, bind, ret. rewrite E. reflexivity.
  - unfold data_of. rewrite Em.
    exists w, w', r, x, la, lo, mp, q.
    split; [exact E|]. split; [exact Ev|]. split; [exact Ela|].
    split; [exact Elo|]. split; [exact Emp|]. split; [exact Eq_|].
    split; [exact Em|]. split; [reflexivity|]. split; [exact Pl|].
    apply (Marshal_one_line L r _ Em).
Qed.

(** X10.  Every line that a run of [main] adds to the file is the line of
    a reading that [generateReading] returned: the text that [json.Marshal]
    gives for that reading, which is the compact JSON object of the schema
    written out with the reading's strings and numbers; none is cut, and
    the counter is their number. *)
Theorem output_lines_are_objects cfg content evs i (w : W) :
  intervalOf (rate cfg) = Some i -> (0 < i)%Z ->
  (Z.of_nat (List.length evs) * batchSizeOf (rate cfg) < 2 ^ 63)%Z ->
  exists o w' n t,
    main cfg content evs w = Some (o, w') /\
    written (writer (state_of o)) = (content ++ t)%string /\
    each_line object_text n t /\
    totalEntries (state_of o) = Z.of_nat n.
Proof.
  intros Ei Hi Bound.
  destruct (main_loop_eq cfg content evs i w Ei Hi)
    as (startTime & endTime & wc & ->).
  destruct (mainLoop_full object_text writeRecord_object cfg startTime
              endTime evs
              (initial content startTime) wc)
    as (o & w' & n & t & E & Wr & Wl & Tt & _);
    [cbn; lia | cbn [initial totalEntries]; lia | reflexivity |].
  exists o, w', n, t. split; [exact E|].
  split; [|split; [exact Wl | exact Tt]].
  rewrite Wr. unfold written, initial. cbn [writer file buf].
  rewrite append_nil_r. reflexivity.
Qed.

End LoopMore.

(** ** Further properties of the pacing and of the statistics *)

Section PacingMore.

Import F64 F64Facts.

Context {W : Type} {P : Platform W}.

Lemma fdiv_fin_nz x y :
  ~ y == 0 -> Qabs (x / y) <= pow2 1023 ->
  fdiv (Fin x) (Fin y) = Fin (round64 (x / y)).
Proof.
  intros Hy H. unfold fdiv.
  destruct (Qeq_bool y 0) eqn:E.
  - apply Qeq_bool_iff in E. contradiction.
  - apply fround_fin. exact H.
Qed.

Lemma to_int64_between r lo hi :
  inject_Z lo <= r -> r <= inject_Z hi ->
  (- 2 ^ 63 <= lo)%Z -> (hi < 2 ^ 63)%Z ->
  exists n, to_int64 (Fin r) = Some n /\ (lo <= n <= hi)%Z.
Proof.
  intros Lo Hi B0 B1.
  assert (F : (lo <= Qfloor r <= hi)%Z).
  { split; [rewrite <- (Qfloor_Z lo) | rewrite <- (Qfloor_Z hi)];
      apply Qfloor_resp_le; assumption. }
  assert (C : (lo <= Qceiling r <= hi)%Z).
  { split; [rewrite <- (Qceiling_Z lo) | rewrite <- (Qceiling_Z hi)];
      apply Qceiling_resp_le; assumption. }
  assert (T : (lo <= Qtrunc r <= hi)%Z)
    by (unfold Qtrunc; destruct (Qle_bool 0 r); assumption).
  exists (Qtrunc r). split; [|exact T].
  unfold to_int64. cbv zeta.
  destruct (Z.leb_spec (- 2 ^ 63) (Qtrunc r)); [|lia].
  destruct (Z.ltb_spec (Qtrunc r) (2 ^ 63)); [reflexivity | lia].
Qed.

(** A negative rate gives an interval that is not positive. *)
Lemma intervalOf_negative R :
  (- 2 ^ 63 <= R < 0)%Z ->
  exists i, intervalOf R = Some i /\ (- Second <= i <= 0)%Z.
Proof.
  intros [R0 R1].
  assert (Eb : batchSizeOf R = 1%Z) by (rewrite batchSizeOf_spec; lia).
  assert (Nr : round64 (inject_Z R) <= - (1)).
  { setoid_replace (- (1))%Q with (round64 (inject_Z (-1)))
      by (symmetry; apply round64_int; reflexivity).
    apply round64_mono. rewrite <- Zle_Qle. lia. }
  assert (EN : round64 (round64 (inject_Z Second) * round64 (inject_Z 1))
               == 1000000000).
  { rewrite (round64_int Second) by reflexivity.
    rewrite (round64_int 1) by reflexivity.
    rewrite <- inject_Z_mult. apply round64_int. reflexivity. }
  unfold intervalOf. rewrite Eb.
  rewrite (of_int_fin Second) by (vm_compute; discriminate).
  rewrite (of_int_fin 1) by (vm_compute; discriminate).
  rewrite (of_int_fin R) by lia.
  set (d := round64 (inject_Z R)) in *. clearbody d.
  rewrite fmul_fin.
  2:{ rewrite (round64_int Second) by reflexivity.
      rewrite (round64_int 1) by reflexivity.
      vm_compute. discriminate. }
  set (x := round64 (round64 (inject_Z Second) * round64 (inject_Z 1))) in *.
  clearbody x.
  assert (Qd : - (1000000000) <= x / d <= 0).
  { assert (E : x / d == - (x / - d)) by (field; lra).
    rewrite E.
    assert (A : 0 <= x / - d) by (apply Qle_shift_div_l; lra).
    assert (B : x / - d <= 1000000000).
    { apply Qle_shift_div_r; [lra|].
      apply (Qle_trans _ (1000000000 * 1)); [lra|].
      apply Qmult_le_l; [reflexivity | lra]. }
    lra. }
  rewrite fdiv_fin_nz; [|lra|].
  2:{ apply (small_abs _ 1000000000); [lra | lra | discriminate]. }
  apply to_int64_between; [| |unfold Second; lia | lia].
  - setoid_replace (inject_Z (- Second))
      with (round64 (inject_Z (- Second)))
      by (symmetry; apply round64_int; reflexivity).
    apply round64_mono. apply Qd.
  - apply round64_nonpos. apply Qd.
Qed.

(** X11.  The rates that the ticker refuses.  [time.NewTicker] panics on
    an interval that is not positive: that is the case of every negative
    rate, and of every rate above 10^12 per second, for which the interval
    is less than a nanosecond and is cut to zero.  No record is written:
    the run has no outcome. *)
Theorem ticker_refuses_rate cfg content evs (w : W) :
  (- 2 ^ 63 <= rate cfg < 0)%Z \/ (10 ^ 12 < rate cfg < 2 ^ 63)%Z ->
  (exists i, intervalOf (rate cfg) = Some i /\ (i <= 0)%Z) /\
  main cfg content evs w = None.
Proof.
  intros H.
  assert (I : exists i, intervalOf (rate cfg) = Some i /\ (i <= 0)%Z).
  { destruct H as [N | B].
    - destruct (intervalOf_negative (rate cfg) N) as (i & E & _ & Hi).
      exists i. split; assumption.
    - exists 0%Z. split; [|lia].
      rewrite intervalOf_floor by lia. f_equal.
      apply Z.div_small. rewrite batchSizeOf_spec. unfold Second. lia. }
  split; [exact I|]. destruct I as (i & E & Hi).
  unfold main. rewrite E.
  destruct (Z.leb_spec i 0); [reflexivity | lia].
Qed.

(** X12.  The rates that the ticker accepts.  For a rate from 1 to 10^12
    per second the interval is at least a nanosecond and at most a second;
    up to 1000 per second a batch is the whole rate and the ticker fires
    once a second. *)
Theorem ticker_accepts_rate cfg :
  (1 <= rate cfg <= 10 ^ 12)%Z ->
  exists i, intervalOf (rate cfg) = Some i /\ (1 <= i <= Second)%Z /\
    (Second * batchSizeOf (rate cfg) - rate cfg < i * rate cfg
       <= Second * batchSizeOf (rate cfg))%Z /\
    ((rate cfg <= 1000)%Z ->
       batchSizeOf (rate cfg) = rate cfg /\ i = Second) /\
    forall content evs (w : W),
    exists startTime endTime wc,
      main cfg content evs w
      = mainLoop cfg startTime endTime evs (initial content startTime) wc.
Proof.
  intros [R0 R1]. set (R := rate cfg) in *.
  pose proof (batchSizeOf_spec R) as Eb.
  exists (Second * batchSizeOf R / R)%Z.
  assert (E : intervalOf R = Some (Second * batchSizeOf R / R)%Z)
    by (apply intervalOf_floor; lia).
  assert (Hi : (1 <= Second * batchSizeOf R / R <= Second)%Z).
  { split.
    - apply Z.div_le_lower_bound; [lia|]. unfold Second. lia.
    - apply Z.div_le_upper_bound; [lia|]. unfold Second. nia. }
  split; [exact E|]. split; [exact Hi|]. split; [|split].
  - pose proof (Z.div_mod (Second * batchSizeOf R) R ltac:(lia)) as Dm.
    pose proof (Z.mod_pos_bound (Second * batchSizeOf R) R ltac:(lia)) as Mb.
    lia.
  - intros S. assert (Eq_ : batchSizeOf R = R) by lia.
    split; [exact Eq_|]. rewrite Eq_. apply Z.div_mul. lia.
  - intros content evs w.
    apply (main_loop_eq cfg content evs _ w E). lia.
Qed.

(** [d.Seconds()] of a positive duration is a finite positive number. *)
Lemma Seconds_positive d :
  (0 < d < 2 ^ 63)%Z ->
  exists s, Seconds d = Fin s /\ 1 # 1073741824 <= s /\
            s <= 17179869184.
Proof.
  intros [D0 D1]. unfold Seconds.
  assert (Sp : (0 < Second)%Z) by reflexivity.
  rewrite Z.quot_div_nonneg by lia. rewrite Z.rem_mod_nonneg by lia.
  pose proof (Z.div_mod d Second ltac:(lia)) as Dm.
  pose proof (Z.mod_pos_bound d Second Sp) as Mb.
  set (qd := (d / Second)%Z) in *. set (rm := (d mod Second)%Z) in *.
  assert (Q0 : (0 <= qd)%Z) by (apply Z.div_pos; lia).
  assert (Q1 : (qd < 10 ^ 10)%Z).
  { apply Z.div_lt_upper_bound; [lia|]. unfold Second. lia. }
  clearbody qd rm.
  rewrite (of_int_fin qd) by lia.
  rewrite (of_int_fin rm) by (unfold Second in Mb; lia).
  assert (Ea : round64 (inject_Z qd) == inject_Z qd)
    by (apply round64_int; lia).
  assert (Er : round64 (inject_Z rm) == inject_Z rm)
    by (apply round64_int; unfold Second in Mb; lia).
  assert (Ec : lit 1000000000 = Fin (round64 1000000000)).
  { unfold lit. apply fround_fin. vm_compute. discriminate. }
  rewrite Ec.
  assert (Ec' : round64 1000000000 == 1000000000)
    by (apply (round64_int 1000000000); reflexivity).
  assert (A0 : 0 <= inject_Z qd)
    by (change 0 with (inject_Z 0); rewrite <- Zle_Qle; exact Q0).
  assert (A1 : inject_Z qd <= 10000000000)
    by (change 10000000000 with (inject_Z (10 ^ 10)); rewrite <- Zle_Qle;
        lia).
  assert (B0 : 0 <= inject_Z rm)
    by (change 0 with (inject_Z 0); rewrite <- Zle_Qle; lia).
  assert (B1 : inject_Z rm <= 1000000000)
    by (change 1000000000 with (inject_Z Second); rewrite <- Zle_Qle; lia).
  set (a := round64 (inject_Z qd)) in *.
  set (b := round64 (inject_Z rm)) in *.
  set (c := round64 1000000000) in *. clearbody a b c.
  assert (F : 0 <= b / c <= 1).
  { split; [apply Qle_shift_div_l; lra | apply Qle_shift_div_r; lra]. }
  rewrite fdiv_fin; [|lra|].
  2:{ apply (small_abs _ 1); [lra | lra | discriminate]. }
  assert (G : 0 <= round64 (b / c) <= 1).
  { split; [apply round64_nonneg; lra|].
    setoid_replace 1 with (round64 (inject_Z 1))
      by (symmetry; apply round64_int; reflexivity).
    apply round64_mono. apply F. }
  rewrite fadd_fin.
  2:{ apply (small_abs _ 10000000001); [lra | lra | discriminate]. }
  eexists. split; [reflexivity|]. split.
  - setoid_replace (1 # 1073741824) with (round64 (pow2 (-30)))
      by (rewrite round64_pow2 by lia; reflexivity).
    apply round64_mono.
    destruct (Z.eq_dec qd 0) as [Z0 | NZ].
    + assert (R1 : (1 <= rm)%Z) by lia.
      assert (B2 : 1 <= inject_Z rm)
        by (change 1 with (inject_Z 1); rewrite <- Zle_Qle; lia).
      assert (H : pow2 (-30) <= round64 (b / c)).
      { rewrite <- (round64_pow2 (-30)) by lia. apply round64_mono.
        apply Qle_shift_div_l; [lra|].
        change (pow2 (-30)) with (1 # 1073741824). lra. }
      lra.
    + assert (A2 : 1 <= inject_Z qd)
        by (change 1 with (inject_Z 1); rewrite <- Zle_Qle; lia).
      change (pow2 (-30)) with (1 # 1073741824). lra.
  - setoid_replace 17179869184 with (round64 (pow2 34))
      by (rewrite round64_pow2 by lia; reflexivity).
    apply round64_mono. change (pow2 34) with 17179869184. lra.
Qed.

(** X13.  With at least one record written and some time elapsed, the
    three numbers that [printFinalStats] computes are finite: the average
    rate is positive, the file size in MB and the average entry size are
    not negative; and the average entry size is the float64 nearest to
    size / total when both are below 2^53. *)
Theorem final_stats_finite total start size (w : W) :
  (0 < total < 2 ^ 63)%Z -> (0 <= size < 2 ^ 63)%Z ->
  (0 < fst (Now w) - start < 2 ^ 63)%Z ->
  exists st w' r a m,
    printFinalStats total start (Some size) w = Some (st, w') /\
    statRate st = Fin r /\ 0 < r /\
    statSizeMB st = Fin m /\ 0 <= m /\
    statAvgSize st = Fin a /\ 0 <= a /\
    ((total < 2 ^ 53)%Z -> (size < 2 ^ 53)%Z ->
       a == round64 (inject_Z size / inject_Z total)).
Proof.
  intros Ht Hs He. unfold printFinalStats, bind, call, ret.
  destruct (Now w) as [now w'] eqn:En. cbn [fst] in He.
  destruct (Seconds_positive (now - start) He) as (s & Es & S0 & S1).
  rewrite Es.
  rewrite (of_int_fin total) by lia. rewrite (of_int_fin size) by lia.
  assert (T0 : 1 <= round64 (inject_Z total)).
  { setoid_replace 1 with (round64 (inject_Z 1))
      by (symmetry; apply round64_int; reflexivity).
    apply round64_mono. rewrite <- Zle_Qle. lia. }
  assert (T1 : round64 (inject_Z total) <= 9223372036854775808).
  { setoid_replace 9223372036854775808 with (round64 (pow2 63))
      by (rewrite round64_pow2 by lia; reflexivity).
    apply round64_mono. change (pow2 63) with (inject_Z (2 ^ 63)).
    rewrite <- Zle_Qle. lia. }
  assert (Z0 : 0 <= round64 (inject_Z size)).
  { apply round64_nonneg. change 0 with (inject_Z 0).
    rewrite <- Zle_Qle. lia. }
  assert (Z1 : round64 (inject_Z size) <= 9223372036854775808).
  { setoid_replace 9223372036854775808 with (round64 (pow2 63))
      by (rewrite round64_pow2 by lia; reflexivity).
    apply round64_mono. change (pow2 63) with (inject_Z (2 ^ 63)).
    rewrite <- Zle_Qle. lia. }
  assert (Et : (total < 2 ^ 53)%Z ->
               round64 (inject_Z total) == inject_Z total)
    by (intros; apply round64_int; lia).
  assert (Ez : (size < 2 ^ 53)%Z ->
               round64 (inject_Z size) == inject_Z size)
    by (intros; apply round64_int; lia).
  set (T := round64 (inject_Z total)) in *.
  set (Z := round64 (inject_Z size)) in *. clearbody T Z.
  assert (Em : lit (inject_Z (1024 * 1024)) = Fin (round64 1048576)).
  { unfold lit. apply fround_fin. vm_compute. discriminate. }
  rewrite Em.
  assert (Em' : round64 1048576 == 1048576)
    by (apply (round64_int 1048576); reflexivity).
  set (c := round64 1048576) in *. clearbody c.
  (* the rate *)
  assert (Qr : 1 # 17179869184 <= T / s
               <= 9903520314283042199192993792).
  { split.
    - apply Qle_shift_div_l; [lra|].
      apply (Qle_trans _ ((1 # 17179869184) * 17179869184)).
      + apply Qmult_le_l; [reflexivity | exact S1].
      + lra.
    - apply Qle_shift_div_r; [lra|].
      apply (Qle_trans _ (9903520314283042199192993792 * (1 # 1073741824))).
      + lra.
      + apply Qmult_le_l; [reflexivity | exact S0]. }
  rewrite (fdiv_fin T s); [|lra|].
  2:{ apply (small_abs _ 9903520314283042199192993792);
        [lra | lra | discriminate]. }
  (* the size in MB *)
  assert (Qm : 0 <= Z / c <= 9223372036854775808).
  { split; [apply Qle_shift_div_l; lra|].
    apply Qle_shift_div_r; [lra|].
    apply (Qle_trans _ (9223372036854775808 * 1)); [lra|].
    apply Qmult_le_l; [reflexivity | lra]. }
  rewrite (fdiv_fin Z c); [|lra|].
  2:{ apply (small_abs _ 9223372036854775808); [lra | lra | discriminate]. }
  (* the average entry size *)
  assert (Qa : 0 <= Z / T <= 9223372036854775808).
  { split; [apply Qle_shift_div_l; lra|].
    apply Qle_shift_div_r; [lra|].
    apply (Qle_trans _ (9223372036854775808 * 1)); [lra|].
    apply Qmult_le_l; [reflexivity | lra]. }
  rewrite (fdiv_fin Z T); [|lra|].
  2:{ apply (small_abs _ 9223372036854775808); [lra | lra | discriminate]. }
  eexists. exists w'. eexists. eexists. eexists.
  split; [reflexivity|].
  cbn [statRate statSizeMB statAvgSize].
  split; [reflexivity|]. split.
  { apply (Qlt_le_trans _ (round64 (pow2 (-34)))).
    - rewrite round64_pow2 by lia. apply pow2_pos.
    - apply round64_mono. change (pow2 (-34)) with (1 # 17179869184).
      apply Qr. }
  split; [reflexivity|]. split; [apply round64_nonneg; apply Qm|].
  split; [reflexivity|]. split; [apply round64_nonneg; apply Qa|].
  intros H1 H2. apply round64_comp.
  rewrite (Et H1), (Ez H2). reflexivity.
Qed.

End PacingMore.

(** ** The progress lines *)

Section ProgressLines.

Context {W : Type} {P : Platform W} (L : PlatformLaws P).

Lemma progress_totals_app a b :
  progress_totals (a ++ b) = progress_totals a ++ progress_totals b.
Proof.
  induction a as [| [] a IH]; cbn [app progress_totals];
    [reflexivity | rewrite IH; reflexivity | exact IH].
Qed.

(** Along the loop the progress lines report the counter after a whole
    number of further batches, each more than the one before. *)
Lemma mainLoop_progress cfg start endTime evs :
  forall s (w : W),
    (0 <= totalEntries s)%Z ->
    (totalEntries s
       + Z.of_nat (List.length evs) * batchSizeOf (rate cfg) < 2 ^ 63)%Z ->
    exists o w' ts,
      mainLoop cfg start endTime evs s w = Some (o, w') /\
      (totalEntries s <= totalEntries (state_of o))%Z /\
      progress_totals (stdout (state_of o))
        = progress_totals (stdout s) ++ ts /\
      StronglySorted Z.lt ts /\
      Forall (fun t => (totalEntries s < t <= totalEntries (state_of o))%Z /\
                       (batchSizeOf (rate cfg) | t - totalEntries s)%Z) ts /\
      (verbose cfg = false -> ts = []).
Proof.
  pose proof (batchSizeOf_pos (rate cfg)) as B.
  induction evs as [| ev evs IH]; intros s w T0 Bound.
  - exists (Running s), w, []. cbn [mainLoop state_of]. unfold ret.
    rewrite app_nil_r. split; [reflexivity|]. split; [lia|].
    split; [reflexivity|]. split; [constructor|]. split; [constructor|].
    reflexivity.
  - cbn [List.length] in Bound. cbn [mainLoop]. unfold bind.
    assert (Stop : forall s' (w' : W), stopped_from s s' ->
              exists o w'' ts,
                Some (Stopped s', w') = Some (o, w'') /\
                (totalEntries s <= totalEntries (state_of o))%Z /\
                progress_totals (stdout (state_of o))
                  = progress_totals (stdout s) ++ ts /\
                StronglySorted Z.lt ts /\
                Forall (fun t =>
                          (totalEntries s < t
                             <= totalEntries (state_of o))%Z /\
                          (batchSizeOf (rate cfg) | t - totalEntries s)%Z)
                       ts /\
                (verbose cfg = false -> ts = [])).
    { intros s' w' (_ & Et & st & Es & _).
      exists (Stopped s'), w', []. cbn [state_of].
      split; [reflexivity|]. split; [lia|].
      split; [rewrite Es, progress_totals_app; reflexivity|].
      split; [constructor|]. split; [constructor | reflexivity]. }
    destruct ev; cbn [branch].
    + destruct (onSignal_spec start s w) as (s' & w' & E & St).
      rewrite E. apply Stop. exact St.
    + destruct (onTick_cases one_line (writeRecord_line L) cfg start endTime s
                  w) as (o & w' & E & Ho);
        [lia | nia |].
      rewrite E.
      destruct ((0 <? duration cfg) && (endTime <? fst (Now w)))%Z%bool.
      * destruct Ho as (s' & -> & St). apply Stop. exact St.
      * destruct Ho as (s1 & t1 & -> & _ & _ & _ & Tt1 & So).
        destruct (IH s1 w') as (o & w'' & ts & E' & Mo & Pt & Ss & Fa & Vf);
          [lia | nia |].
        assert (Fa' : Forall (fun t =>
                   (totalEntries s < t <= totalEntries (state_of o))%Z /\
                   (batchSizeOf (rate cfg) | t - totalEntries s)%Z) ts).
        { eapply Forall_impl; [|exact Fa]. cbv beta.
          intros t ([A1 A2] & (c & Ec)). split; [lia|].
          exists (c + 1)%Z. lia. }
        destruct So as [So | (V & r & So)].
        -- exists o, w'', ts. split; [exact E'|]. split; [lia|].
           split; [rewrite Pt, So; reflexivity|].
           split; [exact Ss|]. split; [exact Fa' | exact Vf].
        -- exists o, w'', (totalEntries s1 :: ts).
           split; [exact E'|]. split; [lia|].
           split.
           { rewrite Pt, So, progress_totals_app. cbn [progress_totals].
             rewrite <- app_assoc. reflexivity. }
           split.
           { constructor; [exact Ss|].
             eapply Forall_impl; [|exact Fa]. cbv beta. intros t H. lia. }
           split.
           { constructor; [|exact Fa']. split; [lia|].
             exists 1%Z. lia. }
           intros V'. congruence.
Qed.

(** X14.  The progress lines of a run.  A progress line is printed only
    after a batch and reports the counter at that point: the totals
    reported are positive multiples of the batch size, each greater than
    the one before and none greater than the final count; with [verbose]
    off there is none. *)
Theorem progress_lines_count_batches cfg content evs i (w : W) :
  intervalOf (rate cfg) = Some i -> (0 < i)%Z ->
  (Z.of_nat (List.length evs) * batchSizeOf (rate cfg) < 2 ^ 63)%Z ->
  exists o w',
    main cfg content evs w = Some (o, w') /\
    StronglySorted Z.lt (progress_totals (stdout (state_of o))) /\
    Forall (fun t => (0 < t <= totalEntries (state_of o))%Z /\
                     (batchSizeOf (rate cfg) | t)%Z)
           (progress_totals (stdout (state_of o))) /\
    (verbose cfg = false -> progress_totals (stdout (state_of o)) = []).
Proof.
  intros Ei Hi Bound.
  destruct (main_loop_eq cfg content evs i w Ei Hi)
    as (startTime & endTime & wc & ->).
  destruct (mainLoop_progress cfg startTime endTime evs
              (initial content startTime) wc)
    as (o & w' & ts & E & _ & Pt & Ss & Fa & Vf);
    [cbn; lia | cbn [initial totalEntries]; lia |].
  cbn [initial stdout progress_totals app totalEntries] in Pt, Fa.
  exists o, w'. split; [exact E|]. rewrite Pt.
  split; [exact Ss|]. split; [|exact Vf].
  eapply Forall_impl; [|exact Fa]. cbv beta.
  intros t (A & D). rewrite Z.sub_0_r in D. split; assumption.
Qed.

End ProgressLines.

(** ** Concrete runs for the further properties *)

Section MoreRuns.

Import F64 F64Facts.

Lemma tick_deadline_witness :
  PlatformLaws replay /\
  (0 <= totalEntries fresh)%Z /\
  (totalEntries fresh + batchSizeOf (rate with_deadline) < 2 ^ 63)%Z /\
  (0 < duration with_deadline)%Z /\ (0 < fst (Now blank_tape))%Z /\
  exists s' w',
    onTick with_deadline 5 0 fresh blank_tape = Some (Stopped s', w') /\
    file (writer s') = written (writer fresh) /\
    totalEntries s' = totalEntries fresh /\
    exists st, stdout s' = stdout fresh ++ [FinalStats st].
Proof.
  split; [exact replay_laws|].
  assert (H0 : (0 <= totalEntries fresh)%Z) by (vm_compute; discriminate).
  assert (H1 : (totalEntries fresh
                + batchSizeOf (rate with_deadline) < 2 ^ 63)%Z)
    by (vm_compute; reflexivity).
  assert (H2 : (0 < duration with_deadline)%Z) by reflexivity.
  assert (H3 : (0 < fst (Now blank_tape))%Z) by reflexivity.
  split; [exact H0|]. split; [exact H1|]. split; [exact H2|].
  split; [exact H3|].
  destruct (proj1 (tick_deadline replay_laws with_deadline 5 0 fresh
                     blank_tape H0 H1) H2 H3)
    as (s' & w' & E & Ef & Et & _ & st & Es & _).
  exists s', w'. split; [exact E|]. split; [exact Ef|].
  split; [exact Et|]. exists st. exact Es.
Defined.

Lemma ticks_without_deadline_witness :
  PlatformLaws replay /\
  (duration two_per_second <= 0)%Z /\
  exists s' w',
    mainLoop two_per_second 5 0 (repeat Tick 3) fresh blank_tape
      = Some (Running s', w') /\
    totalEntries s' = 6%Z /\ lines (file (writer s')) = 6%Z.
Proof.
  split; [exact replay_laws|].
  assert (D : (duration two_per_second <= 0)%Z) by (vm_compute; discriminate).
  split; [exact D|].
  destruct (ticks_without_deadline replay_laws two_per_second 5 0 3 fresh
              blank_tape D)
    as (s' & w' & E & Tt & Ln & _);
    [vm_compute; discriminate | vm_compute; reflexivity | reflexivity |].
  exists s', w'. split; [exact E|]. split; [exact Tt | exact Ln].
Defined.

Lemma signal_stops_the_run_witness :
  PlatformLaws replay /\
  intervalOf (rate two_per_second) = Some 1000000000%Z /\
  In Signal (selected late_stop) /\
  exists s' w' st,
    main two_per_second EmptyString (selected late_stop) blank_tape
      = Some (Stopped s', w') /\
    final_stats (stdout s') = Some st /\
    statTotal st = totalEntries s' /\
    buf (writer s') = EmptyString.
Proof.
  split; [exact replay_laws|].
  assert (Ei : intervalOf (rate two_per_second) = Some 1000000000%Z)
    by (vm_compute; reflexivity).
  assert (I : In Signal (selected late_stop))
    by (vm_compute; right; right; left; reflexivity).
  split; [exact Ei|]. split; [exact I|].
  apply (signal_stops_the_run replay_laws two_per_second EmptyString
           (selected late_stop) 1000000000 blank_tape Ei).
  - reflexivity.
  - vm_compute. reflexivity.
  - exact I.
Defined.

Lemma prints_of_a_run_witness :
  PlatformLaws replay /\
  intervalOf (rate two_per_second) = Some 1000000000%Z /\
  exists o w',
    main two_per_second EmptyString (selected late_stop) blank_tape
      = Some (o, w') /\
    match o with
    | Running s' => count_final (stdout s') = O
    | Stopped s' =>
        count_final (stdout s') = 1%nat /\
        exists prints st, stdout s' = prints ++ [FinalStats st]
    end /\
    (verbose two_per_second = false ->
       count_progress (stdout (state_of o)) = O).
Proof.
  split; [exact replay_laws|].
  assert (Ei : intervalOf (rate two_per_second) = Some 1000000000%Z)
    by (vm_compute; reflexivity).
  split; [exact Ei|].
  apply (prints_of_a_run replay_laws two_per_second EmptyString
           (selected late_stop) 1000000000 blank_tape Ei).
  - reflexivity.
  - vm_compute. reflexivity.
Defined.

Lemma output_lines_are_objects_witness :
  PlatformLaws replay /\ TextLaws replay /\
  intervalOf (rate two_per_second) = Some 1000000000%Z /\
  exists o w' n t,
    main two_per_second EmptyString (selected late_stop) blank_tape
      = Some (o, w') /\
    written (writer (state_of o)) = (EmptyString ++ t)%string /\
    each_line (object_text (P := replay)) n t /\
    totalEntries (state_of o) = Z.of_nat n.
Proof.
  split; [exact replay_laws|]. split; [exact replay_text_laws|].
  assert (Ei : intervalOf (rate two_per_second) = Some 1000000000%Z)
    by (vm_compute; reflexivity).
  split; [exact Ei|].
  apply (output_lines_are_objects replay_laws replay_text_laws
           two_per_second EmptyString (selected late_stop) 1000000000
           blank_tape Ei).
  - reflexivity.
  - vm_compute. reflexivity.
Defined.

Lemma ticker_refuses_rate_witness :
  ((- 2 ^ 63 <= rate negative_rate < 0)%Z
   \/ (10 ^ 12 < rate negative_rate < 2 ^ 63)%Z) /\
  main negative_rate EmptyString [Tick; Signal] blank_tape = None.
Proof.
  assert (H : (- 2 ^ 63 <= rate negative_rate < 0)%Z
              \/ (10 ^ 12 < rate negative_rate < 2 ^ 63)%Z)
    by (left; vm_compute; split; [discriminate | reflexivity]).
  split; [exact H|].
  exact (proj2 (ticker_refuses_rate negative_rate EmptyString
                  [Tick; Signal] blank_tape H)).
Defined.

Lemma ticker_accepts_rate_witness :
  (1 <= rate two_per_second <= 10 ^ 12)%Z /\
  exists i, intervalOf (rate two_per_second) = Some i /\
            (1 <= i <= Second)%Z.
Proof.
  assert (H : (1 <= rate two_per_second <= 10 ^ 12)%Z)
    by (vm_compute; split; discriminate).
  split; [exact H|].
  destruct (ticker_accepts_rate (P := replay) two_per_second H)
    as (i & E & Hi & _).
  exists i. split; [exact E | exact Hi].
Defined.

Lemma final_stats_finite_witness :
  (0 < 7 < 2 ^ 63)%Z /\ (0 <= 10 < 2 ^ 63)%Z /\
  (0 < fst (Now blank_tape) - 2 < 2 ^ 63)%Z /\
  exists st w' r,
    printFinalStats 7 2 (Some 10%Z) blank_tape = Some (st, w') /\
    statRate st = Fin r /\ 0 < r.
Proof.
  assert (H1 : (0 < 7 < 2 ^ 63)%Z) by lia.
  assert (H2 : (0 <= 10 < 2 ^ 63)%Z) by lia.
  assert (H3 : (0 < fst (Now blank_tape) - 2 < 2 ^ 63)%Z)
    by (vm_compute; split; reflexivity).
  split; [exact H1|]. split; [exact H2|]. split; [exact H3|].
  destruct (final_stats_finite 7 2 10 blank_tape H1 H2 H3)
    as (st & w' & r & a & m & E & Er & Pr & _).
  exists st, w', r. split; [exact E|]. split; [exact Er | exact Pr].
Defined.

Lemma coarse_laws : PlatformLaws coarse.
Proof.
  destruct replay_laws as [A B C]. split; [exact A | exact B | exact C].
Qed.

Lemma progress_lines_count_batches_witness :
  PlatformLaws coarse /\
  intervalOf (rate with_progress) = Some 1000000000%Z /\
  exists o w',
    main (P := coarse) with_progress EmptyString [Tick; Tick; Signal]
      blank_tape = Some (o, w') /\
    progress_totals (stdout (state_of o)) = [2; 4]%Z /\
    StronglySorted Z.lt (progress_totals (stdout (state_of o))) /\
    Forall (fun t => (0 < t <= totalEntries (state_of o))%Z /\
                     (batchSizeOf (rate with_progress) | t)%Z)
           (progress_totals (stdout (state_of o))).
Proof.
  split; [exact coarse_laws|].
  assert (Ei : intervalOf (rate with_progress) = Some 1000000000%Z)
    by (vm_compute; reflexivity).
  split; [exact Ei|].
  assert (R : exists o w',
             main (P := coarse) with_progress EmptyString
               [Tick; Tick; Signal] blank_tape = Some (o, w') /\
             progress_totals (stdout (state_of o)) = [2; 4]%Z).
  { eexists. eexists. split; vm_compute; reflexivity. }
  destruct R as (o0 & w0 & E0 & P0).
  destruct (progress_lines_count_batches coarse_laws with_progress
              EmptyString [Tick; Tick; Signal] 1000000000 blank_tape Ei)
    as (o & w' & E & Ss & Fa & _);
    [reflexivity | vm_compute; reflexivity |].
  rewrite E0 in E. apply some_pair_eq in E. destruct E as [<- <-].
  exists o0, w0. split; [exact E0|]. split; [exact P0|].
  split; [exact Ss | exact Fa].
Defined.

End MoreRuns.
